(** * SQL Server to MySQL migration wizard: embedding and verified properties

    The development embeds the two scripts of the repository,
    [migrar_sqlserver_a_mysql.py] (schema translation and create+copy) and
    [actualizar.py] (UPDATE-only and UPSERT reconciliation), and proves the
    properties of the design document against them.

    Conventions of the embedding:
    - a Python [str] is a Rocq [string] whose characters are read as the code
      points 0..255;
    - a Python [int] is a [Z]; an optional catalog value ([None] or a value)
      is an [option];
    - a Python exception is the [Raise] constructor of [result];
    - database cursors and connections are an explicit session state: the
      pending result set of the SQL Server cursor and the log of the calls
      made on both sides, in program order;
    - both servers answer every call: what is proved of a run is proved of
      a run in which no database call ends with a driver error. *)

From Stdlib Require Import ZArith String Ascii.
From stdpp Require Import base list strings gmap pretty.

Local Open Scope Z_scope.

(* ================================================================== *)
(** * Python built-ins used by the scripts *)
(* ================================================================== *)

Module Py.

(** Exceptions that the modelled expressions can raise. *)
Inductive exn := TypeError | KeyError | ValueError.

Inductive result (A : Type) :=
| Ok (a : A)
| Raise (e : exn).
Arguments Ok {A} a.
Arguments Raise {A} e.

#[global] Instance result_ret : MRet result := λ A a, Ok a.
#[global] Instance result_bind : MBind result := λ A B k m,
  match m with
  | Ok a => k a
  | Raise e => Raise e
  end.

(** Truth value of an optional integer: [None] and [0] are falsy. *)
Definition truthy_int (v : option Z) : bool :=
  match v with
  | None => false
  | Some z => negb (z =? 0)
  end.

(** Truth value of a string: only the empty string is falsy. *)
Definition truthy_str (s : string) : bool :=
  match s with
  | EmptyString => false
  | String _ _ => true
  end.

(** Truth value of an optional string ([None] or [str]). *)
Definition truthy_opt_str (v : option string) : bool :=
  match v with
  | None => false
  | Some s => truthy_str s
  end.

(** Truth value of a list. *)
Definition truthy_list {A} (l : list A) : bool :=
  match l with
  | [] => false
  | _ :: _ => true
  end.

(** [v > 0] on a value that may be [None]: comparing [None] with an
    integer raises [TypeError]. *)
Definition gt0 (v : option Z) : result bool :=
  match v with
  | None => Raise TypeError
  | Some z => Ok (0 <? z)
  end.

(** [v or d] where [v] is an optional integer and [d] an integer. *)
Definition int_or (v : option Z) (d : Z) : Z :=
  match v with
  | Some z => if z =? 0 then d else z
  | None => d
  end.

(** [str(i)] / [f"{i}"] for an integer. *)
Definition str_of_int (z : Z) : string := pretty z.

(** [sep.join(items)]. *)
Fixpoint join (sep : string) (items : list string) : string :=
  match items with
  | [] => ""
  | [x] => x
  | x :: rest => x +:+ sep +:+ join sep rest
  end.

Definition code (c : ascii) : N := N_of_ascii c.

(** [c.isspace()] on the code points 0..255. *)
Definition isspace (c : ascii) : bool :=
  let n := code c in
  (((9 <=? n) && (n <=? 13)) || ((28 <=? n) && (n <=? 32))
   || (n =? 133) || (n =? 160))%N.

(** Whitespace as seen by [float()]: the ASCII blanks, and the non-ASCII
    blanks, which the conversion rewrites to a blank first. *)
Definition float_space (c : ascii) : bool :=
  let n := code c in
  (((9 <=? n) && (n <=? 13)) || (n =? 32) || (n =? 133) || (n =? 160))%N.

Definition is_digit (c : ascii) : bool :=
  let n := code c in ((48 <=? n) && (n <=? 57))%N.

(** [c.lower()] on the code points 0..255. *)
Definition lower_char (c : ascii) : ascii :=
  let n := code c in
  if (((65 <=? n) && (n <=? 90))
      || ((192 <=? n) && (n <=? 222) && negb (n =? 215)))%N
  then ascii_of_N (n + 32) else c.

Fixpoint lower (s : string) : string :=
  match s with
  | EmptyString => EmptyString
  | String c r => String (lower_char c) (lower r)
  end.

(** Removal of the leading characters that satisfy [p]. *)
Fixpoint lstrip_where (p : ascii → bool) (s : string) : string :=
  match s with
  | EmptyString => EmptyString
  | String c r => if p c then lstrip_where p r else s
  end.

Definition rstrip_where (p : ascii → bool) (s : string) : string :=
  String.rev (lstrip_where p (String.rev s)).

Definition strip_where (p : ascii → bool) (s : string) : string :=
  rstrip_where p (lstrip_where p s).

Fixpoint mem_char (c : ascii) (chars : string) : bool :=
  match chars with
  | EmptyString => false
  | String d r => Ascii.eqb c d || mem_char c r
  end.

(** [s.strip()]. *)
Definition strip (s : string) : string := strip_where isspace s.

(** [s.strip(chars)] and [s.lstrip(chars)]. *)
Definition strip_chars (chars s : string) : string :=
  strip_where (fun c => mem_char c chars) s.

Definition lstrip_chars (chars s : string) : string :=
  lstrip_where (fun c => mem_char c chars) s.

(** [s.replace(old, new)] for a one-character [old]. *)
Fixpoint replace_char (old : ascii) (new : string) (s : string) : string :=
  match s with
  | EmptyString => EmptyString
  | String c r =>
      if Ascii.eqb c old then new +:+ replace_char old new r
      else String c (replace_char old new r)
  end.

(** [d.get(key, fallback)] on a dictionary from strings to strings. *)
Definition dict_get (d : gmap string string) (key fallback : string)
  : string :=
  match d !! key with
  | Some v => v
  | None => fallback
  end.

(** [x in (s1, ..., sn)] for strings. *)
Definition str_in (x : string) (l : list string) : bool :=
  bool_decide (x ∈ l).

(** ** Which strings [float()] accepts

    [float(s)] raises [ValueError] exactly when [float_parses s] is
    [false]; the value itself is never used by the scripts. *)

(** Underscores are allowed only between two digits. *)
Fixpoint underscores_ok (prev : option ascii) (s : string) : bool :=
  match s with
  | EmptyString =>
      match prev with
      | Some "_"%char => false
      | _ => true
      end
  | String c r =>
      match c, prev with
      | "_"%char, Some p => is_digit p && underscores_ok (Some c) r
      | "_"%char, None => false
      | _, Some "_"%char => is_digit c && underscores_ok (Some c) r
      | _, _ => underscores_ok (Some c) r
      end
  end.

Definition drop_sign (s : string) : string :=
  match s with
  | String "+" r => r
  | String "-" r => r
  | _ => s
  end.

Definition skip_digits (s : string) : string := lstrip_where is_digit s.

Definition count_digits (s : string) : nat :=
  (String.length s - String.length (skip_digits s))%nat.

(** An exponent: [e] or [E], an optional sign, at least one digit, and
    nothing after it. *)
Definition exponent_ok (s : string) : bool :=
  match s with
  | String c r =>
      (Ascii.eqb c "e" || Ascii.eqb c "E")
      && (let r1 := drop_sign r in
          (0 <? count_digits r1)%nat && negb (truthy_str (skip_digits r1)))
  | EmptyString => false
  end.

(** A decimal literal: optional sign, digits with an optional point and at
    least one digit in all, and an optional exponent. *)
Definition decimal_ok (s : string) : bool :=
  let s1 := drop_sign s in
  let s2 := skip_digits s1 in
  let nint := count_digits s1 in
  let s3 := match s2 with String "." r => skip_digits r | _ => s2 end in
  let nfrac := match s2 with String "." r => count_digits r | _ => 0%nat end in
  (0 <? nint + nfrac)%nat
  && (negb (truthy_str s3) || exponent_ok s3).

Definition ascii_lower_char (c : ascii) : ascii :=
  let n := code c in
  if ((65 <=? n) && (n <=? 90))%N then ascii_of_N (n + 32) else c.

Fixpoint ascii_lower (s : string) : string :=
  match s with
  | EmptyString => EmptyString
  | String c r => String (ascii_lower_char c) (ascii_lower r)
  end.

(** An optional sign and one of [inf], [infinity], [nan] in any case. *)
Definition inf_nan_ok (s : string) : bool :=
  str_in (ascii_lower (drop_sign s)) ["inf"; "infinity"; "nan"].

Definition float_parses (s : string) : bool :=
  underscores_ok None s
  && (let t := strip_where float_space (replace_char "_" "" s) in
      decimal_ok t || inf_nan_ok t).

(** [float(s)], of which only success or failure is observed. *)
Definition float (s : string) : result unit :=
  if float_parses s then Ok tt else Raise ValueError.

(** [f"{v}"] for a value that is a string or [None]. *)
Definition fmt_opt_str (v : option string) : string :=
  match v with
  | Some s => s
  | None => "None"
  end.

(** [s.replace(old, new)] for a non-empty [old]: the occurrences are
    found from left to right and do not overlap. [skip] counts the
    characters of a matched occurrence that are still to be passed. *)
Fixpoint replace_from (skip : nat) (old new s : string) : string :=
  match s with
  | EmptyString => EmptyString
  | String c r =>
      match skip with
      | S k => replace_from k old new r
      | O =>
          if String.prefix old s
          then new +:+ replace_from (String.length old - 1) old new r
          else String c (replace_from 0 old new r)
      end
  end.

Definition replace (old new s : string) : string := replace_from 0 old new s.

End Py.

(* ================================================================== *)
(** * Database sessions shared by the two scripts *)
(* ================================================================== *)

Module Db.

(** A column as [fetch_columns_sqlserver] returns it: the dictionary built
    from one row of [INFORMATION_SCHEMA.COLUMNS], with the type name
    already lower-cased. *)
Record Column := {
  name : string;
  type : string;
  char_len : option Z;
  num_prec : option Z;
  num_scale : option Z;
  nullable : bool;
  is_identity : bool;
  default : option string
}.

Section Session.
Context {V : Type}.

(** A fetched row is a positional sequence of values. *)
Definition row := list V.

(** The calls made on the SQL Server cursor ([Sql...]) and on the MySQL
    cursor and connection ([My...]). Both servers answer every call: a
    call that the driver would end with an exception (a refused statement,
    a lost connection) is outside the model, so what is proved of a run
    is proved of a run in which no database call fails. *)
Inductive call :=
| SqlExecute (sql : string) (params : list string)
| SqlFetchMany (size : Z) (returned : list row)
| MyExecute (sql : string) (params : list string)
| MyExecuteMany (sql : string) (data : list row)
| MyCommit
| MyRollback
| MySelectDb (db : string).

(** What the two servers answer. [select] gives the result set of a
    [SELECT] statement of the data phase. *)
Record servers := {
  sql_columns : string → string → list Column;
  sql_primary_key : string → string → list string;
  sql_tables : string → list string;
  select : string → list row;
  mysql_primary_key : string → string → list string
}.

(** The session: the rows the SQL Server cursor has still to deliver and
    the calls made so far, oldest first. *)
Record session := {
  pending : list row;
  calls : list call
}.

Definition log (c : call) (s : session) : session :=
  {| pending := pending s; calls := calls s ++ [c] |}.

(** [sql_cur.execute(sql)] for a [SELECT] of the data phase. *)
Definition sql_execute (srv : servers) (sql : string) (s : session)
  : session :=
  {| pending := select srv sql; calls := calls s ++ [SqlExecute sql []] |}.

(** [sql_cur.fetchmany(size)]: up to [size] of the pending rows. *)
Definition fetchmany (size : Z) (s : session) : list row * session :=
  let rows := take (Z.to_nat size) (pending s) in
  (rows,
   {| pending := drop (Z.to_nat size) (pending s);
      calls := calls s ++ [SqlFetchMany size rows] |}).

Definition executemany (sql : string) (data : list row) (s : session)
  : session := log (MyExecuteMany sql data) s.

Definition commit (s : session) : session := log MyCommit s.

(** [mysql_cur.execute(sql)]. *)
Definition mysql_execute (sql : string) (params : list string)
  (s : session) : session := log (MyExecute sql params) s.

(** How a call of one of the scripts' functions ends. [Exits] is
    [sys.exit(code)]; [OutOfFuel] only says that the bound given to the
    model of a [while True] loop was too small. *)
Inductive outcome (A : Type) :=
| Returns (a : A) (s : session)
| Raises (e : Py.exn) (s : session)
| Exits (code : Z) (s : session)
| OutOfFuel.
Arguments Returns {A} a s.
Arguments Raises {A} e s.
Arguments Exits {A} code s.
Arguments OutOfFuel {A}.

(** The transfer loop, written three times in the scripts
    ([copy_table], [update_only], [upsert_mode]) with the same shape:

    [total = 0]
    [while True:]
    [    rows = sql_cur.fetchmany(batch_size)]
    [    if not rows: break]
    [    data = ...rows...]
    [    mysql_cur.executemany(sql, data)]
    [    mysql_conn.commit()]
    [    total += len(data)]

    [prepare] is the line that builds [data] from [rows]. The result is
    the total that the function reports when the loop ends. *)
Fixpoint batch_loop (fuel : nat) (prepare : list row → list row)
  (sql : string) (batch_size : Z) (total : Z) (s : session)
  : outcome Z :=
  match fuel with
  | O => OutOfFuel
  | S fuel' =>
      let '(rows, s) := fetchmany batch_size s in
      if negb (Py.truthy_list rows) then Returns total s
      else
        let data := prepare rows in
        let s := executemany sql data s in
        let s := commit s in
        batch_loop fuel' prepare sql batch_size
          (total + Z.of_nat (length data)) s
  end.

Definition is_mysql_call (c : call) : bool :=
  match c with
  | MyExecute _ _ | MyExecuteMany _ _ | MyCommit | MyRollback
  | MySelectDb _ => true
  | _ => false
  end.

Definition is_mysql_write (c : call) : bool :=
  match c with
  | MyExecuteMany _ _ | MyCommit => true
  | _ => false
  end.

End Session.

Arguments call : clear implicits.
Arguments servers : clear implicits.
Arguments session : clear implicits.
Arguments outcome : clear implicits.
Arguments Returns {V A} a s.
Arguments Raises {V A} e s.
Arguments Exits {V A} code s.
Arguments OutOfFuel {V A}.

End Db.

(* ================================================================== *)
(** * migrar_sqlserver_a_mysql.py *)
(* ================================================================== *)

Module Migrar.
Import Py Db.

Definition TYPE_MAP_items : list (string * string) :=
  [ ("bigint", "BIGINT");
    ("int", "INT");
    ("smallint", "SMALLINT");
    ("tinyint", "TINYINT");
    ("bit", "TINYINT(1)");
    ("decimal", "DECIMAL");
    ("numeric", "DECIMAL");
    ("money", "DECIMAL(19,4)");
    ("smallmoney", "DECIMAL(10,4)");
    ("float", "DOUBLE");
    ("real", "FLOAT");
    ("varchar", "VARCHAR");
    ("nvarchar", "VARCHAR");
    ("char", "CHAR");
    ("nchar", "CHAR");
    ("text", "LONGTEXT");
    ("ntext", "LONGTEXT");
    ("date", "DATE");
    ("datetime", "DATETIME");
    ("datetime2", "DATETIME");
    ("smalldatetime", "DATETIME");
    ("time", "TIME");
    ("datetimeoffset", "DATETIME");
    ("binary", "BINARY");
    ("varbinary", "VARBINARY");
    ("image", "LONGBLOB");
    ("uniqueidentifier", "CHAR(36)");
    ("xml", "LONGTEXT");
    ("sql_variant", "JSON") ].

Definition TYPE_MAP : gmap string string := list_to_map TYPE_MAP_items.

(** [f"{v}"] for a value that is an integer or [None]. *)
Definition fmt_opt_int (v : option Z) : string :=
  match v with
  | Some z => str_of_int z
  | None => "None"
  end.

Definition sized_types : list string :=
  ["VARCHAR"; "CHAR"; "VARBINARY"; "BINARY"].

Definition sqlserver_to_mysql_type (col : Column) : result string :=
  let t := type col in
  let mapped := dict_get TYPE_MAP t "TEXT" in
  if str_in mapped sized_types then
    positive ← (if truthy_int (char_len col) then gt0 (char_len col)
                else Ok false);
    let length := if positive : bool then char_len col else Some 255 in
    Ok (mapped +:+ "(" +:+ fmt_opt_int length +:+ ")")
  else if String.eqb mapped "DECIMAL" then
    let p := int_or (num_prec col) 18 in
    let s := int_or (num_scale col) 0 in
    Ok ("DECIMAL(" +:+ str_of_int p +:+ "," +:+ str_of_int s +:+ ")")
  else Ok mapped.

Definition timestamp_spellings : list string :=
  ["getdate"; "getdate()"; "sysdatetime()"; "current_timestamp"].

Definition newid_spellings : list string := ["newid"; "newid()"].

(** The default expression once blanks and then parentheses are removed
    from both ends. *)
Definition default_text (raw : string) : string :=
  strip_chars "()" (strip raw).

(** The text placed between quotes in the [except] branch. *)
Definition default_literal (d : string) : string :=
  replace_char "'" "\'"
    (replace_char "\" "\\" (strip_chars "'" (lstrip_chars "N" d))).

(** What the body of [if col["default"]:] appends to the column
    definition. *)
Definition default_clause (raw : string) : string :=
  let d := default_text raw in
  if str_in (lower d) timestamp_spellings then " DEFAULT CURRENT_TIMESTAMP"
  else if str_in (lower d) newid_spellings then ""
  else
    match float d with
    | Ok _ => " DEFAULT " +:+ d
    | Raise _ => " DEFAULT '" +:+ default_literal d +:+ "'"
    end.

(** What the whole [if col["default"]:] statement appends. *)
Definition default_part (col : Column) : string :=
  match default col with
  | Some raw => if truthy_str raw then default_clause raw else ""
  | None => ""
  end.

(** One iteration of the loop over the columns: the text appended to
    [parts]. *)
Definition column_definition (col : Column) : result string :=
  ty ← sqlserver_to_mysql_type col;
  let col_def := "`" +:+ name col +:+ "` " +:+ ty in
  let col_def :=
    if is_identity col then col_def +:+ " AUTO_INCREMENT" else col_def in
  let col_def :=
    if negb (nullable col) || is_identity col then col_def +:+ " NOT NULL"
    else col_def +:+ " NULL" in
  Ok (col_def +:+ default_part col).

Definition newline : string := String (ascii_of_N 10) "".

Definition build_create_table_mysql
  (table : string) (columns : list Column) (pk_cols : list string)
  : result string :=
  parts ← mapM column_definition columns;
  let parts :=
    if truthy_list pk_cols then
      parts ++ ["PRIMARY KEY ("
                +:+ join ", " (map (λ c, "`" +:+ c +:+ "`") pk_cols) +:+ ")"]
    else parts in
  let cols_sql := join ("," +:+ newline +:+ "  ") parts in
  Ok ("CREATE TABLE IF NOT EXISTS `" +:+ table +:+ "` (" +:+ newline
      +:+ "  " +:+ cols_sql +:+ newline
      +:+ ") ENGINE=InnoDB DEFAULT CHARSET=utf8mb4;").

Definition quote_ident_list (cols : list string) : string :=
  join ", " (map (λ c, "`" +:+ c +:+ "`") cols).

(** The catalog statements, as the script sends them. *)
Definition columns_query : string :=
"
        SELECT c.COLUMN_NAME, c.DATA_TYPE, c.CHARACTER_MAXIMUM_LENGTH,
               c.NUMERIC_PRECISION, c.NUMERIC_SCALE, c.IS_NULLABLE,
               COLUMNPROPERTY(object_id(QUOTENAME(c.TABLE_SCHEMA)+'.'+QUOTENAME(c.TABLE_NAME)),
                              c.COLUMN_NAME,'IsIdentity') AS IS_IDENTITY,
               c.COLUMN_DEFAULT
        FROM INFORMATION_SCHEMA.COLUMNS c
        WHERE c.TABLE_SCHEMA=? AND c.TABLE_NAME=?
        ORDER BY c.ORDINAL_POSITION
    ".

Definition primary_key_query : string :=
"
        SELECT kcu.COLUMN_NAME
        FROM INFORMATION_SCHEMA.TABLE_CONSTRAINTS tc
        JOIN INFORMATION_SCHEMA.KEY_COLUMN_USAGE kcu
          ON tc.CONSTRAINT_NAME = kcu.CONSTRAINT_NAME
         AND tc.TABLE_SCHEMA = kcu.TABLE_SCHEMA
         AND tc.TABLE_NAME = kcu.TABLE_NAME
        WHERE tc.TABLE_SCHEMA=? AND tc.TABLE_NAME=? AND tc.CONSTRAINT_TYPE='PRIMARY KEY'
        ORDER BY kcu.ORDINAL_POSITION
    ".

Definition tables_query : string :=
"
        SELECT TABLE_NAME
        FROM INFORMATION_SCHEMA.TABLES
        WHERE TABLE_TYPE='BASE TABLE' AND TABLE_SCHEMA=?
        ORDER BY TABLE_NAME
    ".

(** [choose_columns_interactive]; [None] is [sys.exit(1)]. The typed line
    is [None] when empty, and otherwise its non-empty entries. *)
Definition choose_columns_interactive (all_cols : list string)
  (typed : option (list string)) : option (list string) :=
  match typed with
  | None => Some all_cols
  | Some chosen =>
      let missing := filter (λ c, c ∉ all_cols) chosen in
      if truthy_list missing then None else Some chosen
  end.

(** [{m["name"]: m for m in meta}]: a later column replaces an earlier one
    of the same name. *)
Definition meta_by_name (meta : list Column) : gmap string Column :=
  foldl (λ d m, <[name m := m]> d) ∅ meta.

(** [[c for c in excluded if (not meta_by[c]["nullable"]) and
    (meta_by[c]["default"] is None)]]; a name that [meta_by] does not
    have raises [KeyError]. *)
Fixpoint risky_columns (meta_by : gmap string Column) (excluded : list string)
  : result (list string) :=
  match excluded with
  | [] => Ok []
  | c :: rest =>
      match meta_by !! c with
      | None => Raise KeyError
      | Some m =>
          risky ← risky_columns meta_by rest;
          Ok (if negb (nullable m)
                 && match default m with None => true | Some _ => false end
              then c :: risky else risky)
      end
  end.

(** The loop that asks for a table name until a known one is typed;
    [None] when the typed names run out. *)
Fixpoint ask_table (typed tables : list string) : option string :=
  match typed with
  | [] => None
  | sel :: rest =>
      if bool_decide (sel ∈ tables) then Some sel else ask_table rest tables
  end.

(** The answers typed at the prompts of [main] that the calls on the two
    servers depend on. *)
Record answers := {
  migra_db_completa : bool;
  answered_schema : string;
  mysql_db : string;
  confirm_all : bool;
  choice : string;
  tables_typed : list string;
  col_choice : string;
  columns_typed : option (list string);
  risky_confirmed : bool
}.

(** [connect_sqlserver]: the connection string handed to
    [pyodbc.connect]. *)
Definition connect_sqlserver (dsn server : option string) (database : string)
  (user password : option string) (driver : string) : string :=
  if truthy_opt_str dsn then
    let conn_str :=
      "DSN=" +:+ fmt_opt_str dsn +:+ ";DATABASE=" +:+ database +:+ ";" in
    if truthy_opt_str user then
      conn_str +:+ ("UID=" +:+ fmt_opt_str user +:+ ";PWD="
                    +:+ fmt_opt_str password +:+ ";")
    else conn_str +:+ "Trusted_Connection=Yes;"
  else
    let auth :=
      if truthy_opt_str user then
        "UID=" +:+ fmt_opt_str user +:+ ";PWD=" +:+ fmt_opt_str password
        +:+ ";"
      else "Trusted_Connection=Yes;" in
    ("DRIVER={" +:+ driver +:+ "};SERVER=" +:+ fmt_opt_str server
     +:+ ";DATABASE=" +:+ database +:+ ";")
    +:+ (auth +:+ "Encrypt=No;TrustServerCertificate=Yes;").

Section DataPhase.
Context {V : Type}.
Local Abbreviation session := (session V).
Local Abbreviation servers := (servers V).

(** The catalog reads run [execute] and [fetchall] on the SQL Server
    cursor; the answer is what the server holds for the table. *)
Definition fetch_columns_sqlserver (srv : servers) (schema table : string)
  (s : session) : list Column * session :=
  (sql_columns srv schema table,
   {| pending := []; calls := calls s ++ [SqlExecute columns_query [schema; table]] |}).

Definition fetch_primary_key_sqlserver (srv : servers)
  (schema table : string) (s : session) : list string * session :=
  (sql_primary_key srv schema table,
   {| pending := [];
      calls := calls s ++ [SqlExecute primary_key_query [schema; table]] |}).

(** The columns and key columns kept by [copy_table]: with a non-empty
    [only_cols], the catalog columns and the key columns named in it;
    otherwise all of them. *)
Definition selected_columns (all_cols_meta : list Column)
  (pk : list string) (only_cols : option (list string))
  : list Column * list string :=
  match only_cols with
  | Some oc =>
      if truthy_list oc then
        (filter (λ c, name c ∈ oc) all_cols_meta, filter (λ c, c ∈ oc) pk)
      else (all_cols_meta, pk)
  | None => (all_cols_meta, pk)
  end.

(** The [SELECT] of the data phase. *)
Definition select_sql (schema table : string) (col_names pk : list string)
  : string :=
  let select_cols := join ", " (map (λ c, "[" +:+ c +:+ "]") col_names) in
  let order_by :=
    if truthy_list pk then
      " ORDER BY " +:+ join ", " (map (λ c, "[" +:+ c +:+ "]") pk)
    else "" in
  "SELECT " +:+ select_cols +:+ " FROM [" +:+ schema +:+ "].[" +:+ table
  +:+ "]" +:+ order_by +:+ ";".

Definition insert_sql (table : string) (col_names : list string) : string :=
  let placeholders := join ", " (replicate (length col_names) "%s") in
  "INSERT INTO `" +:+ table +:+ "` (" +:+ quote_ident_list col_names
  +:+ ") VALUES (" +:+ placeholders +:+ ")".

(** [copy_table]; the result is the total of the closing message. The
    progress messages are not part of the model. *)
Definition copy_table (fuel : nat) (srv : servers) (schema table : string)
  (batch_size : Z) (only_cols : option (list string)) (s : session)
  : outcome V Z :=
  let '(all_cols_meta, s) := fetch_columns_sqlserver srv schema table s in
  let '(pk, s) := fetch_primary_key_sqlserver srv schema table s in
  let '(cols, pk) := selected_columns all_cols_meta pk only_cols in
  match build_create_table_mysql table cols pk with
  | Raise e => Raises e s
  | Ok create_sql =>
      let s := mysql_execute create_sql [] s in
      let s := commit s in
      let col_names := map name cols in
      let s := sql_execute srv (select_sql schema table col_names pk) s in
      batch_loop fuel (λ rows, rows) (insert_sql table col_names)
        batch_size 0 s
  end.

Definition fetch_tables_sqlserver (srv : servers) (schema : string)
  (s : session) : list string * session :=
  (sql_tables srv schema,
   {| pending := []; calls := calls s ++ [SqlExecute tables_query [schema]] |}).

(** [for t in tables: copy_table(sql_cur, mysql_cnx, mysql_cur, schema, t)]. *)
Fixpoint copy_tables (fuel : nat) (srv : servers) (schema : string)
  (tables : list string) (s : session) : outcome V unit :=
  match tables with
  | [] => Returns tt s
  | t :: rest =>
      match copy_table fuel srv schema t 10000 None s with
      | Returns _ s => copy_tables fuel srv schema rest s
      | Raises e s => Raises e s
      | Exits c s => Exits c s
      | OutOfFuel => OutOfFuel
      end
  end.

(** The two flows that migrate every table of the schema. *)
Definition migrate_all (fuel : nat) (srv : servers) (a : answers) (s : session)
  : outcome V unit :=
  let '(tables, s) := fetch_tables_sqlserver srv (answered_schema a) s in
  if negb (truthy_list tables) then Exits 0 s
  else if negb (confirm_all a) then Exits 0 s
  else copy_tables fuel srv (answered_schema a) tables s.

(** The flow for one table. *)
Definition migrate_one (fuel : nat) (srv : servers) (a : answers) (s : session)
  : outcome V unit :=
  let schema := answered_schema a in
  let discard (r : outcome V Z) : outcome V unit :=
    match r with
    | Returns _ s => Returns tt s
    | Raises e s => Raises e s
    | Exits c s => Exits c s
    | OutOfFuel => OutOfFuel
    end in
  let '(tables, s) := fetch_tables_sqlserver srv schema s in
  if negb (truthy_list tables) then Exits 0 s
  else
    match ask_table (tables_typed a) tables with
    | None => OutOfFuel
    | Some table =>
        if String.eqb (col_choice a) "Todas las columnas" then
          discard (copy_table fuel srv schema table 10000 None s)
        else
          let '(cols, s) := fetch_columns_sqlserver srv schema table s in
          let all_cols := map name cols in
          match choose_columns_interactive all_cols (columns_typed a) with
          | None => Exits 1 s
          | Some only_cols =>
              let '(meta, s) := fetch_columns_sqlserver srv schema table s in
              let meta_by := meta_by_name meta in
              let excluded := filter (λ c, c ∉ only_cols) all_cols in
              match risky_columns meta_by excluded with
              | Raise e => Raises e s
              | Ok risky =>
                  if truthy_list risky && negb (risky_confirmed a)
                  then Exits 0 s
                  else
                    discard (copy_table fuel srv schema table 10000
                               (Some only_cols) s)
              end
          end
    end.

(** The statement that [main] sends on the fresh MySQL connection. *)
Definition create_database_sql (db : string) : string :=
  "CREATE DATABASE IF NOT EXISTS `" +:+ db +:+ "` DEFAULT CHARSET utf8mb4;".

(** The second [try] of [main]: on the connection opened without a
    database, create the target database, commit and select it. *)
Definition prepare_mysql (a : answers) (s : session) : session :=
  let s := mysql_execute (create_database_sql (mysql_db a)) [] s in
  let s := commit s in
  log (MySelectDb (mysql_db a)) s.

(** [main]. The prompts are the fields of [a]; opening the two connections
    sends no statement. The target database is prepared first; then comes
    the flow chosen by the operator, in which an exception is reported and
    followed by a rollback. [sys.exit] passes through. *)
Definition main (fuel : nat) (srv : servers) (a : answers) (s : session)
  : outcome V unit :=
  let s := prepare_mysql a s in
  let flow :=
    if migra_db_completa a then migrate_all fuel srv a s
    else if String.eqb (choice a) "Todas las tablas" then
      migrate_all fuel srv a s
    else migrate_one fuel srv a s in
  match flow with
  | Raises e s => Returns tt (log MyRollback s)
  | r => r
  end.

End DataPhase.

End Migrar.

(* ================================================================== *)
(** * actualizar.py *)
(* ================================================================== *)

Module Actualizar.
Import Py Db.

(** The dictionary built by this script's [fetch_columns_sqlserver]. *)
Record ColumnInfo := {
  col_name : string;
  col_type : string;
  col_nullable : bool;
  col_is_identity : bool
}.

Definition tables_query : string :=
"
        SELECT TABLE_NAME
        FROM INFORMATION_SCHEMA.TABLES
        WHERE TABLE_TYPE='BASE TABLE' AND TABLE_SCHEMA=?
        ORDER BY TABLE_NAME
    ".

Definition columns_query : string :=
"
        SELECT c.COLUMN_NAME, c.DATA_TYPE, c.IS_NULLABLE,
               COLUMNPROPERTY(object_id(QUOTENAME(c.TABLE_SCHEMA)+'.'+QUOTENAME(c.TABLE_NAME)),
                              c.COLUMN_NAME,'IsIdentity') AS IS_IDENTITY
        FROM INFORMATION_SCHEMA.COLUMNS c
        WHERE c.TABLE_SCHEMA=? AND c.TABLE_NAME=?
        ORDER BY c.ORDINAL_POSITION
    ".

Definition mysql_pk_query : string :=
"
        SELECT k.COLUMN_NAME
        FROM information_schema.table_constraints t
        JOIN information_schema.key_column_usage k
          ON t.constraint_name = k.constraint_name
         AND t.table_schema = k.table_schema
         AND t.table_name   = k.table_name
        WHERE t.table_schema=%s AND t.table_name=%s AND t.constraint_type='PRIMARY KEY'
        ORDER BY k.ORDINAL_POSITION
    ".

(** [list(dict.fromkeys(l))]: duplicates removed, first occurrences kept. *)
Fixpoint fromkeys (seen l : list string) : list string :=
  match l with
  | [] => []
  | x :: r =>
      if bool_decide (x ∈ seen) then fromkeys seen r
      else x :: fromkeys (x :: seen) r
  end.

(** ** Statements built by [update_only] *)

(** [upd_cols = [c for c in upd_cols if c not in pk_cols]]. *)
Definition non_key (pk_cols upd_cols : list string) : list string :=
  filter (λ c, c ∉ pk_cols) upd_cols.

(** The columns of the [SELECT]: [pk_cols + upd_cols]. *)
Definition update_fetch_columns (pk_cols upd_cols : list string)
  : list string := pk_cols ++ non_key pk_cols upd_cols.

Definition assignment (c : string) : string := "`" +:+ c +:+ "`=%s".

Definition set_clause (upd_cols : list string) : string :=
  join ", " (map assignment upd_cols).

Definition where_pred (pk_cols : list string) : string :=
  join " AND " (map assignment pk_cols).

Definition upd_sql (table : string) (pk_cols upd_cols : list string) : string :=
  "UPDATE `" +:+ table +:+ "` SET " +:+ set_clause upd_cols
  +:+ " WHERE " +:+ where_pred pk_cols.

Definition where_sql (where_clause : option string) : string :=
  match where_clause with
  | Some w => if truthy_str w then " WHERE " +:+ w +:+ " " else ""
  | None => ""
  end.

Definition source_select (schema table : string) (cols pk_cols : list string)
  (where_clause : option string) : string :=
  let select_cols := join ", " (map (λ c, "[" +:+ c +:+ "]") cols) in
  let order_by :=
    " ORDER BY " +:+ join ", " (map (λ c, "[" +:+ c +:+ "]") pk_cols) in
  "SELECT " +:+ select_cols +:+ " FROM [" +:+ schema +:+ "].[" +:+ table
  +:+ "]" +:+ where_sql where_clause +:+ order_by +:+ ";".

(** ** Statements built by [upsert_mode] *)

Definition values_assignment (c : string) : string :=
  "`" +:+ c +:+ "`=VALUES(`" +:+ c +:+ "`)".

(** [", ".join(...) or ""]. *)
Definition update_set (non_pk_upd : list string) : string :=
  let joined := join ", " (map values_assignment non_pk_upd) in
  if truthy_str joined then joined else "".

Definition upsert_sql (table : string) (pk_cols non_pk_upd : list string)
  : string :=
  let insert_cols := pk_cols ++ non_pk_upd in
  let placeholders := join ", " (replicate (length insert_cols) "%s") in
  let column_list := join ", " (map (λ c, "`" +:+ c +:+ "`") insert_cols) in
  if truthy_str (update_set non_pk_upd) then
    "INSERT INTO `" +:+ table +:+ "` (" +:+ column_list +:+ ") VALUES ("
    +:+ placeholders +:+ ") ON DUPLICATE KEY UPDATE " +:+ update_set non_pk_upd
  else
    "INSERT IGNORE INTO `" +:+ table +:+ "` (" +:+ column_list
    +:+ ") VALUES (" +:+ placeholders +:+ ")".

(** [connect_sqlserver]: the connection string handed to
    [pyodbc.connect]. Without DSN the string is first written with
    [});] after the driver name, and then [replace] is applied. *)
Definition connect_sqlserver (dsn server : option string) (database : string)
  (user password : option string) (driver : string) : string :=
  if truthy_opt_str dsn then
    let conn_str :=
      "DSN=" +:+ fmt_opt_str dsn +:+ ";DATABASE=" +:+ database +:+ ";" in
    if truthy_opt_str user then
      conn_str +:+ ("UID=" +:+ fmt_opt_str user +:+ ";PWD="
                    +:+ fmt_opt_str password +:+ ";")
    else conn_str +:+ "Trusted_Connection=Yes;"
  else
    let auth :=
      if truthy_opt_str user then
        "UID=" +:+ fmt_opt_str user +:+ ";PWD=" +:+ fmt_opt_str password
        +:+ ";"
      else "Trusted_Connection=Yes;" in
    let conn_str :=
      ("DRIVER={" +:+ driver +:+ "});SERVER=" +:+ fmt_opt_str server
       +:+ ";DATABASE=" +:+ database +:+ ";")
      +:+ (auth +:+ "Encrypt=No;TrustServerCertificate=Yes;") in
    replace "}})" "}};" conn_str.

Section Reconcile.
Context {V : Type}.
Local Abbreviation session := (session V).
Local Abbreviation servers := (servers V).
Local Abbreviation row := (@row V).

(** The local variables of one pass of the [while] body of [update_only]. *)
Record locals := {
  rows : list row;
  data : list row
}.

(** One iteration of [for r in rows]: slices of [r] are new tuples, and the
    new tuple is appended to [data]. *)
Definition bind_row (n : nat) (r : row) : row :=
  let pk_vals := take n r in
  let col_vals := drop n r in
  col_vals ++ pk_vals.

Definition for_body (n : nat) (l : locals) (r : row) : locals :=
  {| rows := rows l; data := data l ++ [bind_row n r] |}.

(** [data = []] followed by the [for] loop, [n] being [len(pk_cols)]. *)
Definition reorder (n : nat) (fetched : list row) : locals :=
  foldl (for_body n) {| rows := fetched; data := [] |} fetched.

(** ** The [for] loop on the objects it handles

    The same loop with the sharing that Python has. [rows] and [data] are
    lists: objects that can be changed in place and that hold references
    to other objects. A fetched row and a tuple hold values. The store
    gives every object an address, its index; a new object is put at the
    end. The operations are those of the three lines of the loop body;
    one that is applied to an object of the wrong kind gives [None]. *)
Inductive object :=
| Row (vals : row)
| Tuple (vals : row)
| ListOfValues (vals : row)
| ListOfObjects (items : list nat).

Local Abbreviation store := (list object).

Definition alloc (o : object) (h : store) : nat * store :=
  (length h, h ++ [o]).

(** [r[:n]] and [r[n:]]: the slice of a row or of a tuple is a new tuple,
    the slice of a list a new list. *)
Definition slice (f : row → row) (l : nat) (h : store)
  : option (nat * store) :=
  match h !! l with
  | Some (Row v) | Some (Tuple v) => Some (alloc (Tuple (f v)) h)
  | Some (ListOfValues v) => Some (alloc (ListOfValues (f v)) h)
  | _ => None
  end.

(** [tuple(x)]: [x] itself when it is a tuple, a new tuple otherwise. *)
Definition to_tuple (l : nat) (h : store) : option (nat * store) :=
  match h !! l with
  | Some (Tuple _) => Some (l, h)
  | Some (Row v) | Some (ListOfValues v) => Some (alloc (Tuple v) h)
  | _ => None
  end.

(** [list(x)]: always a new list. *)
Definition to_list (l : nat) (h : store) : option (nat * store) :=
  match h !! l with
  | Some (Row v) | Some (Tuple v) | Some (ListOfValues v) =>
      Some (alloc (ListOfValues v) h)
  | _ => None
  end.

(** [a + b] on two lists: a new list. *)
Definition concat_lists (a b : nat) (h : store) : option (nat * store) :=
  match h !! a, h !! b with
  | Some (ListOfValues x), Some (ListOfValues y) =>
      Some (alloc (ListOfValues (x ++ y)) h)
  | _, _ => None
  end.

(** [l.append(x)]: the list at [l] is changed in place. *)
Definition append_to (l x : nat) (h : store) : option store :=
  match h !! l with
  | Some (ListOfObjects items) =>
      Some (<[l := ListOfObjects (items ++ [x])]> h)
  | _ => None
  end.

(** The body of the loop for the row at [r], [data] being at [data_at]:

    [pk_vals = tuple(r[:len(pk_cols)])]
    [col_vals = tuple(r[len(pk_cols):])]
    [data.append(tuple(list(col_vals) + list(pk_vals)))] *)
Definition for_body_store (n data_at r : nat) (h : store) : option store :=
  '(head, h) ← slice (take n) r h;
  '(pk_vals, h) ← to_tuple head h;
  '(tail, h) ← slice (drop n) r h;
  '(col_vals, h) ← to_tuple tail h;
  '(col_list, h) ← to_list col_vals h;
  '(pk_list, h) ← to_list pk_vals h;
  '(both, h) ← concat_lists col_list pk_list h;
  '(bound, h) ← to_tuple both h;
  append_to data_at bound h.

(** [for r in rows]: the iterator of a list reads the list at the next
    index, in the store as it is then, and stops when the index is out of
    range. [fuel] bounds the number of iterations. *)
Fixpoint for_loop (fuel n rows_at data_at i : nat) (h : store)
  : option store :=
  match fuel with
  | O => None
  | S fuel' =>
      match h !! rows_at with
      | Some (ListOfObjects items) =>
          match items !! i with
          | Some r =>
              h ← for_body_store n data_at r h;
              for_loop fuel' n rows_at data_at (S i) h
          | None => Some h
          end
      | _ => None
      end
  end.

(** [data = []] followed by the loop over the list at [rows_at]; the
    result is the address of [data] and the store at the end. *)
Definition reorder_store (fuel n rows_at : nat) (h : store)
  : option (nat * store) :=
  let '(data_at, h) := alloc (ListOfObjects []) h in
  h ← for_loop fuel n rows_at data_at 0 h;
  Some (data_at, h).

(** [update_only]. The result is the total of the closing message, or
    [None] when the function returns before the data phase. *)
Definition update_only (fuel : nat) (srv : servers) (schema table : string)
  (pk_cols upd_cols : list string) (batch_size : Z)
  (where_clause : option string) (s : session) : outcome V (option Z) :=
  if negb (truthy_list pk_cols) then Exits 1 s
  else
    let upd_cols := non_key pk_cols upd_cols in
    if negb (truthy_list upd_cols) then Returns None s
    else
      let s :=
        sql_execute srv
          (source_select schema table (pk_cols ++ upd_cols) pk_cols
             where_clause) s in
      match
        batch_loop fuel (λ rows, data (reorder (length pk_cols) rows))
          (upd_sql table pk_cols upd_cols) batch_size 0 s
      with
      | Returns total s => Returns (Some total) s
      | Raises e s => Raises e s
      | Exits c s => Exits c s
      | OutOfFuel => OutOfFuel
      end.

(** [upsert_mode]. *)
Definition upsert_mode (fuel : nat) (srv : servers) (schema table : string)
  (pk_cols upd_cols : list string) (batch_size : Z)
  (where_clause : option string) (s : session) : outcome V (option Z) :=
  if negb (truthy_list pk_cols) then Exits 1 s
  else
    let non_pk_upd := non_key pk_cols upd_cols in
    let insert_cols := pk_cols ++ non_pk_upd in
    if negb (truthy_list insert_cols) then Returns None s
    else
      let s :=
        sql_execute srv
          (source_select schema table insert_cols pk_cols where_clause) s in
      match
        batch_loop fuel (λ rows, rows) (upsert_sql table pk_cols non_pk_upd)
          batch_size 0 s
      with
      | Returns total s => Returns (Some total) s
      | Raises e s => Raises e s
      | Exits c s => Exits c s
      | OutOfFuel => OutOfFuel
      end.

(** ** The wizard

    [main] is modelled from the point where both connections are open.
    The answers typed at the prompts are collected in a record; [ask]
    has already stripped them. *)
Record answers := {
  mode : string;
  sql_db : string;
  schema : string;
  mysql_db : string;
  mysql_table : string;
  src_table_typed : string;
  (** [None] is the empty line; otherwise the non-empty entries of the
      comma-separated list. *)
  columns_typed : option (list string);
  where_typed : string;
  continue_confirmed : bool
}.

Definition fetch_tables_sqlserver (srv : servers) (schema : string)
  (s : session) : list string * session :=
  (sql_tables srv schema,
   {| pending := []; calls := calls s ++ [SqlExecute tables_query [schema]] |}).

Definition fetch_columns_sqlserver (srv : servers) (schema table : string)
  (s : session) : list ColumnInfo * session :=
  (map (λ c, {| col_name := name c; col_type := type c;
                col_nullable := nullable c;
                col_is_identity := is_identity c |})
     (sql_columns srv schema table),
   {| pending := [];
      calls := calls s ++ [SqlExecute columns_query [schema; table]] |}).

Definition fetch_primary_key_sqlserver (srv : servers) (schema table : string)
  (s : session) : list string * session :=
  (sql_primary_key srv schema table,
   {| pending := [];
      calls := calls s
               ++ [SqlExecute Migrar.primary_key_query [schema; table]] |}).

Definition fetch_mysql_pk_columns (srv : servers) (db table : string)
  (s : session) : list string * session :=
  (mysql_primary_key srv db table,
   mysql_execute mysql_pk_query [db; table] s).

(** [choose_columns_interactive]; [None] is [sys.exit(1)]. *)
Definition choose_columns_interactive (all_cols : list string)
  (typed : option (list string)) : option (list string) :=
  match typed with
  | None => Some all_cols
  | Some chosen =>
      let missing := filter (λ c, c ∉ all_cols) chosen in
      if truthy_list missing then None else Some chosen
  end.

Definition safe_columns (meta : list ColumnInfo) : list string :=
  map col_name
    (filter (λ c, col_is_identity c = false
                  ∧ col_type c ∉ ["timestamp"; "rowversion"]) meta).

Definition or_none (s : string) : option string :=
  if truthy_str s then Some s else None.

(** [ask("Tabla origen (SQL Server)", default)]: the typed name, or the
    MySQL table name when nothing is typed and the source has that table. *)
Definition source_table (a : answers) (tables : list string) : string :=
  if truthy_str (src_table_typed a) then src_table_typed a
  else if bool_decide (mysql_table a ∈ tables) then mysql_table a
       else "".

Definition main (fuel : nat) (srv : servers) (a : answers) (s : session)
  : outcome V unit :=
  let '(tables, s) := fetch_tables_sqlserver srv (schema a) s in
  if negb (truthy_list tables) then Exits 0 s
  else
    let src_table := source_table a tables in
    if negb (truthy_str src_table) || negb (bool_decide (src_table ∈ tables))
    then Exits 1 s
    else
      let '(meta, s) := fetch_columns_sqlserver srv (schema a) src_table s in
      let '(pk_sql, s) :=
        fetch_primary_key_sqlserver srv (schema a) src_table s in
      let safe_cols := safe_columns meta in
      match choose_columns_interactive safe_cols (columns_typed a) with
      | None => Exits 1 s
      | Some upd_cols =>
          let where_clause := where_typed a in
          let '(pk_mysql, s) :=
            fetch_mysql_pk_columns srv (mysql_db a) (mysql_table a) s in
          if String.prefix "UPSERT" (mode a) && negb (truthy_list pk_mysql)
          then Exits 1 s
          else if negb (continue_confirmed a) then Exits 0 s
          else
            let finish (r : outcome V (option Z)) : outcome V unit :=
              match r with
              | Returns _ s => Returns tt s
              | Raises e s => Returns tt (log MyRollback s)
              | Exits c s => Exits c s
              | OutOfFuel => OutOfFuel
              end in
            if String.prefix "UPDATE" (mode a) then
              if negb (truthy_list pk_sql) then Exits 1 s
              else
                finish (update_only fuel srv (schema a) src_table pk_sql
                          upd_cols 10000 (or_none where_clause) s)
            else
              if negb (truthy_list pk_mysql) then Exits 1 s
              else
                let pk_for_upsert :=
                  if truthy_list pk_sql then pk_sql else pk_mysql in
                let need_cols := fromkeys [] (pk_for_upsert ++ upd_cols) in
                finish (upsert_mode fuel srv (schema a) src_table
                          pk_for_upsert need_cols 10000
                          (or_none where_clause) s)
      end.

End Reconcile.

(** The store: the objects, each at its index. *)
Abbreviation store := (list object).

End Actualizar.

(* ================================================================== *)
(** * The statements of the design document, in its own words

    These definitions restate sentences of the design document; they are
    compared with the embedding above and never used by it. *)
(* ================================================================== *)

Module Spec.
Import Py Db.

(** [needle] occurs in [s]. *)
Definition contains (needle s : string) : bool :=
  match String.index 0 needle s with
  | Some _ => true
  | None => false
  end.

(** "fetch = key columns ∪ user-selected non-key columns". *)
Definition fetch_is_union (fetch pk selected : list string) : Prop :=
  ∀ x, x ∈ fetch ↔ x ∈ pk ∨ (x ∈ selected ∧ x ∉ pk).

(** The character and binary types of SQL Server, as the mapping table
    names them. *)
Definition character_binary_types : list string :=
  ["varchar"; "nvarchar"; "char"; "nchar"; "text"; "ntext";
   "binary"; "varbinary"; "image"].

(** "target precision = source precision when present and 18 otherwise". *)
Definition precision_when_present (col : Column) : Z :=
  match num_prec col with
  | Some p => p
  | None => 18
  end.

(** "target scale = source scale when present and 0 otherwise". *)
Definition scale_when_present (col : Column) : Z :=
  match num_scale col with
  | Some s => s
  | None => 0
  end.

(** "target length = source declared length if > 0, else 255". *)
Definition length_or_255 (col : Column) : Z :=
  match char_len col with
  | Some n => if 0 <? n then n else 255
  | None => 255
  end.

(** A string literal of the source dialect: quoted text, possibly with
    the [N] prefix of national strings. *)
Definition is_string_literal (d : string) : bool :=
  match lstrip_chars "N" d with
  | String "'" r =>
      match String.rev r with
      | String "'" _ => true
      | _ => false
      end
  | _ => false
  end.

(** "the raw expression with outer parentheses and quotes removed and with
    every leading N character stripped". *)
Definition stripped_expression (raw : string) : string :=
  strip_chars "'" (lstrip_chars "N" (strip_chars "()" raw)).

Section Batches.
Context {V : Type}.

(** The successive batches of a result set: up to [b] rows each, none
    empty. [fuel] bounds the number of batches. *)
Fixpoint split_batches (fuel b : nat) (l : list (@row V))
  : list (list (@row V)) :=
  match fuel with
  | O => []
  | S fuel' =>
      match l with
      | [] => []
      | _ :: _ => take b l :: split_batches fuel' b (drop b l)
      end
  end.

Definition batches (b : Z) (l : list (@row V)) : list (list (@row V)) :=
  split_batches (length l) (Z.to_nat b) l.

(** The calls of a transfer that handles the batches [bs] one by one: a
    fetch, one multi-row write and one commit per batch, and a last fetch
    that returns no row. *)
Definition loop_calls (prepare : list (@row V) → list (@row V))
  (sql : string) (b : Z) (bs : list (list (@row V))) : list (call V) :=
  flat_map (λ c, [SqlFetchMany b c; MyExecuteMany sql (prepare c); MyCommit])
    bs
  ++ [SqlFetchMany b []].

(** The SELECT that [copy_table] sends for a table and a selection. *)
Definition copy_select (srv : servers V) (schema table : string)
  (only_cols : option (list string)) : string :=
  let kept := Migrar.selected_columns (sql_columns srv schema table)
                (sql_primary_key srv schema table) only_cols in
  Migrar.select_sql schema table (map name kept.1) kept.2.

(** The calls of one complete copy of a table by [copy_table]: the two
    catalog reads, the creation of the table and its commit, the SELECT,
    and the transfer of its rows in batches of [b]. *)
Definition copy_calls (srv : servers V) (schema table : string) (b : Z)
  (only_cols : option (list string)) : list (call V) :=
  let kept := Migrar.selected_columns (sql_columns srv schema table)
                (sql_primary_key srv schema table) only_cols in
  let sel := Migrar.select_sql schema table (map name kept.1) kept.2 in
  [SqlExecute Migrar.columns_query [schema; table];
   SqlExecute Migrar.primary_key_query [schema; table];
   MyExecute (match Migrar.build_create_table_mysql table kept.1 kept.2 with
              | Ok create_sql => create_sql
              | Raise _ => ""
              end) [];
   MyCommit;
   SqlExecute sel []]
  ++ loop_calls (λ fetched, fetched)
       (Migrar.insert_sql table (map name kept.1)) b
       (batches b (select srv sel)).

(** The rows handed to [executemany] by the calls [cs], in order. *)
Definition written (cs : list (call V)) : list (@row V) :=
  flat_map (λ c, match c with
                 | MyExecuteMany _ bound => bound
                 | _ => []
                 end) cs.

(** Every [executemany] of [cs] is directly followed by a [commit]. *)
Fixpoint writes_committed (cs : list (call V)) : Prop :=
  match cs with
  | [] => True
  | MyExecuteMany _ _ :: rest =>
      match rest with
      | MyCommit :: _ => writes_committed rest
      | _ => False
      end
  | _ :: rest => writes_committed rest
  end.

End Batches.

(** The sizes of the successive batches of [n] rows. *)
Fixpoint batch_sizes (fuel b n : nat) : list nat :=
  match fuel with
  | O => []
  | S fuel' =>
      match n with
      | O => []
      | S _ => (b `min` n)%nat :: batch_sizes fuel' b (n - b)%nat
      end
  end.

(** [k] copies of the character [c] in front of [rest]. *)
Fixpoint leading (c : ascii) (k : nat) (rest : string) : string :=
  match k with
  | O => rest
  | S k' => String c (leading c k' rest)
  end.

Definition starts_with (c : ascii) (s : string) : bool :=
  match s with
  | String c' _ => Ascii.eqb c' c
  | EmptyString => false
  end.

(** The number of occurrences of a character in a string. *)
Fixpoint count_char (c : ascii) (s : string) : nat :=
  match s with
  | EmptyString => O
  | String d r => ((if Ascii.eqb d c then 1 else 0) + count_char c r)%nat
  end.

(** Every character of the string satisfies [p]. *)
Fixpoint all_of (p : ascii → bool) (s : string) : bool :=
  match s with
  | EmptyString => true
  | String c r => p c && all_of p r
  end.

(** The first character, if any, does not satisfy [p]. *)
Definition head_kept (p : ascii → bool) (s : string) : bool :=
  match s with
  | EmptyString => true
  | String c _ => negb (p c)
  end.

(** The last character of a string, if any. *)
Definition last_char (s : string) : option ascii :=
  match String.rev s with
  | String c _ => Some c
  | EmptyString => None
  end.

(** The text of a column definition before any default. *)
Definition column_head (col : Column) (ty : string) : string :=
  "`" +:+ name col +:+ "` " +:+ ty
  +:+ (if is_identity col then " AUTO_INCREMENT" else "")
  +:+ (if negb (nullable col) || is_identity col then " NOT NULL" else " NULL").

(** No call has reached the MySQL side. *)
Definition target_untouched {V} (s : session V) : Prop :=
  filter (λ c, is_mysql_call c = true) (calls s) = [].

End Spec.

(* ================================================================== *)
(** * Concrete tables and sessions used as test inputs *)
(* ================================================================== *)

Module Examples.
Import Py Db.

Definition column (n t : string) (len prec scale : option Z)
  (dflt : option string) : Column :=
  {| name := n; type := t; char_len := len; num_prec := prec;
     num_scale := scale; nullable := true; is_identity := false;
     default := dflt |}.

(** The [orders] table of the design document. *)
Definition orders_id : Column := column "id" "int" None (Some 10) (Some 0) None.
Definition orders_status : Column :=
  column "status" "varchar" (Some 20) None None None.
Definition orders_total : Column :=
  column "total" "decimal" None (Some 10) (Some 2) None.

(** A [text] column: the catalog reports 2,147,483,647 as its length. *)
Definition notes_text : Column :=
  column "notes" "text" (Some 2147483647) None None None.

(** A type name that the mapping table does not have. *)
Definition geography_column : Column :=
  column "shape" "geography" None None None None.

(** A default that calls a function of the source dialect. *)
Definition created_by : Column :=
  column "created_by" "varchar" (Some 50) None None (Some "(user_name())").

(** A string default that holds a backslash. *)
Definition export_path : Column :=
  column "export_path" "varchar" (Some 100) None None (Some "('C:\tmp')").

(** An unquoted default that starts with [N]. *)
Definition null_default : Column :=
  column "note" "varchar" (Some 10) None None (Some "(NULL)").

(** The two servers of the [orders] scenario: [pk] is the primary key the
    source catalog reports and [result] the answer to every [SELECT]. *)
Definition orders_servers (pk : list string) (result : list (@row Z))
  : servers Z :=
  {| sql_columns := λ _ _, [orders_id; orders_status; orders_total];
     sql_primary_key := λ _ _, pk;
     sql_tables := λ _, ["orders"];
     select := λ _, result;
     mysql_primary_key := λ _ _, ["id"] |}.

Definition three_rows : list (@row Z) := [[1; 10; 100]; [2; 20; 200]; [3; 30; 300]].

(** The answers of an operator who asks for the UPDATE mode on [orders],
    selects [status] and confirms. *)
Definition update_answers : Actualizar.answers :=
  {| Actualizar.mode := "UPDATE (solo actualiza existentes)";
     Actualizar.sql_db := "shop";
     Actualizar.schema := "dbo";
     Actualizar.mysql_db := "shop_copy";
     Actualizar.mysql_table := "orders";
     Actualizar.src_table_typed := "";
     Actualizar.columns_typed := Some ["status"];
     Actualizar.where_typed := "";
     Actualizar.continue_confirmed := true |}.

(** The same operator asking for the UPSERT mode. *)
Definition upsert_answers : Actualizar.answers :=
  {| Actualizar.mode := "UPSERT (inserta o actualiza)";
     Actualizar.sql_db := "shop";
     Actualizar.schema := "dbo";
     Actualizar.mysql_db := "shop_copy";
     Actualizar.mysql_table := "orders";
     Actualizar.src_table_typed := "";
     Actualizar.columns_typed := Some ["status"; "total"; "status"];
     Actualizar.where_typed := "total > 0";
     Actualizar.continue_confirmed := true |}.

(** An operator who asks for the whole database and confirms or not. *)
Definition whole_database (confirmed : bool) : Migrar.answers :=
  {| Migrar.migra_db_completa := true;
     Migrar.answered_schema := "dbo";
     Migrar.mysql_db := "shop_copy";
     Migrar.confirm_all := confirmed;
     Migrar.choice := "";
     Migrar.tables_typed := [];
     Migrar.col_choice := "";
     Migrar.columns_typed := None;
     Migrar.risky_confirmed := false |}.

(** A column that is NOT NULL and has no default. *)
Definition customer_id : Column :=
  {| name := "customer_id"; type := "int"; char_len := None;
     num_prec := Some 10; num_scale := Some 0; nullable := false;
     is_identity := false; default := None |}.

(** A result set of 25,000 rows and an empty log. *)
Definition rows_25000 : list (@row Z) :=
  map (λ i, [Z.of_nat i; 0]) (seq 1 (Z.to_nat 25000)).

Definition fresh_cursor (rows : list (@row Z)) : session Z :=
  {| pending := rows; calls := [] |}.

End Examples.

(* ================================================================== *)
(** * Type mapping *)
(* ================================================================== *)

Section TypeMapping.
Import Py Db Migrar.

Lemma TYPE_MAP_keys_NoDup : NoDup (TYPE_MAP_items.*1).
Proof. apply (bool_decide_unpack _). vm_compute. exact I. Qed.

(** The dictionary holds exactly the listed pairs. *)
Lemma TYPE_MAP_lookup (t m : string) :
  TYPE_MAP !! t = Some m ↔ (t, m) ∈ TYPE_MAP_items.
Proof.
  unfold TYPE_MAP. symmetry. apply elem_of_list_to_map, TYPE_MAP_keys_NoDup.
Qed.

Lemma TYPE_MAP_lookup_None (t : string) :
  TYPE_MAP !! t = None ↔ t ∉ TYPE_MAP_items.*1.
Proof. unfold TYPE_MAP. symmetry. apply not_elem_of_list_to_map. Qed.

Lemma str_in_spec (x : string) (l : list string) :
  str_in x l = true ↔ x ∈ l.
Proof. unfold str_in. apply bool_decide_eq_true. Qed.

Lemma str_in_false (x : string) (l : list string) :
  str_in x l = false ↔ x ∉ l.
Proof. unfold str_in. apply bool_decide_eq_false. Qed.

(** The guard [col["char_len"] and col["char_len"] > 0] never compares
    [None] with a number. *)
Lemma length_guard_ok (v : option Z) :
  (if truthy_int v then gt0 v else Ok false)
  = Ok (match v with Some n => 0 <? n | None => false end).
Proof.
  destruct v as [n|]; simpl; [|reflexivity].
  destruct (Z.eqb_spec n 0) as [->|]; reflexivity.
Qed.

(** The type expression in terms of the looked-up name. *)
Lemma sqlserver_to_mysql_type_eq (col : Column) :
  sqlserver_to_mysql_type col =
  let mapped := dict_get TYPE_MAP (type col) "TEXT" in
  if str_in mapped sized_types then
    Ok (mapped +:+ "(" +:+ str_of_int (Spec.length_or_255 col) +:+ ")")
  else if String.eqb mapped "DECIMAL" then
    Ok ("DECIMAL(" +:+ str_of_int (int_or (num_prec col) 18) +:+ ","
        +:+ str_of_int (int_or (num_scale col) 0) +:+ ")")
  else Ok mapped.
Proof.
  unfold sqlserver_to_mysql_type, Spec.length_or_255. cbv zeta.
  destruct (str_in _ sized_types); [|reflexivity].
  rewrite length_guard_ok. simpl.
  destruct (char_len col) as [n|]; [|reflexivity].
  destruct (0 <? n); reflexivity.
Qed.

Lemma sqlserver_to_mysql_type_ok (col : Column) :
  ∃ ty, sqlserver_to_mysql_type col = Ok ty.
Proof.
  rewrite sqlserver_to_mysql_type_eq. cbv zeta.
  destruct (str_in _ _); [eauto|]. destruct (String.eqb _ _); eauto.
Qed.

(** C2. The type mapping is a total function of the column descriptor that
    never raises. For a type name of the mapping table it returns the
    table's MySQL type: with a length in parentheses for [VARCHAR], [CHAR],
    [VARBINARY] and [BINARY], with precision and scale for [DECIMAL], and
    as it stands in the table otherwise. For a type name that is not in
    the table it returns [TEXT]. The result depends only on the type name,
    the length, the precision and the scale. *)
Theorem sqlserver_to_mysql_type_total (col : Column) :
  (∃ ty, sqlserver_to_mysql_type col = Ok ty)
  ∧ (∀ m, (type col, m) ∈ TYPE_MAP_items →
       ∃ ty, sqlserver_to_mysql_type col = Ok ty
             ∧ ((m ∈ sized_types
                 ∧ ∃ n, ty = m +:+ "(" +:+ str_of_int n +:+ ")")
                ∨ (m = "DECIMAL"
                   ∧ ∃ p s, ty = "DECIMAL(" +:+ str_of_int p +:+ ","
                                 +:+ str_of_int s +:+ ")")
                ∨ ((m ∉ sized_types) ∧ m ≠ "DECIMAL" ∧ ty = m)))
  ∧ (type col ∉ TYPE_MAP_items.*1 → sqlserver_to_mysql_type col = Ok "TEXT")
  ∧ (∀ col', type col' = type col → char_len col' = char_len col →
       num_prec col' = num_prec col → num_scale col' = num_scale col →
       sqlserver_to_mysql_type col' = sqlserver_to_mysql_type col).
Proof.
  split; [apply sqlserver_to_mysql_type_ok|]. split; [|split].
  - intros m Hm. apply TYPE_MAP_lookup in Hm.
    rewrite sqlserver_to_mysql_type_eq. unfold dict_get. rewrite Hm. cbv zeta.
    destruct (str_in m sized_types) eqn:Hs.
    + eexists; split; [reflexivity|]. left. split; [apply str_in_spec, Hs|eauto].
    + apply str_in_false in Hs. destruct (String.eqb_spec m "DECIMAL") as [->|Hd].
      * eexists; split; [reflexivity|]. right; left. eauto.
      * eexists; split; [reflexivity|]. right; right. auto.
  - intros Hn. apply TYPE_MAP_lookup_None in Hn.
    rewrite sqlserver_to_mysql_type_eq. unfold dict_get. rewrite Hn.
    reflexivity.
  - intros col' Ht Hl Hp Hs. rewrite !sqlserver_to_mysql_type_eq.
    unfold Spec.length_or_255. rewrite Ht, Hl, Hp, Hs. reflexivity.
Qed.

Lemma sqlserver_to_mysql_type_total_witness :
  (∃ ty, sqlserver_to_mysql_type Examples.orders_status = Ok ty
         ∧ ∃ n, ty = "VARCHAR(" +:+ str_of_int n +:+ ")")
  ∧ sqlserver_to_mysql_type Examples.geography_column = Ok "TEXT"
  ∧ sqlserver_to_mysql_type Examples.orders_id
    = sqlserver_to_mysql_type Examples.orders_id.
Proof.
  split; [|split].
  - destruct (sqlserver_to_mysql_type_total Examples.orders_status)
      as (_ & H & _ & _).
    destruct (H "VARCHAR") as (ty & Hty & [[_ Hn]|[[Hd _]|(Hs & _)]]).
    + apply (bool_decide_unpack _). vm_compute. exact I.
    + exists ty. split; [exact Hty|exact Hn].
    + discriminate Hd.
    + exfalso. apply Hs. apply (bool_decide_unpack _). vm_compute. exact I.
  - destruct (sqlserver_to_mysql_type_total Examples.geography_column)
      as (_ & _ & H & _).
    apply H. apply (bool_decide_unpack _). vm_compute. exact I.
  - destruct (sqlserver_to_mysql_type_total Examples.orders_id)
      as (_ & _ & _ & H).
    apply (H Examples.orders_id); reflexivity.
Defined.

Lemma int_or_scale (col : Column) :
  int_or (num_scale col) 0 = Spec.scale_when_present col.
Proof.
  unfold int_or, Spec.scale_when_present.
  destruct (num_scale col) as [z|]; [|reflexivity].
  destruct (Z.eqb_spec z 0); congruence.
Qed.

(** C9, as the design document states it, fails for a [text] column: it
    is a character type with a declared length greater than 0, and its
    target type [LONGTEXT] carries no length at all. *)
Lemma text_length_counterexample :
  type Examples.notes_text ∈ Spec.character_binary_types
  ∧ char_len Examples.notes_text = Some 2147483647
  ∧ Spec.length_or_255 Examples.notes_text = 2147483647
  ∧ sqlserver_to_mysql_type Examples.notes_text = Ok "LONGTEXT"
  ∧ ∀ m, sqlserver_to_mysql_type Examples.notes_text
         ≠ Ok (m +:+ "("
               +:+ str_of_int (Spec.length_or_255 Examples.notes_text)
               +:+ ")").
Proof.
  split; [apply (bool_decide_unpack _); vm_compute; exact I|].
  split; [reflexivity|]. split; [reflexivity|].
  assert (Hty : sqlserver_to_mysql_type Examples.notes_text = Ok "LONGTEXT")
    by (vm_compute; reflexivity).
  split; [exact Hty|].
  assert (Hlen : str_of_int (Spec.length_or_255 Examples.notes_text)
                 = "2147483647") by (vm_compute; reflexivity).
  intros m H. rewrite Hty, Hlen in H. injection H as H.
  do 8 (destruct m as [|? m]; [discriminate H|injection H as _ H]).
  destruct m; discriminate H.
Qed.

(** C9 (amended). For a column of type [varchar], [nvarchar], [char],
    [nchar], [binary] or [varbinary], the length of the target type is the
    declared length when it is greater than 0 and 255 otherwise (absent, 0
    or the -1 of the max types). A [text], [ntext] or [image] column gets
    [LONGTEXT] or [LONGBLOB], without a length. For a [decimal] or
    [numeric] column whose precision is not reported as 0 (the catalog
    reports 1 to 38) the target precision is the source precision when
    present and 18 otherwise, and the target scale is the source scale
    when present and 0 otherwise. *)
Theorem sqlserver_to_mysql_type_sizing (col : Column) :
  (type col ∈ ["varchar"; "nvarchar"; "char"; "nchar"; "binary"; "varbinary"] →
     ∃ m, TYPE_MAP !! type col = Some m
          ∧ sqlserver_to_mysql_type col
            = Ok (m +:+ "(" +:+ str_of_int (Spec.length_or_255 col) +:+ ")"))
  ∧ (type col ∈ ["text"; "ntext"] →
     sqlserver_to_mysql_type col = Ok "LONGTEXT")
  ∧ (type col = "image" → sqlserver_to_mysql_type col = Ok "LONGBLOB")
  ∧ (type col ∈ ["decimal"; "numeric"] → num_prec col ≠ Some 0 →
     sqlserver_to_mysql_type col
     = Ok ("DECIMAL("
           +:+ str_of_int (Spec.precision_when_present col)
           +:+ "," +:+ str_of_int (Spec.scale_when_present col) +:+ ")")).
Proof.
  assert (Hprec : num_prec col ≠ Some 0 →
                  int_or (num_prec col) 18 = Spec.precision_when_present col).
  { unfold int_or, Spec.precision_when_present.
    destruct (num_prec col) as [p|]; [|reflexivity].
    destruct (Z.eqb_spec p 0) as [->|]; congruence. }
  repeat split; intros Ht; rewrite sqlserver_to_mysql_type_eq, ?int_or_scale;
    unfold dict_get; cbv zeta.
  - repeat (apply elem_of_cons in Ht as [->|Ht]);
      try (eexists; split; reflexivity).
    by apply elem_of_nil in Ht.
  - repeat (apply elem_of_cons in Ht as [->|Ht]); try reflexivity.
    by apply elem_of_nil in Ht.
  - rewrite Ht. reflexivity.
  - intros Hp. rewrite (Hprec Hp).
    repeat (apply elem_of_cons in Ht as [->|Ht]); try reflexivity.
    by apply elem_of_nil in Ht.
Qed.

Lemma sqlserver_to_mysql_type_sizing_witness :
  sqlserver_to_mysql_type Examples.orders_status = Ok "VARCHAR(20)"
  ∧ sqlserver_to_mysql_type Examples.orders_total = Ok "DECIMAL(10,2)".
Proof.
  split.
  - destruct (sqlserver_to_mysql_type_sizing Examples.orders_status)
      as [H _].
    destruct H as (m & Hm & ->).
    + apply (bool_decide_unpack _). vm_compute. exact I.
    + vm_compute in Hm. injection Hm as <-. reflexivity.
  - destruct (sqlserver_to_mysql_type_sizing Examples.orders_total)
      as (_ & _ & _ & H).
    rewrite H; [reflexivity| |discriminate].
    apply (bool_decide_unpack _). vm_compute. exact I.
Defined.

End TypeMapping.

(* ================================================================== *)
(** * The batch transfer loop *)
(* ================================================================== *)

Section BatchLoop.
Import Py Db.
Context {V : Type}.
Implicit Types (l : list (@row V)) (s : session V).

Lemma split_batches_enough (f1 f2 b : nat) l :
  (0 < b)%nat → (length l ≤ f1)%nat → (length l ≤ f2)%nat →
  Spec.split_batches f1 b l = Spec.split_batches f2 b l.
Proof.
  intros Hb. revert f2 l.
  induction f1 as [|f1 IH]; intros [|f2] [|r l] H1 H2; simpl in *;
    try reflexivity; try lia.
  f_equal. apply IH; rewrite length_drop; simpl; lia.
Qed.

Lemma split_batches_concat (f b : nat) l :
  (0 < b)%nat → (length l ≤ f)%nat → concat (Spec.split_batches f b l) = l.
Proof.
  intros Hb. revert l.
  induction f as [|f IH]; intros [|r l] Hl; simpl in *;
    try reflexivity; try lia.
  rewrite IH by (rewrite length_drop; simpl; lia).
  apply (take_drop b (r :: l)).
Qed.

Lemma batches_concat (b : Z) (l : list (@row V)) :
  0 < b → concat (Spec.batches b l) = l.
Proof. intros Hb. apply split_batches_concat; lia. Qed.

Lemma split_batches_bounds (f b : nat) l :
  (0 < b)%nat →
  Forall (λ c, (0 < length c ≤ b)%nat) (Spec.split_batches f b l).
Proof.
  intros Hb. revert l.
  induction f as [|f IH]; intros [|r l]; simpl; try constructor.
  - rewrite length_take. simpl. lia.
  - apply IH.
Qed.

Lemma split_batches_sizes (f b : nat) l :
  map length (Spec.split_batches f b l) = Spec.batch_sizes f b (length l).
Proof.
  revert l. induction f as [|f IH]; intros [|r l]; simpl; try reflexivity.
  rewrite IH, length_take, length_drop. reflexivity.
Qed.

(** With a positive batch size and enough fuel the loop ends, and its
    effect is fixed by the batches of the pending rows. *)
Lemma batch_loop_returns (fuel : nat) (prepare : list (@row V) → list (@row V))
  (sql : string) (b total : Z) s :
  0 < b →
  (∀ rows, length (prepare rows) = length rows) →
  (length (pending s) < fuel)%nat →
  batch_loop fuel prepare sql b total s
  = Returns (total + Z.of_nat (length (pending s)))
      {| pending := [];
         calls := calls s
                  ++ Spec.loop_calls prepare sql b (Spec.batches b (pending s)) |}.
Proof.
  intros Hb Hprep. revert total s.
  induction fuel as [|fuel IH]; intros total [pend cs] Hfuel; simpl in *;
    [lia|].
  destruct (Z.to_nat b) as [|k] eqn:Hk; [lia|].
  destruct pend as [|r l]; simpl.
  - rewrite Z.add_0_r. reflexivity.
  - simpl in Hfuel. rewrite IH by (simpl; rewrite length_drop; lia). simpl.
    rewrite Hprep. simpl. rewrite length_take, length_drop.
    f_equal; [lia|].
    f_equal. unfold Spec.loop_calls, Spec.batches. simpl.
    rewrite Hk. simpl. rewrite <- !app_assoc. simpl.
    do 4 f_equal.
    rewrite (split_batches_enough (length (drop k l)) (length l));
      rewrite ?length_drop; reflexivity || lia.
Qed.

(** C1. A run of the transfer loop with a positive batch size [b] over a
    cursor that holds [n] rows ends (with any fuel above [n]). Every fetch
    asks for [b] rows and gets at most [b]; the rows are handled in
    successive non-empty batches, each written by one [executemany]
    followed by one [commit]; the loop stops at the first fetch that
    returns no row, which is its last call; the total reported is [n].
    With 25,000 rows and a batch size of 10,000 there are three batches, of
    10,000, 10,000 and 5,000 rows. The loops of [copy_table] and
    [upsert_mode] are this loop with [prepare] the identity. *)
Theorem batch_loop_transfers (fuel : nat)
  (prepare : list (@row V) → list (@row V)) (sql : string) (b : Z) s :
  0 < b →
  (∀ rows, length (prepare rows) = length rows) →
  (length (pending s) < fuel)%nat →
  ∃ bs : list (list (@row V)),
    batch_loop fuel prepare sql b 0 s
    = Returns (Z.of_nat (length (pending s)))
        {| pending := [];
           calls := calls s ++ Spec.loop_calls prepare sql b bs |}
    ∧ concat bs = pending s
    ∧ Forall (λ c, (0 < length c)%nat ∧ Z.of_nat (length c) ≤ b) bs
    ∧ (b = 10000 → Z.of_nat (length (pending s)) = 25000 →
       map (λ c, Z.of_nat (length c)) bs = [10000; 10000; 5000]).
Proof.
  intros Hb Hprep Hfuel. exists (Spec.batches b (pending s)).
  split; [|split; [|split]].
  - rewrite batch_loop_returns by assumption. reflexivity.
  - apply split_batches_concat; lia.
  - eapply Forall_impl; [apply split_batches_bounds; lia|].
    intros c Hc. simpl in Hc. lia.
  - intros -> Hn.
    change (λ c : list row, Z.of_nat (length c)) with (Z.of_nat ∘ @length (@row V)).
    rewrite list_fmap_compose. unfold Spec.batches.
    change (@fmap list _ _ _ (@length (@row V))) with (@map _ _ (@length (@row V))).
    rewrite split_batches_sizes.
    replace (length (pending s)) with (Z.to_nat 25000) by lia.
    vm_compute. reflexivity.
Qed.

End BatchLoop.

Lemma batch_loop_transfers_witness :
  ∃ bs,
    Db.batch_loop (S (Z.to_nat 25000)) (λ rows, rows) "INSERT" 10000 0
      (Examples.fresh_cursor Examples.rows_25000)
    = Db.Returns 25000
        {| Db.pending := [];
           Db.calls := Spec.loop_calls (λ rows, rows) "INSERT" 10000 bs |}
    ∧ map (λ c, Z.of_nat (length c)) bs = [10000; 10000; 5000].
Proof.
  assert (Hn : length Examples.rows_25000 = Z.to_nat 25000).
  { unfold Examples.rows_25000. rewrite length_map, length_seq. reflexivity. }
  assert (Hz : Z.of_nat (Z.to_nat 25000) = 25000) by (vm_compute; reflexivity).
  destruct (batch_loop_transfers (S (Z.to_nat 25000)) (λ rows, rows) "INSERT"
              10000 (Examples.fresh_cursor Examples.rows_25000))
    as (bs & Hrun & _ & _ & Hsizes).
  - reflexivity.
  - intros rows. reflexivity.
  - change (length Examples.rows_25000 < S (Z.to_nat 25000))%nat.
    rewrite Hn. apply Nat.lt_succ_diag_r.
  - change (Db.pending (Examples.fresh_cursor Examples.rows_25000))
      with Examples.rows_25000 in *.
    change (Db.calls (Examples.fresh_cursor Examples.rows_25000))
      with (@nil (Db.call Z)) in *.
    rewrite Hn, Hz in *.
    exists bs. split; [exact Hrun|].
    apply Hsizes; reflexivity.
Defined.

(* ================================================================== *)
(** * Default values and the CREATE TABLE statement *)
(* ================================================================== *)

Section Ddl.
Import Py Db Migrar.

Lemma append_cons (x : ascii) (a b : string) :
  String x a +:+ b = String x (a +:+ b).
Proof. reflexivity. Qed.

Lemma append_assoc (a b c : string) : (a +:+ b) +:+ c = a +:+ (b +:+ c).
Proof.
  induction a as [|x a IH]; [reflexivity|].
  rewrite !append_cons. by rewrite IH.
Qed.

Lemma append_empty_r (a : string) : a +:+ "" = a.
Proof.
  induction a as [|x a IH]; [reflexivity|]. rewrite append_cons. by rewrite IH.
Qed.

(** A column definition is its head followed by the default part. *)
Lemma column_definition_eq (col : Column) (ty : string) :
  sqlserver_to_mysql_type col = Ok ty →
  column_definition col = Ok (Spec.column_head col ty +:+ default_part col).
Proof.
  intros Hty. unfold column_definition, Spec.column_head. rewrite Hty.
  unfold mbind, result_bind. cbv zeta.
  destruct (is_identity col), (nullable col); cbn [negb orb];
    repeat rewrite append_assoc; reflexivity.
Qed.

Lemma column_definition_ok (col : Column) :
  ∃ d, column_definition col = Ok d.
Proof.
  destruct (sqlserver_to_mysql_type_ok col) as [ty Hty].
  rewrite (column_definition_eq col ty Hty). eauto.
Qed.

Lemma mapM_column_definition_ok (columns : list Column) :
  ∃ parts, mapM column_definition columns = Ok parts
           ∧ Forall2 (λ col d, column_definition col = Ok d) columns parts.
Proof.
  induction columns as [|col columns (parts & IH & Hall)].
  - exists []. split; [reflexivity|constructor].
  - destruct (column_definition_ok col) as [d Hd].
    exists (d :: parts). split; [|by constructor].
    change (mapM column_definition (col :: columns))
      with (y ← column_definition col;
            k ← mapM column_definition columns; mret (y :: k)).
    rewrite Hd, IH. reflexivity.
Qed.

(** Building the statement never raises, and the statement lists the
    column definitions in order. *)
Lemma build_create_table_mysql_ok (table : string) (columns : list Column)
  (pk_cols : list string) :
  ∃ parts,
    Forall2 (λ col d, column_definition col = Ok d) columns parts
    ∧ build_create_table_mysql table columns pk_cols
      = Ok ("CREATE TABLE IF NOT EXISTS `" +:+ table +:+ "` (" +:+ newline
            +:+ "  "
            +:+ join ("," +:+ newline +:+ "  ")
                  (if truthy_list pk_cols then
                     parts ++ ["PRIMARY KEY (" +:+ quote_ident_list pk_cols
                               +:+ ")"]
                   else parts)
            +:+ newline +:+ ") ENGINE=InnoDB DEFAULT CHARSET=utf8mb4;").
Proof.
  destruct (mapM_column_definition_ok columns) as (parts & Hparts & Hall).
  exists parts. split; [exact Hall|].
  unfold build_create_table_mysql. rewrite Hparts. reflexivity.
Qed.

(** The clause written when the expression is none of the recognized
    spellings and is not a number. *)
Lemma default_clause_quoted (raw : string) :
  str_in (lower (default_text raw)) timestamp_spellings = false →
  str_in (lower (default_text raw)) newid_spellings = false →
  float_parses (default_text raw) = false →
  default_clause raw
  = " DEFAULT '" +:+ default_literal (default_text raw) +:+ "'".
Proof.
  intros Hts Hid Hfl. unfold default_clause, float. cbv zeta.
  rewrite Hts, Hid, Hfl. reflexivity.
Qed.

Lemma truthy_str_true (s : string) : s ≠ "" → truthy_str s = true.
Proof. destruct s; [congruence|reflexivity]. Qed.

(** C6, as the design document states it, fails: the default
    [(user_name())] is no timestamp or newid spelling, no number and no
    string literal, and the column definition carries a DEFAULT clause. *)
Lemma unrecognized_default_counterexample :
  let raw := "(user_name())" in
  default Examples.created_by = Some raw
  ∧ str_in (lower (default_text raw)) timestamp_spellings = false
  ∧ str_in (lower (default_text raw)) newid_spellings = false
  ∧ float_parses (default_text raw) = false
  ∧ Spec.is_string_literal (default_text raw) = false
  ∧ Spec.is_string_literal raw = false
  ∧ column_definition Examples.created_by
    = Ok "`created_by` VARCHAR(50) NULL DEFAULT 'user_name'"
  ∧ build_create_table_mysql "audit" [Examples.created_by] []
    = Ok ("CREATE TABLE IF NOT EXISTS `audit` (" +:+ newline
          +:+ "  `created_by` VARCHAR(50) NULL DEFAULT 'user_name'" +:+ newline
          +:+ ") ENGINE=InnoDB DEFAULT CHARSET=utf8mb4;")
  ∧ default_part Examples.created_by ≠ "".
Proof. vm_compute. repeat split; discriminate. Qed.

(** C6 (amended). A column whose default expression is non-empty and, once
    blanks and outer parentheses are removed, is neither one of the
    timestamp spellings nor one of the newid spellings nor a number, gets a
    DEFAULT clause: the quoted text made from the expression. The
    expression is not dropped. Building the statement never fails, and the
    column definition is part of it. *)
Theorem unrecognized_default_is_quoted (col : Column) (raw : string) :
  default col = Some raw →
  raw ≠ "" →
  str_in (lower (default_text raw)) timestamp_spellings = false →
  str_in (lower (default_text raw)) newid_spellings = false →
  float_parses (default_text raw) = false →
  default_part col
  = " DEFAULT '" +:+ default_literal (default_text raw) +:+ "'"
  ∧ (∃ ty, sqlserver_to_mysql_type col = Ok ty
           ∧ column_definition col
             = Ok (Spec.column_head col ty +:+ " DEFAULT '"
                   +:+ default_literal (default_text raw) +:+ "'"))
  ∧ (∀ table before after pk_cols,
       ∃ parts,
         Forall2 (λ c d, column_definition c = Ok d)
           (before ++ col :: after) parts
         ∧ build_create_table_mysql table (before ++ col :: after) pk_cols
           = Ok ("CREATE TABLE IF NOT EXISTS `" +:+ table +:+ "` ("
                 +:+ newline +:+ "  "
                 +:+ join ("," +:+ newline +:+ "  ")
                       (if truthy_list pk_cols then
                          parts ++ ["PRIMARY KEY ("
                                    +:+ quote_ident_list pk_cols +:+ ")"]
                        else parts)
                 +:+ newline +:+ ") ENGINE=InnoDB DEFAULT CHARSET=utf8mb4;")).
Proof.
  intros Hraw Hne Hts Hid Hfl.
  assert (Hpart : default_part col
                  = " DEFAULT '" +:+ default_literal (default_text raw) +:+ "'").
  { unfold default_part. rewrite Hraw, (truthy_str_true raw Hne).
    by apply default_clause_quoted. }
  split; [exact Hpart|]. split.
  - destruct (sqlserver_to_mysql_type_ok col) as [ty Hty]. exists ty.
    split; [exact Hty|].
    rewrite (column_definition_eq col ty Hty), Hpart. reflexivity.
  - intros table before after pk_cols. apply build_create_table_mysql_ok.
Qed.

Lemma unrecognized_default_is_quoted_witness :
  default_part Examples.created_by = " DEFAULT 'user_name'".
Proof.
  destruct (unrecognized_default_is_quoted Examples.created_by "(user_name())")
    as [H _].
  - reflexivity.
  - discriminate.
  - vm_compute. reflexivity.
  - vm_compute. reflexivity.
  - vm_compute. reflexivity.
  - rewrite H. vm_compute. reflexivity.
Defined.

Lemma lstrip_leading (k : nat) (rest : string) :
  Spec.starts_with "N" rest = false →
  lstrip_chars "N" (Spec.leading "N" k rest) = rest.
Proof.
  intros Hrest. induction k as [|k IH]; simpl.
  - destruct rest as [|c r]; [reflexivity|].
    unfold lstrip_chars. simpl in *. rewrite Hrest. reflexivity.
  - exact IH.
Qed.

(** C10, as stated, fails for a default that holds a backslash: the text
    between the quotes is not the expression with parentheses, quotes and
    leading [N] removed, since the backslash is doubled. *)
Lemma default_literal_counterexample :
  let raw := "('C:\tmp')" in
  default Examples.export_path = Some raw
  ∧ str_in (lower (default_text raw)) timestamp_spellings = false
  ∧ str_in (lower (default_text raw)) newid_spellings = false
  ∧ float_parses (default_text raw) = false
  ∧ Spec.stripped_expression raw = "C:\tmp"
  ∧ default_part Examples.export_path = " DEFAULT 'C:\\tmp'"
  ∧ default_part Examples.export_path
    ≠ " DEFAULT '" +:+ Spec.stripped_expression raw +:+ "'".
Proof. vm_compute. repeat split; discriminate. Qed.

(** C10 (amended). For a default expression that is no timestamp or newid
    spelling and no number, the text between the quotes of the DEFAULT
    clause is the expression with blanks and then parentheses removed from
    both ends, then every leading [N] removed, then the quotes removed from
    both ends, and finally every backslash doubled and every remaining
    quote preceded by a backslash. So a text that, once the parentheses are
    removed, starts with one or more [N] loses them: [(NULL)] gives
    ['ULL'] and [NONE] gives ['ONE']. *)
Theorem default_literal_strips_leading_N (raw : string) :
  str_in (lower (default_text raw)) timestamp_spellings = false →
  str_in (lower (default_text raw)) newid_spellings = false →
  float_parses (default_text raw) = false →
  default_clause raw
  = " DEFAULT '"
    +:+ replace_char "'" "\'"
          (replace_char "\" "\\"
             (strip_chars "'"
                (lstrip_chars "N" (strip_chars "()" (strip raw)))))
    +:+ "'"
  ∧ (∀ k rest,
       default_text raw = Spec.leading "N" k rest →
       Spec.starts_with "N" rest = false →
       default_clause raw
       = " DEFAULT '"
         +:+ replace_char "'" "\'"
               (replace_char "\" "\\" (strip_chars "'" rest))
         +:+ "'").
Proof.
  intros Hts Hid Hfl. split.
  - apply default_clause_quoted; assumption.
  - intros k rest Hd Hrest.
    rewrite default_clause_quoted by assumption.
    unfold default_literal. rewrite Hd, lstrip_leading by assumption.
    reflexivity.
Qed.

Lemma default_literal_strips_leading_N_witness :
  default_clause "(NULL)" = " DEFAULT 'ULL'"
  ∧ default_clause "NONE" = " DEFAULT 'ONE'".
Proof.
  split.
  - destruct (default_literal_strips_leading_N "(NULL)") as [_ H];
      [vm_compute; reflexivity..|].
    rewrite (H 1%nat "ULL"); [vm_compute; reflexivity..].
  - destruct (default_literal_strips_leading_N "NONE") as [_ H];
      [vm_compute; reflexivity..|].
    rewrite (H 1%nat "ONE"); [vm_compute; reflexivity..].
Defined.

End Ddl.

(* ================================================================== *)
(** * Reconciliation: UPDATE-only and UPSERT *)
(* ================================================================== *)

Section Strings.
Import Py.

Lemma length_append (a b : string) :
  String.length (a +:+ b) = (String.length a + String.length b)%nat.
Proof.
  induction a as [|x a IH]; [reflexivity|].
  rewrite append_cons. simpl. by rewrite IH.
Qed.

Lemma append_inj_r (a b t : string) : a +:+ t = b +:+ t → a = b.
Proof.
  revert b. induction a as [|x a IH]; intros [|y b] H.
  - reflexivity.
  - apply (f_equal String.length) in H.
    rewrite !length_append in H. simpl in H. lia.
  - apply (f_equal String.length) in H.
    rewrite !length_append in H. simpl in H. lia.
  - rewrite !append_cons in H. injection H as -> H. f_equal. by apply IH.
Qed.


End Strings.

Section ReconcileRuns.
Import Py Db Actualizar.
Context {V : Type}.
Implicit Types (s : session V) (srv : servers V).

Lemma truthy_list_true {A} (l : list A) : l ≠ [] → truthy_list l = true.
Proof. destruct l; [congruence|reflexivity]. Qed.

Lemma elem_of_non_key (pk_cols upd_cols : list string) (c : string) :
  c ∈ non_key pk_cols upd_cols ↔ c ∈ upd_cols ∧ c ∉ pk_cols.
Proof. unfold non_key. rewrite list_elem_of_filter. tauto. Qed.

(** The [for] loop of [update_only] leaves [rows] as fetched and fills
    [data] with the rebound rows, in order. *)
Lemma foldl_for_body (n : nat) (fetched : list (@row V)) (acc : @locals V) :
  foldl (for_body n) acc fetched
  = {| rows := rows acc; data := data acc ++ map (bind_row n) fetched |}.
Proof.
  revert acc. induction fetched as [|r fetched IH]; intros [rs ds]; simpl.
  - by rewrite app_nil_r.
  - rewrite IH. simpl. by rewrite <- app_assoc.
Qed.

Lemma reorder_data (n : nat) (fetched : list (@row V)) :
  data (reorder n fetched) = map (bind_row n) fetched.
Proof. unfold reorder. rewrite foldl_for_body. reflexivity. Qed.

Lemma loop_calls_ext (p1 p2 : list (@row V) → list (@row V)) (sql : string)
  (b : Z) (bs : list (list (@row V))) :
  (∀ c, p1 c = p2 c) →
  Spec.loop_calls p1 sql b bs = Spec.loop_calls p2 sql b bs.
Proof.
  intros Hext. unfold Spec.loop_calls. f_equal.
  induction bs as [|c bs IH]; simpl; [reflexivity|].
  by rewrite Hext, IH.
Qed.

(** Whatever the fuel, a loop that returns has only added fetches, writes
    with its own statement, and commits. *)
Lemma batch_loop_calls (fuel : nat) (prepare : list (@row V) → list (@row V))
  (sql : string) (b total total' : Z) s s' :
  batch_loop fuel prepare sql b total s = Returns total' s' →
  ∃ extra,
    calls s' = calls s ++ extra
    ∧ Forall (λ c, match c with
                   | SqlFetchMany _ _ | MyCommit => True
                   | MyExecuteMany q _ => q = sql
                   | _ => False
                   end) extra.
Proof.
  revert total s. induction fuel as [|fuel IH]; intros total s H; simpl in H;
    [discriminate|].
  destruct (truthy_list (take (Z.to_nat b) (pending s))); simpl in H.
  - apply IH in H as (extra & -> & Hall). simpl.
    eexists. rewrite <- !app_assoc. split; [reflexivity|].
    simpl. repeat constructor. exact Hall.
  - injection H as <- <-. simpl. eexists. split; [reflexivity|].
    repeat constructor.
Qed.

Lemma update_only_runs (fuel : nat) srv (schema table : string)
  (pk_cols upd_cols : list string) (b : Z) (w : option string) s :
  pk_cols ≠ [] → non_key pk_cols upd_cols ≠ [] → 0 < b →
  let sel := source_select schema table
               (pk_cols ++ non_key pk_cols upd_cols) pk_cols w in
  (length (select srv sel) < fuel)%nat →
  update_only fuel srv schema table pk_cols upd_cols b w s
  = Returns (Some (Z.of_nat (length (select srv sel))))
      {| pending := [];
         calls := calls s ++ [SqlExecute sel []]
                  ++ Spec.loop_calls (map (bind_row (length pk_cols)))
                       (upd_sql table pk_cols (non_key pk_cols upd_cols)) b
                       (Spec.batches b (select srv sel)) |}.
Proof.
  intros Hpk Hupd Hb sel Hfuel. unfold update_only.
  rewrite (truthy_list_true _ Hpk), (truthy_list_true _ Hupd). simpl.
  fold sel. rewrite batch_loop_returns; simpl; try assumption.
  - rewrite <- app_assoc.
    rewrite (loop_calls_ext _ (map (bind_row (length pk_cols))));
      [reflexivity|].
    intros c. apply reorder_data.
  - intros fetched. rewrite reorder_data. apply length_map.
Qed.

Lemma upsert_mode_runs (fuel : nat) srv (schema table : string)
  (pk_cols upd_cols : list string) (b : Z) (w : option string) s :
  pk_cols ≠ [] → 0 < b →
  let sel := source_select schema table
               (pk_cols ++ non_key pk_cols upd_cols) pk_cols w in
  (length (select srv sel) < fuel)%nat →
  upsert_mode fuel srv schema table pk_cols upd_cols b w s
  = Returns (Some (Z.of_nat (length (select srv sel))))
      {| pending := [];
         calls := calls s ++ [SqlExecute sel []]
                  ++ Spec.loop_calls (λ fetched, fetched)
                       (upsert_sql table pk_cols (non_key pk_cols upd_cols)) b
                       (Spec.batches b (select srv sel)) |}.
Proof.
  intros Hpk Hb sel Hfuel. unfold upsert_mode.
  rewrite (truthy_list_true _ Hpk). simpl.
  rewrite truthy_list_true by (destruct pk_cols; [congruence|discriminate]).
  simpl. fold sel. rewrite batch_loop_returns; simpl; try assumption.
  - rewrite <- app_assoc. reflexivity.
  - reflexivity.
Qed.

Lemma written_app (cs1 cs2 : list (call V)) :
  Spec.written (cs1 ++ cs2) = Spec.written cs1 ++ Spec.written cs2.
Proof. unfold Spec.written. apply flat_map_app. Qed.

Lemma written_loop_calls (prepare : list (@row V) → list (@row V))
  (sql : string) (b : Z) (bs : list (list (@row V))) :
  Spec.written (Spec.loop_calls prepare sql b bs) = concat (map prepare bs).
Proof.
  unfold Spec.loop_calls. rewrite written_app. simpl. rewrite app_nil_r.
  induction bs as [|c bs IH]; simpl; [reflexivity|]. by rewrite IH.
Qed.

Lemma concat_map_map {A B} (f : A → B) (ls : list (list A)) :
  concat (map (map f) ls) = map f (concat ls).
Proof.
  induction ls as [|l ls IH]; simpl; [reflexivity|].
  by rewrite IH, map_app.
Qed.

End ReconcileRuns.

Section UpdateOnly.
Import Py Db Actualizar.
Context {V : Type}.
Implicit Types (s : session V) (srv : servers V).

Lemma assignment_inj (c k : string) : assignment c = assignment k → c = k.
Proof.
  unfold assignment. intros H. apply String.app_inj in H.
  by apply append_inj_r in H.
Qed.

(** The writes of a call of [update_only] that returns all carry its
    UPDATE statement. *)
Lemma update_only_writes (fuel : nat) srv (schema table : string)
  (pk_cols upd_cols : list string) (b : Z) (w : option string) s r s' :
  update_only fuel srv schema table pk_cols upd_cols b w s = Returns r s' →
  ∀ sql rows, MyExecuteMany sql rows ∈ calls s' →
    MyExecuteMany sql rows ∈ calls s
    ∨ sql = upd_sql table pk_cols (non_key pk_cols upd_cols).
Proof.
  unfold update_only. intros H sql rows Hin.
  destruct (truthy_list pk_cols); simpl in H; [|discriminate].
  destruct (truthy_list (non_key pk_cols upd_cols)); simpl in H.
  - destruct (batch_loop _ _ _ _ _ _) as [t s1| | |] eqn:Hloop;
      try discriminate.
    injection H as <- <-.
    apply batch_loop_calls in Hloop as (extra & Hcalls & Hall).
    rewrite Hcalls in Hin. simpl in Hin.
    rewrite !elem_of_app in Hin. destruct Hin as [[Hin|Hin]|Hin].
    + by left.
    + apply list_elem_of_singleton in Hin. discriminate.
    + right. rewrite Forall_forall in Hall. exact (Hall _ Hin).
  - injection H as <- <-. by left.
Qed.

(** C3. The UPDATE statement of [update_only] is
    [UPDATE `table` SET ... WHERE ...] where the SET clause assigns exactly
    the selected columns that are not key columns, and the WHERE predicate
    tests exactly the key columns. No key column is assigned in the SET
    clause, whatever the selection. Every write of a call that returns
    carries this statement. *)
Theorem update_only_never_sets_key_columns (table : string)
  (pk_cols upd_cols : list string) :
  let set_cols := non_key pk_cols upd_cols in
  upd_sql table pk_cols set_cols
  = "UPDATE `" +:+ table +:+ "` SET " +:+ join ", " (map assignment set_cols)
    +:+ " WHERE " +:+ join " AND " (map assignment pk_cols)
  ∧ (∀ c, c ∈ set_cols ↔ c ∈ upd_cols ∧ c ∉ pk_cols)
  ∧ (∀ k, k ∈ pk_cols → assignment k ∉ map assignment set_cols)
  ∧ (∀ fuel srv schema b w s r s',
       update_only fuel srv schema table pk_cols upd_cols b w s
       = Returns r s' →
       ∀ sql rows, MyExecuteMany sql rows ∈ calls s' →
         MyExecuteMany sql rows ∈ calls s
         ∨ sql = upd_sql table pk_cols set_cols).
Proof.
  intros set_cols. split; [reflexivity|]. split; [|split].
  - intros c. apply elem_of_non_key.
  - intros k Hk Hin. apply list_elem_of_fmap in Hin as (c & Heq & Hc).
    apply assignment_inj in Heq as ->.
    apply elem_of_non_key in Hc as [_ Hc]. contradiction.
  - intros fuel srv schema b w s r s'. apply update_only_writes.
Qed.

End UpdateOnly.

Lemma update_only_never_sets_key_columns_witness :
  Actualizar.upd_sql "orders" ["id"] (Actualizar.non_key ["id"] ["id"; "status"])
  = "UPDATE `orders` SET `status`=%s WHERE `id`=%s"
  ∧ (Actualizar.assignment "id"
     ∉ map Actualizar.assignment (Actualizar.non_key ["id"] ["id"; "status"]))
  ∧ ∀ sql rows,
      Db.MyExecuteMany sql rows
      ∈ [Db.SqlExecute "SELECT [id], [status] FROM [dbo].[orders] ORDER BY [id];" [];
         Db.SqlFetchMany 2 [[1; 10]; [2; 20]];
         Db.MyExecuteMany "UPDATE `orders` SET `status`=%s WHERE `id`=%s"
           [[10; 1]; [20; 2]];
         Db.MyCommit;
         Db.SqlFetchMany 2 []] →
      sql = "UPDATE `orders` SET `status`=%s WHERE `id`=%s".
Proof.
  destruct (update_only_never_sets_key_columns (V := Z) "orders" ["id"]
              ["id"; "status"]) as (Hsql & _ & Hkey & Hrun).
  split; [|split].
  - rewrite Hsql. vm_compute. reflexivity.
  - apply Hkey. apply list_elem_of_here.
  - intros sql rows Hin.
    destruct (Hrun 5%nat (Examples.orders_servers ["id"] [[1; 10]; [2; 20]])
                "dbo" 2 None (Examples.fresh_cursor []) (Some 2)
                {| Db.pending := [];
                   Db.calls :=
                     [Db.SqlExecute
                        "SELECT [id], [status] FROM [dbo].[orders] ORDER BY [id];" [];
                      Db.SqlFetchMany 2 [[1; 10]; [2; 20]];
                      Db.MyExecuteMany
                        "UPDATE `orders` SET `status`=%s WHERE `id`=%s"
                        [[10; 1]; [20; 2]];
                      Db.MyCommit;
                      Db.SqlFetchMany 2 []] |}
                ltac:(vm_compute; reflexivity) sql rows Hin) as [Hold|Hnew].
    + apply elem_of_nil in Hold. destruct Hold.
    + rewrite Hnew. vm_compute. reflexivity.
Defined.

Section Upsert.
Import Py Db Actualizar.
Context {V : Type}.
Implicit Types (s : session V) (srv : servers V).




End Upsert.


Section BindOrder.
Import Py Db Actualizar.
Context {V : Type}.
Implicit Types (s : session V) (srv : servers V).

Lemma elem_of_loop_calls_fetch (prepare : list (@row V) → list (@row V))
  (sql : string) (b : Z) (bs : list (list (@row V))) (c : list (@row V)) :
  c ∈ bs → SqlFetchMany b c ∈ Spec.loop_calls prepare sql b bs.
Proof.
  intros Hc. unfold Spec.loop_calls. apply elem_of_app. left.
  induction Hc as [c bs|c c' bs Hc IH]; simpl.
  - apply list_elem_of_here.
  - do 3 apply list_elem_of_further. exact IH.
Qed.

Lemma lookup_new (h news : store) (k : nat) (o : @object V) :
  news !! k = Some o → (h ++ news) !! (length h + k)%nat = Some o.
Proof.
  intros H. rewrite lookup_app_r by lia.
  replace (length h + k - length h)%nat with k by lia. exact H.
Qed.

Lemma slice_row (f : @row V → @row V) (l : nat) (h news : store)
  (v : @row V) :
  (h ++ news) !! l = Some (Row v) →
  slice f l (h ++ news)
  = Some ((length h + length news)%nat, h ++ news ++ [Tuple (f v)]).
Proof.
  intros H. unfold slice, alloc. by rewrite H, length_app, app_assoc.
Qed.

Lemma to_tuple_tuple (l : nat) (h : store) (v : @row V) :
  h !! l = Some (Tuple v) → to_tuple l h = Some (l, h).
Proof. intros H. unfold to_tuple. by rewrite H. Qed.

Lemma to_tuple_list (l : nat) (h news : store) (v : @row V) :
  (h ++ news) !! l = Some (ListOfValues v) →
  to_tuple l (h ++ news)
  = Some ((length h + length news)%nat, h ++ news ++ [Tuple v]).
Proof.
  intros H. unfold to_tuple, alloc. by rewrite H, length_app, app_assoc.
Qed.

Lemma to_list_tuple (l : nat) (h news : store) (v : @row V) :
  (h ++ news) !! l = Some (Tuple v) →
  to_list l (h ++ news)
  = Some ((length h + length news)%nat, h ++ news ++ [ListOfValues v]).
Proof.
  intros H. unfold to_list, alloc. by rewrite H, length_app, app_assoc.
Qed.

Lemma concat_lists_eq (a b : nat) (h news : store) (x y : @row V) :
  (h ++ news) !! a = Some (ListOfValues x) →
  (h ++ news) !! b = Some (ListOfValues y) →
  concat_lists a b (h ++ news)
  = Some ((length h + length news)%nat, h ++ news ++ [ListOfValues (x ++ y)]).
Proof.
  intros Ha Hb. unfold concat_lists, alloc.
  by rewrite Ha, Hb, length_app, app_assoc.
Qed.

(** One pass of the loop body: six new objects are put at the end of the
    store, the last one being the bound tuple, and [data] gets its
    address. *)
Lemma for_body_store_eq (n data_at r : nat) (h : store) (v : @row V)
  (ts : list nat) :
  h !! r = Some (Row v) →
  h !! data_at = Some (ListOfObjects ts) →
  for_body_store n data_at r h
  = Some (<[data_at := ListOfObjects (ts ++ [length h + 5])%nat]>
            (h ++ [Tuple (take n v); Tuple (drop n v);
                   ListOfValues (drop n v); ListOfValues (take n v);
                   ListOfValues (drop n v ++ take n v);
                   Tuple (drop n v ++ take n v)])).
Proof.
  intros Hr Hdata.
  assert (Hrn : ∀ news, (h ++ news) !! r = Some (Row v))
    by (intros news; by apply lookup_app_l_Some).
  assert (Hdn : ∀ news, (h ++ news) !! data_at = Some (ListOfObjects ts))
    by (intros news; by apply lookup_app_l_Some).
  transitivity (for_body_store n data_at r (h ++ []));
    [by rewrite app_nil_r|].
  unfold for_body_store.
  erewrite slice_row by apply Hrn.
  cbn [mbind option_bind length app].
  erewrite to_tuple_tuple by (apply lookup_new; reflexivity).
  cbn [mbind option_bind].
  erewrite slice_row by apply Hrn.
  cbn [mbind option_bind length app].
  erewrite to_tuple_tuple by (apply lookup_new; reflexivity).
  cbn [mbind option_bind].
  erewrite to_list_tuple by (apply lookup_new; reflexivity).
  cbn [mbind option_bind length app].
  erewrite to_list_tuple by (apply lookup_new; reflexivity).
  cbn [mbind option_bind length app].
  erewrite concat_lists_eq by (apply lookup_new; reflexivity).
  cbn [mbind option_bind length app].
  erewrite to_tuple_list by (apply lookup_new; reflexivity).
  cbn [mbind option_bind length app].
  unfold append_to. rewrite Hdn. reflexivity.
Qed.

(** The loop, from any of its iterations on: every object of the store
    [h0] in which the loop started is left as it was, and [data] holds
    the addresses of new tuples, one per row handled, with the values of
    the row in the bind order. *)
Lemma for_loop_spec (n rows_at : nat) (h0 : store) (locs : list nat)
  (rest : list (@row V)) :
  h0 !! rows_at = Some (ListOfObjects locs) →
  ∀ (i : nat) (h : store) (ts : list nat) (done : list (@row V))
    (fuel : nat),
    Forall2 (λ l r, h0 !! l = Some (Row r)) (drop i locs) rest →
    (∀ l o, h0 !! l = Some o → h !! l = Some o) →
    h !! length h0 = Some (ListOfObjects ts) →
    Forall2 (λ t r, (length h0 < t)%nat
                    ∧ h !! t = Some (Tuple (bind_row n r))) ts done →
    (length rest < fuel)%nat →
    ∃ h' ts',
      for_loop fuel n rows_at (length h0) i h = Some h'
      ∧ (∀ l o, h0 !! l = Some o → h' !! l = Some o)
      ∧ h' !! length h0 = Some (ListOfObjects ts')
      ∧ Forall2 (λ t r, (length h0 < t)%nat
                        ∧ h' !! t = Some (Tuple (bind_row n r)))
          ts' (done ++ rest).
Proof.
  intros Hrows. induction rest as [|r rest IH];
    intros i h ts done fuel Hrest Hframe Hdata Hdone Hfuel;
    (destruct fuel as [|fuel]; [simpl in Hfuel; lia|]);
    cbn [for_loop]; rewrite (Hframe _ _ Hrows).
  - apply Forall2_nil_inv_r in Hrest.
    assert (Hi : locs !! i = None).
    { apply lookup_ge_None. apply (f_equal length) in Hrest.
      rewrite length_drop in Hrest. simpl in Hrest. lia. }
    rewrite Hi. exists h, ts. rewrite app_nil_r. auto.
  - apply Forall2_cons_inv_r in Hrest
      as (l & ls & Hl & Hls & Hdrop).
    assert (Hi : locs !! i = Some l).
    { rewrite <- (Nat.add_0_r i), <- lookup_drop, Hdrop. reflexivity. }
    assert (Hdrop' : drop (S i) locs = ls).
    { replace (S i) with (i + 1)%nat by lia.
      rewrite <- drop_drop, Hdrop. reflexivity. }
    rewrite Hi.
    rewrite (for_body_store_eq n (length h0) l h r ts (Hframe _ _ Hl) Hdata).
    cbn [mbind option_bind].
    assert (Hdlt : (length h0 < length h)%nat) by (by eapply lookup_lt_Some).
    set (news := [Tuple (take n r); Tuple (drop n r);
                  ListOfValues (drop n r); ListOfValues (take n r);
                  ListOfValues (drop n r ++ take n r);
                  Tuple (drop n r ++ take n r)]).
    set (h1 := <[length h0 := ListOfObjects (ts ++ [(length h + 5)%nat])]>
                 (h ++ news)).
    assert (Hkeep : ∀ t o, t ≠ length h0 → h !! t = Some o →
                           h1 !! t = Some o).
    { intros t o Hne Ht. unfold h1.
      rewrite list_lookup_insert_ne by (intros Heq; by apply Hne).
      by apply lookup_app_l_Some. }
    destruct (IH (S i) h1 (ts ++ [(length h + 5)%nat]) (done ++ [r]) fuel)
      as (h' & ts' & Hrun & Hframe' & Hdata' & Hall').
    + rewrite Hdrop'. exact Hls.
    + intros t o Ht. apply Hkeep; [|by apply Hframe].
      apply lookup_lt_Some in Ht. lia.
    + unfold h1. apply list_lookup_insert_eq.
      rewrite length_app. lia.
    + apply Forall2_app.
      * eapply Forall2_impl; [exact Hdone|].
        intros t r' [Ht1 Ht2]. split; [exact Ht1|]. apply Hkeep; [lia|done].
      * constructor; [|constructor]. split; [lia|].
        unfold h1. rewrite list_lookup_insert_ne by lia.
        change (h ++ news)
          with (h ++ [Tuple (take n r); Tuple (drop n r);
                      ListOfValues (drop n r); ListOfValues (take n r);
                      ListOfValues (drop n r ++ take n r)]
                  ++ [Tuple (bind_row n r)]).
        rewrite app_assoc. apply list_lookup_middle.
        rewrite length_app. simpl. lia.
    + simpl in Hfuel. lia.
    + exists h', ts'. rewrite <- app_assoc in Hall'. auto.
Qed.

(** C8. A fetched row made of the key values followed by the values of the
    columns to update is bound as the values to update followed by the key
    values, and the list that [update_only] hands to [executemany] for a
    fetched batch is made of its rows bound in this way, in order. The
    [for] loop that builds it, run on a store of objects that holds the
    fetched batch, creates [data] and one new tuple per row, with the
    values of the row in that order, and changes no object that existed
    before: the list [rows] and every fetched row are as they were. In a run of [update_only] in which no database call fails, the
    calls after the SELECT are, for each fetched batch in turn, the fetch,
    one [executemany] that binds the rows of that very batch reordered in
    this way, and a commit; then the fetch that returns no row. The
    batches put end to end are the result set. *)
Theorem update_only_bind_order (pk_cols : list string) :
  (∀ kv uv : @row V,
     length kv = length pk_cols →
     bind_row (length pk_cols) (kv ++ uv) = uv ++ kv)
  ∧ (∀ fetched : list (@row V),
       data (reorder (length pk_cols) fetched)
       = map (bind_row (length pk_cols)) fetched)
  ∧ (∀ (h : store) (rows_at : nat) (locs : list nat)
       (fetched : list (@row V)) (fuel : nat),
       h !! rows_at = Some (ListOfObjects locs) →
       Forall2 (λ l r, h !! l = Some (Row r)) locs fetched →
       (length fetched < fuel)%nat →
       ∃ (h' : store) (tuples : list nat),
         reorder_store fuel (length pk_cols) rows_at h
         = Some (length h, h')
         ∧ (∀ l o, h !! l = Some o → h' !! l = Some o)
         ∧ h' !! rows_at = Some (ListOfObjects locs)
         ∧ Forall2 (λ l r, h' !! l = Some (Row r)) locs fetched
         ∧ h' !! length h = Some (ListOfObjects tuples)
         ∧ Forall2 (λ t r, (length h < t)%nat
                           ∧ h' !! t
                             = Some (Tuple (bind_row (length pk_cols) r)))
             tuples fetched)
  ∧ (∀ fuel srv schema table upd_cols b w s,
       pk_cols ≠ [] → non_key pk_cols upd_cols ≠ [] → 0 < b →
       let sel := source_select schema table
                    (pk_cols ++ non_key pk_cols upd_cols) pk_cols w in
       (length (select srv sel) < fuel)%nat →
       update_only fuel srv schema table pk_cols upd_cols b w s
       = Returns (Some (Z.of_nat (length (select srv sel))))
           {| pending := [];
              calls :=
                calls s ++ [SqlExecute sel []]
                ++ flat_map
                     (λ batch,
                        [SqlFetchMany b batch;
                         MyExecuteMany
                           (upd_sql table pk_cols (non_key pk_cols upd_cols))
                           (map (bind_row (length pk_cols)) batch);
                         MyCommit])
                     (Spec.batches b (select srv sel))
                ++ [SqlFetchMany b []] |}
       ∧ concat (Spec.batches b (select srv sel)) = select srv sel).
Proof.
  split; [|split; [|split]].
  - intros kv uv Hlen. unfold bind_row. rewrite <- Hlen.
    by rewrite drop_app_length, take_app_length.
  - intros fetched. apply reorder_data.
  - intros h rows_at locs fetched fuel Hrows Hall Hfuel.
    unfold reorder_store, alloc.
    destruct (for_loop_spec (length pk_cols) rows_at h locs fetched Hrows
                0%nat (h ++ [ListOfObjects []]) [] [] fuel)
      as (h' & ts' & Hrun & Hframe & Hdata & Htuples).
    + exact Hall.
    + intros l o Hl. by apply lookup_app_l_Some.
    + by apply list_lookup_middle.
    + constructor.
    + exact Hfuel.
    + exists h', ts'. rewrite Hrun. cbn [mbind option_bind].
      split; [reflexivity|]. split; [exact Hframe|].
      split; [by apply Hframe|]. split; [|split; [exact Hdata|exact Htuples]].
      eapply Forall2_impl; [exact Hall|]. intros l r Hl. by apply Hframe.
  - intros fuel srv schema table upd_cols b w s Hpk Hupd Hb sel Hfuel.
    split.
    + unfold sel. rewrite update_only_runs by assumption. reflexivity.
    + apply split_batches_concat; lia.
Qed.

End BindOrder.

Lemma update_only_bind_order_witness :
  Actualizar.bind_row 2 [1; 2; 30; 40; 50] = [30; 40; 50; 1; 2]
  ∧ (∃ h',
       Actualizar.reorder_store 3 1
         0 [Actualizar.ListOfObjects [1; 2]%nat;
            Actualizar.Row [1; 10; 100]; Actualizar.Row [2; 20; 200]]
       = Some (3%nat, h')
       ∧ h' !! 1%nat = Some (Actualizar.Row [1; 10; 100])
       ∧ h' !! 2%nat = Some (Actualizar.Row [2; 20; 200]))
  ∧ Actualizar.update_only 4
      (Examples.orders_servers ["id"] Examples.three_rows)
      "dbo" "orders" ["id"] ["status"; "total"] 2 None
      (Examples.fresh_cursor [])
    = Db.Returns (Some 3)
        {| Db.pending := [];
           Db.calls :=
             [Db.SqlExecute
                "SELECT [id], [status], [total] FROM [dbo].[orders] ORDER BY [id];"
                [];
              Db.SqlFetchMany 2 [[1; 10; 100]; [2; 20; 200]];
              Db.MyExecuteMany
                "UPDATE `orders` SET `status`=%s, `total`=%s WHERE `id`=%s"
                [[10; 100; 1]; [20; 200; 2]];
              Db.MyCommit;
              Db.SqlFetchMany 2 [[3; 30; 300]];
              Db.MyExecuteMany
                "UPDATE `orders` SET `status`=%s, `total`=%s WHERE `id`=%s"
                [[30; 300; 3]];
              Db.MyCommit;
              Db.SqlFetchMany 2 []] |}.
Proof.
  split; [|split].
  - destruct (update_only_bind_order (V := Z) ["order_id"; "line"])
      as (Hrow & _ & _).
    apply (Hrow [1; 2] [30; 40; 50]). reflexivity.
  - destruct (update_only_bind_order (V := Z) ["id"]) as (_ & _ & Hloop & _).
    destruct (Hloop [Actualizar.ListOfObjects [1; 2]%nat;
                     Actualizar.Row [1; 10; 100]; Actualizar.Row [2; 20; 200]]
                0%nat [1; 2]%nat [[1; 10; 100]; [2; 20; 200]] 3%nat)
      as (h' & tuples & Hrun & _ & _ & Hrows & _).
    + reflexivity.
    + repeat constructor.
    + simpl. lia.
    + exists h'. split; [exact Hrun|].
      apply Forall2_cons_1 in Hrows as [H1 Hrows].
      apply Forall2_cons_1 in Hrows as [H2 _].
      split; [exact H1|exact H2].
  - destruct (update_only_bind_order (V := Z) ["id"]) as (_ & _ & _ & Hrun).
    destruct (Hrun 4%nat (Examples.orders_servers ["id"] Examples.three_rows)
                "dbo" "orders" ["status"; "total"] 2 None
                (Examples.fresh_cursor [])) as [Hret _].
    + discriminate.
    + vm_compute. discriminate.
    + reflexivity.
    + vm_compute. lia.
    + rewrite Hret. vm_compute. reflexivity.
Defined.

Section FetchColumns.
Import Py Db.
Context {V : Type}.
Implicit Types (s : session V) (srv : servers V).

(** The statements and the effect of [copy_table] with a positive batch
    size and enough fuel. *)
Lemma copy_table_runs (fuel : nat) srv (schema table : string) (b : Z)
  (only_cols : option (list string)) s :
  0 < b →
  let kept := Migrar.selected_columns (sql_columns srv schema table)
                (sql_primary_key srv schema table) only_cols in
  let sel := Migrar.select_sql schema table (map name kept.1) kept.2 in
  (length (select srv sel) < fuel)%nat →
  ∃ create_sql,
    Migrar.build_create_table_mysql table kept.1 kept.2 = Ok create_sql
    ∧ Migrar.copy_table fuel srv schema table b only_cols s
      = Returns (Z.of_nat (length (select srv sel)))
          {| pending := [];
             calls := calls s
                      ++ [SqlExecute Migrar.columns_query [schema; table];
                          SqlExecute Migrar.primary_key_query [schema; table];
                          MyExecute create_sql [];
                          MyCommit;
                          SqlExecute sel []]
                      ++ Spec.loop_calls (λ fetched, fetched)
                           (Migrar.insert_sql table (map name kept.1)) b
                           (Spec.batches b (select srv sel)) |}.
Proof.
  intros Hb kept sel Hfuel.
  destruct (build_create_table_mysql_ok table kept.1 kept.2)
    as (parts & _ & Hddl).
  eexists. split; [exact Hddl|].
  unfold Migrar.copy_table. cbn [Migrar.fetch_columns_sqlserver
    Migrar.fetch_primary_key_sqlserver].
  fold kept. destruct kept as [cols pk] eqn:Hkept. cbn [fst snd] in *.
  rewrite Hddl. fold sel.
  rewrite batch_loop_returns; try assumption; [|reflexivity].
  cbn [sql_execute commit mysql_execute log pending calls].
  rewrite <- !app_assoc. reflexivity.
Qed.

(** C5, as stated, fails for the create mode: with the selection
    [status] on a table whose key is [id], only [status] is fetched. *)
Lemma create_fetch_counterexample :
  let cols := [Examples.orders_id; Examples.orders_status; Examples.orders_total] in
  let kept := Migrar.selected_columns cols ["id"] (Some ["status"]) in
  map name kept.1 = ["status"]
  ∧ kept.2 = []
  ∧ Migrar.select_sql "dbo" "orders" (map name kept.1) kept.2
    = "SELECT [status] FROM [dbo].[orders];"
  ∧ ¬ Spec.fetch_is_union (map name kept.1) ["id"] ["status"].
Proof.
  split; [reflexivity|]. split; [reflexivity|]. split; [reflexivity|].
  intros Hunion. destruct (Hunion "id") as [_ Hid].
  assert (Hin : "id" ∈ map name
            (Migrar.selected_columns
               [Examples.orders_id; Examples.orders_status; Examples.orders_total]
               ["id"] (Some ["status"])).1).
  { apply Hid. left. apply list_elem_of_here. }
  vm_compute in Hin. apply list_elem_of_singleton in Hin. discriminate.
Qed.

(** C5 (amended). In the update-only mode the columns fetched are the key
    columns followed by the selected columns that are not key columns, in
    this order, so a key column left out of the selection is fetched all
    the same: a run with key columns and at least one such column, in
    which no database call fails, sends one SELECT, over exactly this
    list, before its transfer (when every selected column is a key column
    the function returns without fetching anything). In the create mode
    the columns fetched are the catalog columns named in the selection
    when one is given (all catalog columns otherwise), and the key columns
    kept are those named in the selection: a key column left out of the
    selection is not fetched. The one SELECT that a run of [copy_table]
    sends for the rows names exactly the columns kept. *)
Theorem fetch_columns_by_mode :
  (∀ pk_cols upd_cols,
     Actualizar.update_fetch_columns pk_cols upd_cols
     = pk_cols ++ filter (λ c, c ∉ pk_cols) upd_cols
     ∧ Spec.fetch_is_union (Actualizar.update_fetch_columns pk_cols upd_cols)
         pk_cols upd_cols)
  ∧ (∀ (cols : list Column) pk only x,
       only ≠ [] →
       (x ∈ map name (Migrar.selected_columns cols pk (Some only)).1
        ↔ x ∈ map name cols ∧ x ∈ only)
       ∧ (x ∈ (Migrar.selected_columns cols pk (Some only)).2
          ↔ x ∈ pk ∧ x ∈ only))
  ∧ (∀ (cols : list Column) pk,
       Migrar.selected_columns cols pk None = (cols, pk)
       ∧ Migrar.selected_columns cols pk (Some []) = (cols, pk))
  ∧ (∀ (fuel : nat) srv (schema table : string) pk_cols upd_cols (b : Z)
       (w : option string) s,
       pk_cols ≠ [] →
       let fetched := pk_cols ++ filter (λ c, c ∉ pk_cols) upd_cols in
       let sel :=
         "SELECT " +:+ Py.join ", " (map (λ c, "[" +:+ c +:+ "]") fetched)
         +:+ " FROM [" +:+ schema +:+ "].[" +:+ table +:+ "]"
         +:+ Actualizar.where_sql w +:+ " ORDER BY "
         +:+ Py.join ", " (map (λ c, "[" +:+ c +:+ "]") pk_cols) +:+ ";" in
       (filter (λ c, c ∉ pk_cols) upd_cols = [] →
        Actualizar.update_only fuel srv schema table pk_cols upd_cols b w s
        = Returns None s)
       ∧ (filter (λ c, c ∉ pk_cols) upd_cols ≠ [] → 0 < b →
          (length (select srv sel) < fuel)%nat →
          ∃ transfer,
            Actualizar.update_only fuel srv schema table pk_cols upd_cols b w s
            = Returns (Some (Z.of_nat (length (select srv sel))))
                {| pending := [];
                   calls := calls s ++ SqlExecute sel [] :: transfer |}
            ∧ Forall (λ c, ∀ q params, c ≠ SqlExecute q params) transfer
            ∧ Spec.written transfer
              = map (Actualizar.bind_row (length pk_cols)) (select srv sel)))
  ∧ (∀ (fuel : nat) srv (schema table : string) (b : Z) only_cols s,
       0 < b →
       let kept := Migrar.selected_columns (sql_columns srv schema table)
                     (sql_primary_key srv schema table) only_cols in
       let sel :=
         "SELECT "
         +:+ Py.join ", " (map (λ c, "[" +:+ c +:+ "]") (map name kept.1))
         +:+ " FROM [" +:+ schema +:+ "].[" +:+ table +:+ "]"
         +:+ (if Py.truthy_list kept.2
              then " ORDER BY "
                   +:+ Py.join ", " (map (λ c, "[" +:+ c +:+ "]") kept.2)
              else "")
         +:+ ";" in
       (length (select srv sel) < fuel)%nat →
       ∃ create_sql transfer,
         Migrar.copy_table fuel srv schema table b only_cols s
         = Returns (Z.of_nat (length (select srv sel)))
             {| pending := [];
                calls :=
                  calls s
                  ++ [SqlExecute Migrar.columns_query [schema; table];
                      SqlExecute Migrar.primary_key_query [schema; table];
                      MyExecute create_sql [];
                      MyCommit;
                      SqlExecute sel []]
                  ++ transfer |}
         ∧ Forall (λ c, ∀ q params, c ≠ SqlExecute q params) transfer
         ∧ Spec.written transfer = select srv sel).
Proof.
  assert (Hloop : ∀ (prepare : list (@row V) → list (@row V)) sql b bs,
            Forall (λ c : call V, ∀ q params, c ≠ SqlExecute q params)
              (Spec.loop_calls prepare sql b bs)).
  { intros prepare sql b bs. unfold Spec.loop_calls. apply Forall_app. split.
    - induction bs as [|c bs IH]; simpl; [constructor|].
      repeat (constructor; [discriminate|]). exact IH.
    - repeat constructor. discriminate. }
  split; [|split; [|split; [|split]]].
  - intros pk_cols upd_cols. split; [reflexivity|]. intros x.
    unfold Actualizar.update_fetch_columns.
    rewrite elem_of_app, elem_of_non_key. tauto.
  - intros cols pk only x Hne. unfold Migrar.selected_columns.
    rewrite (truthy_list_true _ Hne). cbn [fst snd]. split.
    + rewrite !list_elem_of_fmap. split.
      * intros (c & -> & Hc). apply list_elem_of_filter in Hc as [Hc1 Hc2].
        split; [|exact Hc1]. by exists c.
      * intros [(c & -> & Hc) Hx]. exists c. split; [reflexivity|].
        apply list_elem_of_filter. by split.
    + rewrite list_elem_of_filter. tauto.
  - intros cols pk. split; reflexivity.
  - intros fuel srv schema table pk_cols upd_cols b w s Hpk fetched sel.
    split.
    + intros Hnil. unfold Actualizar.update_only.
      rewrite (truthy_list_true _ Hpk). unfold Actualizar.non_key.
      rewrite Hnil. reflexivity.
    + intros Hupd Hb Hfuel. eexists. split; [|split].
      * unfold sel, fetched.
        rewrite (update_only_runs fuel srv schema table pk_cols upd_cols b w s
                   Hpk Hupd Hb Hfuel).
        reflexivity.
      * apply Hloop.
      * rewrite written_loop_calls, concat_map_map.
        f_equal. by apply batches_concat.
  - intros fuel srv schema table b only_cols s Hb kept sel Hfuel.
    destruct (copy_table_runs fuel srv schema table b only_cols s Hb Hfuel)
      as (create_sql & _ & Hrun).
    eexists create_sql, _. split; [exact Hrun|]. split; [apply Hloop|].
    rewrite written_loop_calls, map_id. by apply batches_concat.
Qed.

End FetchColumns.

Lemma fetch_columns_by_mode_witness :
  ("status" ∈ map Db.name
     (Migrar.selected_columns
        [Examples.orders_id; Examples.orders_status; Examples.orders_total]
        ["id"] (Some ["status"])).1)
  ∧ (∃ transfer,
       Actualizar.update_only 4
         (Examples.orders_servers ["id"] Examples.three_rows)
         "dbo" "orders" ["id"] ["status"] 2 None (Examples.fresh_cursor [])
       = Db.Returns (Some 3)
           {| Db.pending := [];
              Db.calls :=
                Db.SqlExecute
                  "SELECT [id], [status] FROM [dbo].[orders] ORDER BY [id];" []
                :: transfer |})
  ∧ ∃ create_sql transfer,
      Migrar.copy_table 4 (Examples.orders_servers ["id"] Examples.three_rows)
        "dbo" "orders" 2 (Some ["status"]) (Examples.fresh_cursor [])
      = Db.Returns 3
          {| Db.pending := [];
             Db.calls :=
               [Db.SqlExecute Migrar.columns_query ["dbo"; "orders"];
                Db.SqlExecute Migrar.primary_key_query ["dbo"; "orders"];
                Db.MyExecute create_sql [];
                Db.MyCommit;
                Db.SqlExecute "SELECT [status] FROM [dbo].[orders];" []]
               ++ transfer |}.
Proof.
  destruct (fetch_columns_by_mode (V := Z))
    as (_ & Hcreate & _ & Hupdate & Hrun).
  split; [|split].
  - destruct (Hcreate
                [Examples.orders_id; Examples.orders_status; Examples.orders_total]
                ["id"] ["status"] "status" ltac:(discriminate)) as [[_ Hin] _].
    apply Hin. split; [|apply list_elem_of_here].
    apply list_elem_of_further, list_elem_of_here.
  - destruct (Hupdate 4%nat
                (Examples.orders_servers ["id"] Examples.three_rows)
                "dbo" "orders" ["id"] ["status"] 2 None
                (Examples.fresh_cursor []) ltac:(discriminate)) as [_ Hsome].
    destruct Hsome as (transfer & Hret & _).
    + vm_compute. discriminate.
    + reflexivity.
    + vm_compute. lia.
    + exists transfer. exact Hret.
  - destruct (Hrun 4%nat (Examples.orders_servers ["id"] Examples.three_rows)
                "dbo" "orders" 2 (Some ["status"]) (Examples.fresh_cursor []))
      as (create_sql & transfer & Hret & _).
    + reflexivity.
    + vm_compute. lia.
    + exists create_sql, transfer. exact Hret.
Defined.

Section Wizard.
Import Py Db Actualizar.
Context {V : Type}.
Implicit Types (s : session V) (srv : servers V).

Lemma prefix_cons (a b : ascii) (s1 s2 : string) :
  String.prefix (String a s1) (String b s2)
  = if ascii_dec a b then String.prefix s1 s2 else false.
Proof. reflexivity. Qed.

Lemma prefix_update_not_upsert (m : string) :
  String.prefix "UPDATE" m = true → String.prefix "UPSERT" m = false.
Proof.
  intros H. destruct m as [|c1 m]; [discriminate H|].
  rewrite prefix_cons in *.
  destruct (ascii_dec "U" c1); [|reflexivity].
  destruct m as [|c2 m]; [discriminate H|]. rewrite prefix_cons in *.
  destruct (ascii_dec "P" c2); [|reflexivity].
  destruct m as [|c3 m]; [discriminate H|]. rewrite prefix_cons in *.
  destruct (ascii_dec "D" c3) as [<-|]; [reflexivity|discriminate H].
Qed.

(** C7 (amended). When the UPDATE mode is asked for a source table
    without primary key, the wizard ends by [sys.exit]; until then it has
    sent no write and no commit to MySQL, and the only statement it has
    sent there is the catalog query for the primary key of the target
    table. When the tables, the table name and the columns are accepted
    and the operator confirms, the exit status is 1 and the calls made are
    the three catalog reads of SQL Server and that one catalog read of
    MySQL. [update_only] itself, called without key columns, exits with
    status 1 before any call on either side. *)
Theorem update_without_key_stops_before_writes (fuel : nat) srv
  (a : answers) s :
  String.prefix "UPDATE" (mode a) = true →
  let tables := sql_tables srv (schema a) in
  let src := source_table a tables in
  sql_primary_key srv (schema a) src = [] →
  (∃ code s' extra,
     main fuel srv a s = Exits code s'
     ∧ calls s' = calls s ++ extra
     ∧ Forall (λ c, is_mysql_call c = true →
                    c = MyExecute mysql_pk_query [mysql_db a; mysql_table a])
         extra)
  ∧ (truthy_str src = true → src ∈ tables →
     is_Some (choose_columns_interactive
                (safe_columns (fetch_columns_sqlserver srv (schema a) src s).1)
                (columns_typed a)) →
     continue_confirmed a = true →
     main fuel srv a s
     = Exits 1
         {| pending := [];
            calls := calls s
                     ++ [SqlExecute tables_query [schema a];
                         SqlExecute columns_query [schema a; src];
                         SqlExecute Migrar.primary_key_query [schema a; src];
                         MyExecute mysql_pk_query [mysql_db a; mysql_table a]] |})
  ∧ (∀ schema table upd_cols b w,
       update_only fuel srv schema table [] upd_cols b w s = Exits 1 s).
Proof.
  intros Hmode tables src Hpk.
  pose proof (prefix_update_not_upsert _ Hmode) as Hups.
  split; [|split].
  - unfold main. cbn [fetch_tables_sqlserver]. fold tables.
    destruct (truthy_list tables); cbn [negb].
    2:{ eexists _, _, _. split; [reflexivity|]. split; [reflexivity|].
        repeat constructor; discriminate. }
    fold src.
    destruct (negb (truthy_str src) || negb (bool_decide (src ∈ tables))).
    { eexists _, _, _. split; [reflexivity|]. split; [reflexivity|].
      repeat constructor; discriminate. }
    cbn [fetch_columns_sqlserver fetch_primary_key_sqlserver].
    destruct (choose_columns_interactive _ _) as [upd|].
    2:{ eexists _, _, _. split; [reflexivity|].
        split; [cbn [calls]; rewrite <- !app_assoc; reflexivity|].
        repeat constructor; discriminate. }
    cbn [fetch_mysql_pk_columns]. rewrite Hups, Hmode. cbn [andb].
    destruct (continue_confirmed a); cbn [negb].
    + rewrite Hpk. cbn [truthy_list negb].
      eexists _, _, _. split; [reflexivity|].
      split; [cbn [calls mysql_execute log]; rewrite <- !app_assoc;
              reflexivity|].
      repeat constructor; discriminate.
    + eexists _, _, _. split; [reflexivity|].
      split; [cbn [calls mysql_execute log]; rewrite <- !app_assoc;
              reflexivity|].
      repeat constructor; discriminate.
  - intros Hsrc Hin Hcols Hgo. unfold main.
    cbn [fetch_tables_sqlserver]. fold tables.
    rewrite truthy_list_true by (intros Hnil; rewrite Hnil in Hin;
                                 by apply elem_of_nil in Hin).
    cbn [negb]. fold src. rewrite Hsrc, (bool_decide_eq_true_2 _ Hin).
    cbn [negb orb].
    cbn [fetch_columns_sqlserver fetch_primary_key_sqlserver fst] in *.
    destruct Hcols as [upd ->].
    cbn [fetch_mysql_pk_columns]. rewrite Hups, Hmode, Hgo, Hpk.
    cbn [andb negb truthy_list]. unfold mysql_execute, log.
    cbn [calls pending]. rewrite <- !app_assoc. reflexivity.
  - intros schema table upd_cols b w. reflexivity.
Qed.

End Wizard.

(** C7, as stated, fails: when the UPDATE mode is asked for a table
    without primary key, the wizard stops with status 1, but the catalog
    query for the primary key of the MySQL table has run by then. *)
Lemma update_without_key_counterexample :
  ∃ s',
    Actualizar.main 1 (Examples.orders_servers [] Examples.three_rows)
      Examples.update_answers (Examples.fresh_cursor [])
    = Db.Exits 1 s'
    ∧ filter (λ c, Db.is_mysql_call c = true) (Db.calls s')
      = [Db.MyExecute Actualizar.mysql_pk_query ["shop_copy"; "orders"]]
    ∧ ¬ Spec.target_untouched s'.
Proof.
  eexists. split; [vm_compute; reflexivity|]. split; [reflexivity|].
  unfold Spec.target_untouched. discriminate.
Qed.

Lemma update_without_key_stops_before_writes_witness :
  Actualizar.main 1 (Examples.orders_servers [] Examples.three_rows)
    Examples.update_answers (Examples.fresh_cursor [])
  = Db.Exits 1
      {| Db.pending := [];
         Db.calls :=
           [Db.SqlExecute Actualizar.tables_query ["dbo"];
            Db.SqlExecute Actualizar.columns_query ["dbo"; "orders"];
            Db.SqlExecute Migrar.primary_key_query ["dbo"; "orders"];
            Db.MyExecute Actualizar.mysql_pk_query ["shop_copy"; "orders"]] |}.
Proof.
  destruct (update_without_key_stops_before_writes 1
              (Examples.orders_servers [] Examples.three_rows)
              Examples.update_answers (Examples.fresh_cursor []))
    as (_ & H & _).
  - reflexivity.
  - reflexivity.
  - rewrite H.
    + reflexivity.
    + reflexivity.
    + apply (bool_decide_unpack _). vm_compute. exact I.
    + eexists. vm_compute. reflexivity.
    + reflexivity.
Defined.

(* ================================================================== *)
(** * Further properties of the schema translation *)
(* ================================================================== *)

Section DefaultSpellings.
Import Py Db Migrar.

Lemma rev_app_append (s1 s2 : string) :
  String.rev_app s1 s2 = String.rev s1 +:+ s2.
Proof.
  revert s2. induction s1 as [|a s1 IH]; intros s2; [reflexivity|].
  unfold String.rev. simpl. rewrite (IH (String a s2)), (IH (String a "")).
  by rewrite append_assoc.
Qed.

Lemma rev_cons (a : ascii) (s : string) :
  String.rev (String a s) = String.rev s +:+ String a "".
Proof. unfold String.rev at 1. simpl. apply rev_app_append. Qed.

Lemma rev_append (a b : string) :
  String.rev (a +:+ b) = String.rev b +:+ String.rev a.
Proof.
  induction a as [|x a IH].
  - change ("" +:+ b) with b. by rewrite append_empty_r.
  - rewrite append_cons, !rev_cons, IH. by rewrite append_assoc.
Qed.

Lemma rev_involutive (s : string) : String.rev (String.rev s) = s.
Proof.
  induction s as [|a s IH]; [reflexivity|].
  rewrite rev_cons, rev_append, IH. reflexivity.
Qed.

Lemma lstrip_where_head (p : ascii → bool) (s : string) (c : ascii)
  (r : string) :
  lstrip_where p s = String c r → p c = false.
Proof.
  induction s as [|a s IH]; simpl; [discriminate|].
  destruct (p a) eqn:Hp; [exact IH|].
  intros H. injection H as <- _. exact Hp.
Qed.

(** What [strip] leaves does not end with a stripped character. *)
Lemma strip_where_last (p : ascii → bool) (s : string) (c : ascii) :
  Spec.last_char (strip_where p s) = Some c → p c = false.
Proof.
  unfold Spec.last_char, strip_where, rstrip_where. rewrite rev_involutive.
  destruct (lstrip_where p (String.rev (lstrip_where p s))) as [|a r] eqn:H;
    [discriminate|].
  intros Hc. injection Hc as <-. by apply lstrip_where_head in H.
Qed.

Lemma lower_append (a b : string) : lower (a +:+ b) = lower a +:+ lower b.
Proof.
  induction a as [|x a IH]; [reflexivity|].
  rewrite append_cons. simpl. rewrite append_cons. by rewrite IH.
Qed.

Lemma rev_lower (s : string) : String.rev (lower s) = lower (String.rev s).
Proof.
  induction s as [|a s IH]; [reflexivity|].
  simpl. rewrite !rev_cons, IH, lower_append. reflexivity.
Qed.

Lemma last_char_lower (s : string) :
  Spec.last_char (lower s) = lower_char <$> Spec.last_char s.
Proof.
  unfold Spec.last_char. rewrite rev_lower.
  by destruct (String.rev s).
Qed.

Lemma lower_char_paren (c : ascii) : lower_char c = ")"%char → c = ")"%char.
Proof.
  destruct c as [[] [] [] [] [] [] [] []]; vm_compute; congruence.
Qed.

(** After the parentheses are stripped, no spelling that ends with a
    parenthesis can match. *)
Lemma default_text_not_call (raw : string) (spelling : string) :
  Spec.last_char spelling = Some ")"%char →
  lower (default_text raw) ≠ spelling.
Proof.
  intros Hlast Heq. rewrite <- Heq, last_char_lower in Hlast.
  destruct (Spec.last_char (default_text raw)) as [c|] eqn:Hc;
    [|discriminate].
  injection Hlast as Hlow. apply lower_char_paren in Hlow as ->.
  apply strip_where_last in Hc. discriminate.
Qed.

(** X1. The entries [getdate()], [sysdatetime()] and [newid()] of the
    recognition lists never match, since the parentheses are stripped from
    both ends of the expression before the comparison. A default is
    translated to CURRENT_TIMESTAMP exactly for [getdate] and
    [current_timestamp] in any case, dropped exactly for [newid], copied
    for a number and quoted otherwise; [(sysdatetime())] is quoted. *)
Theorem default_clause_cases (raw : string) :
  (lower (default_text raw) ∉ ["getdate()"; "sysdatetime()"; "newid()"])
  ∧ default_clause raw
    = (if str_in (lower (default_text raw)) ["getdate"; "current_timestamp"]
       then " DEFAULT CURRENT_TIMESTAMP"
       else if String.eqb (lower (default_text raw)) "newid" then ""
       else if float_parses (default_text raw)
            then " DEFAULT " +:+ default_text raw
            else " DEFAULT '" +:+ default_literal (default_text raw) +:+ "'")
  ∧ default_clause "(sysdatetime())" = " DEFAULT 'sysdatetime'".
Proof.
  assert (Hcall : ∀ sp, Spec.last_char sp = Some ")"%char →
                        lower (default_text raw) ≠ sp)
    by (intros sp; apply default_text_not_call).
  pose proof (Hcall "getdate()" eq_refl) as H1.
  pose proof (Hcall "sysdatetime()" eq_refl) as H2.
  pose proof (Hcall "newid()" eq_refl) as H3.
  split; [|split; [|vm_compute; reflexivity]].
  - rewrite !elem_of_cons, elem_of_nil. tauto.
  - unfold default_clause, float, timestamp_spellings, newid_spellings.
    cbv zeta. set (d := lower (default_text raw)) in *.
    assert (Hts : str_in d ["getdate"; "getdate()"; "sysdatetime()";
                            "current_timestamp"]
                  = str_in d ["getdate"; "current_timestamp"]).
    { unfold str_in. apply bool_decide_ext.
      rewrite !elem_of_cons, !elem_of_nil. tauto. }
    assert (Hid : str_in d ["newid"; "newid()"] = String.eqb d "newid").
    { unfold str_in. destruct (String.eqb_spec d "newid") as [->|Hne].
      - reflexivity.
      - apply bool_decide_eq_false. rewrite !elem_of_cons, elem_of_nil. tauto. }
    rewrite Hts, Hid. clear Hts Hid.
    destruct (str_in d ["getdate"; "current_timestamp"]); [reflexivity|].
    destruct (String.eqb d "newid"); [reflexivity|].
    destruct (float_parses (default_text raw)); reflexivity.
Qed.

End DefaultSpellings.

Section DdlShape.
Import Py Db Migrar.

(** X2. Building the CREATE TABLE statement never raises. The statement
    holds one definition per column, in the order of the columns: name,
    mapped type, [AUTO_INCREMENT NOT NULL] for an identity column whatever
    its nullability, [NOT NULL] or [NULL] otherwise, and the default part.
    A PRIMARY KEY clause over the key columns, in their order, follows the
    definitions exactly when there are key columns. *)
Theorem build_create_table_mysql_shape (table : string)
  (columns : list Column) (pk_cols : list string) :
  ∃ parts,
    Forall2 (λ col part,
               ∃ ty, sqlserver_to_mysql_type col = Ok ty
                     ∧ part = "`" +:+ name col +:+ "` " +:+ ty
                              +:+ (if is_identity col
                                   then " AUTO_INCREMENT NOT NULL"
                                   else if nullable col then " NULL"
                                        else " NOT NULL")
                              +:+ default_part col)
      columns parts
    ∧ build_create_table_mysql table columns pk_cols
      = Ok ("CREATE TABLE IF NOT EXISTS `" +:+ table +:+ "` (" +:+ newline
            +:+ "  "
            +:+ join ("," +:+ newline +:+ "  ")
                  (parts
                   ++ match pk_cols with
                      | [] => []
                      | _ :: _ =>
                          ["PRIMARY KEY ("
                           +:+ join ", " (map (λ c, "`" +:+ c +:+ "`") pk_cols)
                           +:+ ")"]
                      end)
            +:+ newline +:+ ") ENGINE=InnoDB DEFAULT CHARSET=utf8mb4;").
Proof.
  destruct (build_create_table_mysql_ok table columns pk_cols)
    as (parts & Hall & Hddl).
  exists parts. split.
  - eapply Forall2_impl; [exact Hall|]. intros col part Hpart. simpl in Hpart.
    destruct (sqlserver_to_mysql_type_ok col) as [ty Hty]. exists ty.
    split; [exact Hty|].
    rewrite (column_definition_eq col ty Hty) in Hpart.
    injection Hpart as <-. unfold Spec.column_head.
    destruct (is_identity col), (nullable col); cbn [negb orb];
      repeat rewrite append_assoc; reflexivity.
  - rewrite Hddl. destruct pk_cols; cbn [truthy_list];
      rewrite ?app_nil_r; reflexivity.
Qed.

End DdlShape.

(* ================================================================== *)
(** * Further properties of the data phase *)
(* ================================================================== *)

Section Transfers.
Import Py Db.
Context {V : Type}.
Implicit Types (s : session V) (srv : servers V).

Lemma writes_committed_loop_calls
  (prepare : list (@row V) → list (@row V)) (sql : string) (b : Z)
  (bs : list (list (@row V))) :
  Spec.writes_committed (Spec.loop_calls prepare sql b bs).
Proof.
  unfold Spec.loop_calls. induction bs as [|c bs IH]; simpl; [exact I|].
  exact IH.
Qed.


(** X4. With key columns, at least one column to update, a positive batch
    size and enough fuel, [update_only] returns the number of rows of its
    SELECT, and the rows handed to [executemany], put end to end, are the
    rows of the result set in their order, each with its key values moved
    behind the other values; each [executemany] is directly followed by a
    [commit]. Nothing is written before the SELECT. *)
Theorem update_only_transfers (fuel : nat) srv (schema table : string)
  (pk_cols upd_cols : list string) (b : Z) (w : option string) s :
  pk_cols ≠ [] → Actualizar.non_key pk_cols upd_cols ≠ [] → 0 < b →
  let sel := Actualizar.source_select schema table
               (pk_cols ++ Actualizar.non_key pk_cols upd_cols) pk_cols w in
  (length (select srv sel) < fuel)%nat →
  ∃ s' transfer,
    Actualizar.update_only fuel srv schema table pk_cols upd_cols b w s
    = Returns (Some (Z.of_nat (length (select srv sel)))) s'
    ∧ calls s' = calls s ++ SqlExecute sel [] :: transfer
    ∧ Spec.written transfer
      = map (Actualizar.bind_row (length pk_cols)) (select srv sel)
    ∧ Spec.writes_committed transfer.
Proof.
  intros Hpk Hupd Hb sel Hfuel.
  rewrite update_only_runs by assumption. fold sel.
  eexists _, _. split; [reflexivity|]. split; [reflexivity|]. split.
  - rewrite written_loop_calls, concat_map_map. by rewrite batches_concat.
  - apply writes_committed_loop_calls.
Qed.

End Transfers.


Lemma update_only_transfers_witness :
  ∃ s' transfer,
    Actualizar.update_only 4
      (Examples.orders_servers ["id"] Examples.three_rows)
      "dbo" "orders" ["id"] ["status"; "total"] 2 None
      (Examples.fresh_cursor [])
    = Db.Returns (Some 3) s'
    ∧ Spec.written transfer = [[10; 100; 1]; [20; 200; 2]; [30; 300; 3]].
Proof.
  destruct (update_only_transfers 4
              (Examples.orders_servers ["id"] Examples.three_rows)
              "dbo" "orders" ["id"] ["status"; "total"] 2 None
              (Examples.fresh_cursor []))
    as (s' & transfer & Hrun & _ & Hwritten & _).
  - discriminate.
  - vm_compute. discriminate.
  - reflexivity.
  - vm_compute. lia.
  - exists s', transfer. split; [exact Hrun|]. rewrite Hwritten. reflexivity.
Defined.

Section EarlyReturns.
Import Py Db Actualizar.
Context {V : Type}.
Implicit Types (s : session V) (srv : servers V).

(** The loop ends by returning or runs out of fuel; it neither exits nor
    raises. *)
Lemma batch_loop_outcome (fuel : nat) (prepare : list (@row V) → list (@row V))
  (sql : string) (b total : Z) s :
  (∃ t s', batch_loop fuel prepare sql b total s = Returns t s')
  ∨ batch_loop fuel prepare sql b total s = OutOfFuel.
Proof.
  revert total s. induction fuel as [|fuel IH]; intros total s; simpl;
    [by right|].
  destruct (truthy_list _); simpl; [apply IH|].
  left. eauto.
Qed.

Lemma non_key_nil (pk_cols upd_cols : list string) :
  non_key pk_cols upd_cols = [] ↔ ∀ c, c ∈ upd_cols → c ∈ pk_cols.
Proof.
  split.
  - intros Hnil c Hc. destruct (decide (c ∈ pk_cols)) as [|Hn]; [done|].
    assert (Hin : c ∈ non_key pk_cols upd_cols)
      by (apply elem_of_non_key; by split).
    rewrite Hnil in Hin. by apply elem_of_nil in Hin.
  - intros Hall. destruct (non_key pk_cols upd_cols) as [|c l] eqn:Hl;
      [reflexivity|].
    assert (Hin : c ∈ non_key pk_cols upd_cols)
      by (rewrite Hl; apply list_elem_of_here).
    apply elem_of_non_key in Hin as [Hc Hn]. by apply Hall in Hc.
Qed.

(** X5. With key columns, [update_only] returns at once, without a SELECT
    and without a write, exactly when every selected column is a key
    column; in particular when nothing is selected. *)
Theorem update_only_noop (fuel : nat) srv (schema table : string)
  (pk_cols upd_cols : list string) (b : Z) (w : option string) s :
  pk_cols ≠ [] →
  ((∀ c, c ∈ upd_cols → c ∈ pk_cols)
   ↔ update_only fuel srv schema table pk_cols upd_cols b w s
     = Returns None s)
  ∧ (∀ s', update_only fuel srv schema table pk_cols upd_cols b w s
           = Returns None s' → s' = s).
Proof.
  intros Hpk. unfold update_only. rewrite (truthy_list_true _ Hpk).
  cbn [negb]. rewrite <- non_key_nil.
  destruct (non_key pk_cols upd_cols) as [|c l] eqn:Hnk; cbn [truthy_list negb].
  - split; [tauto|]. intros s' H. by injection H.
  - destruct (batch_loop _ _ _ _ _ _); split;
      try (split; discriminate); intros; discriminate.
Qed.

(** X6. [upsert_mode] exits with status 1, before any call, exactly when
    it has no key column, and it has no other exit. With key columns the
    branch for an empty column list (which would return without a total)
    cannot be taken, since the key columns are part of the list. *)
Theorem upsert_mode_outcomes (fuel : nat) srv (schema table : string)
  (pk_cols upd_cols : list string) (b : Z) (w : option string) s :
  (pk_cols = [] ↔
   upsert_mode fuel srv schema table pk_cols upd_cols b w s = Exits 1 s)
  ∧ (∀ code s', upsert_mode fuel srv schema table pk_cols upd_cols b w s
                = Exits code s' → pk_cols = [])
  ∧ (∀ s', upsert_mode fuel srv schema table pk_cols upd_cols b w s
           ≠ Returns None s').
Proof.
  unfold upsert_mode. destruct pk_cols as [|k pk_cols]; cbn [truthy_list negb].
  - repeat split; intros; discriminate.
  - cbn [app truthy_list negb].
    destruct (batch_loop_outcome fuel (λ fetched, fetched)
                (upsert_sql table (k :: pk_cols)
                   (non_key (k :: pk_cols) upd_cols)) b 0
                (sql_execute srv
                   (source_select schema table
                      (k :: pk_cols ++ non_key (k :: pk_cols) upd_cols)
                      (k :: pk_cols) w) s))
      as [(t & s1 & ->)| ->];
      repeat split; intros; discriminate.
Qed.

End EarlyReturns.

Lemma update_only_noop_witness :
  Actualizar.update_only 4 (Examples.orders_servers ["id"] Examples.three_rows)
    "dbo" "orders" ["id"] ["id"] 2 None (Examples.fresh_cursor [])
  = Db.Returns None (Examples.fresh_cursor []).
Proof.
  destruct (update_only_noop 4
              (Examples.orders_servers ["id"] Examples.three_rows)
              "dbo" "orders" ["id"] ["id"] 2 None (Examples.fresh_cursor []))
    as [[H _] _].
  - discriminate.
  - apply H. intros c Hc. exact Hc.
Defined.

Lemma upsert_mode_outcomes_witness :
  Actualizar.upsert_mode 4 (Examples.orders_servers [] Examples.three_rows)
    "dbo" "orders" [] ["status"] 2 None (Examples.fresh_cursor [])
  = Db.Exits 1 (Examples.fresh_cursor []).
Proof.
  destruct (upsert_mode_outcomes 4
              (Examples.orders_servers [] Examples.three_rows)
              "dbo" "orders" [] ["status"] 2 None (Examples.fresh_cursor []))
    as [[H _] _].
  apply H. reflexivity.
Defined.

(* ================================================================== *)
(** * Further properties of the wizard of actualizar.py *)
(* ================================================================== *)

Section ColumnLists.
Import Py Db Actualizar.

Lemma elem_of_rev {A} (x : A) (l : list A) : x ∈ rev l ↔ x ∈ l.
Proof. rewrite !list_elem_of_In. symmetry. apply in_rev. Qed.

Lemma elem_of_fromkeys (seen l : list string) (x : string) :
  x ∈ fromkeys seen l ↔ x ∈ l ∧ x ∉ seen.
Proof.
  revert seen. induction l as [|y l IH]; intros seen; simpl.
  - rewrite elem_of_nil. tauto.
  - case_bool_decide as Hy.
    + rewrite IH, elem_of_cons. split; [tauto|].
      intros [[->|Hx] Hn]; [contradiction|tauto].
    + rewrite !elem_of_cons, IH, elem_of_cons.
      destruct (decide (x = y)) as [->|Hne]; [tauto|]. tauto.
Qed.

Lemma NoDup_fromkeys (seen l : list string) : NoDup (fromkeys seen l).
Proof.
  revert seen. induction l as [|y l IH]; intros seen; simpl;
    [constructor|].
  case_bool_decide; [apply IH|].
  constructor; [|apply IH].
  rewrite elem_of_fromkeys, elem_of_cons. tauto.
Qed.

Lemma fromkeys_app (seen l1 l2 : list string) :
  fromkeys seen (l1 ++ l2)
  = fromkeys seen l1 ++ fromkeys (rev (fromkeys seen l1) ++ seen) l2.
Proof.
  revert seen. induction l1 as [|x l1 IH]; intros seen; simpl;
    [reflexivity|].
  case_bool_decide; [apply IH|].
  rewrite IH. simpl. by rewrite <- app_assoc.
Qed.

Lemma fromkeys_NoDup_id (seen l : list string) :
  NoDup l → (∀ x, x ∈ l → x ∉ seen) → fromkeys seen l = l.
Proof.
  intros Hnd. revert seen. induction Hnd as [|x l Hx Hnd IH]; intros seen Hs;
    simpl; [reflexivity|].
  rewrite bool_decide_eq_false_2 by (apply Hs, list_elem_of_here).
  f_equal. apply IH. intros y Hy. rewrite elem_of_cons.
  intros [->|Hin]; [contradiction|].
  apply (Hs y); [by apply list_elem_of_further|exact Hin].
Qed.

Lemma non_key_all (pk_cols l : list string) :
  (∀ x, x ∈ l → x ∉ pk_cols) → non_key pk_cols l = l.
Proof.
  intros H. unfold non_key. induction l as [|x l IH]; [reflexivity|].
  rewrite filter_cons_True by (apply H, list_elem_of_here).
  f_equal. apply IH. intros y Hy. by apply H, list_elem_of_further.
Qed.

Lemma non_key_self (pk_cols : list string) : non_key pk_cols pk_cols = [].
Proof. apply non_key_nil. tauto. Qed.

(** X7. In the UPSERT path the wizard hands [upsert_mode] the list
    [list(dict.fromkeys(pk + upd_cols))]. When the key columns are
    distinct, the columns that [upsert_mode] then fetches and inserts are
    exactly that list: the key columns first, then the other selected
    columns in the order of their first occurrence, none twice; its
    members are the key columns and the selected columns. *)
Theorem upsert_columns_deduplicated (pk_cols upd_cols : list string) :
  NoDup pk_cols →
  let need_cols := fromkeys [] (pk_cols ++ upd_cols) in
  pk_cols ++ non_key pk_cols need_cols = need_cols
  ∧ NoDup need_cols
  ∧ (∀ x, x ∈ need_cols ↔ x ∈ pk_cols ∨ x ∈ upd_cols)
  ∧ need_cols = pk_cols ++ fromkeys (rev pk_cols) upd_cols.
Proof.
  intros Hnd need_cols.
  assert (Hneed : need_cols = pk_cols ++ fromkeys (rev pk_cols) upd_cols).
  { unfold need_cols. rewrite fromkeys_app.
    rewrite (fromkeys_NoDup_id [] pk_cols Hnd)
      by (intros x _; apply not_elem_of_nil).
    by rewrite app_nil_r. }
  split; [|split; [|split]].
  - rewrite Hneed at 1. unfold non_key. rewrite filter_app.
    fold (non_key pk_cols pk_cols).
    fold (non_key pk_cols (fromkeys (rev pk_cols) upd_cols)).
    rewrite non_key_self, non_key_all; [by rewrite Hneed|].
    intros x Hx. apply elem_of_fromkeys in Hx as [_ Hx].
    by rewrite elem_of_rev in Hx.
  - apply NoDup_fromkeys.
  - intros x. unfold need_cols. rewrite elem_of_fromkeys, elem_of_app.
    pose proof (not_elem_of_nil x). tauto.
  - exact Hneed.
Qed.

Lemma choose_columns_interactive_known (all_cols : list string)
  (typed : option (list string)) (selection : list string) :
  choose_columns_interactive all_cols typed = Some selection →
  ∀ c, c ∈ selection → c ∈ all_cols.
Proof.
  unfold choose_columns_interactive. destruct typed as [chosen|].
  - destruct (filter (λ c, c ∉ all_cols) chosen) as [|m l] eqn:Hf;
      cbn [truthy_list]; [|discriminate].
    intros H. injection H as <-. by apply (non_key_nil all_cols chosen).
  - intros H. injection H as <-. tauto.
Qed.

(** X8. [choose_columns_interactive] returns every column for an empty
    line. For a typed list it returns that list when all its entries are
    known columns, and ends the program otherwise. So a returned selection
    only names known columns. *)
Theorem choose_columns_interactive_validates (all_cols : list string)
  (typed : option (list string)) :
  (typed = None → choose_columns_interactive all_cols typed = Some all_cols)
  ∧ (∀ chosen, typed = Some chosen →
       ((∀ c, c ∈ chosen → c ∈ all_cols)
        ↔ choose_columns_interactive all_cols typed = Some chosen)
       ∧ ((∃ c, c ∈ chosen ∧ c ∉ all_cols)
          ↔ choose_columns_interactive all_cols typed = None))
  ∧ (∀ selection, choose_columns_interactive all_cols typed = Some selection →
       ∀ c, c ∈ selection → c ∈ all_cols).
Proof.
  assert (Hmissing : ∀ chosen,
            filter (λ c, c ∉ all_cols) chosen = []
            ↔ ∀ c, c ∈ chosen → c ∈ all_cols).
  { intros chosen. apply (non_key_nil all_cols chosen). }
  split; [intros ->; reflexivity|]. split.
  - intros chosen ->. unfold choose_columns_interactive.
    rewrite <- Hmissing.
    destruct (filter (λ c, c ∉ all_cols) chosen) as [|m l] eqn:Hf;
      cbn [truthy_list].
    + split; [tauto|]. split; [|discriminate].
      intros (c & Hc & Hn).
      assert (Hin : c ∈ filter (λ c, c ∉ all_cols) chosen)
        by (apply list_elem_of_filter; by split).
      rewrite Hf in Hin. by apply elem_of_nil in Hin.
    + split; [split; discriminate|]. split; [reflexivity|]. intros _.
      assert (Hin : m ∈ filter (λ c, c ∉ all_cols) chosen)
        by (rewrite Hf; apply list_elem_of_here).
      apply list_elem_of_filter in Hin as [Hn Hc]. by exists m.
  - intros selection. apply choose_columns_interactive_known.
Qed.

End ColumnLists.

Lemma upsert_columns_deduplicated_witness :
  Actualizar.fromkeys [] (["id"] ++ ["status"; "id"; "total"; "status"])
  = ["id"; "status"; "total"].
Proof.
  destruct (upsert_columns_deduplicated ["id"]
              ["status"; "id"; "total"; "status"]) as (_ & _ & _ & H).
  - apply NoDup_singleton.
  - rewrite H. reflexivity.
Defined.

Lemma choose_columns_interactive_validates_witness :
  Actualizar.choose_columns_interactive ["status"; "total"] None
  = Some ["status"; "total"]
  ∧ Actualizar.choose_columns_interactive ["status"; "total"] (Some ["total"])
    = Some ["total"]
  ∧ Actualizar.choose_columns_interactive ["status"; "total"] (Some ["price"])
    = None.
Proof.
  split; [|split].
  - destruct (choose_columns_interactive_validates ["status"; "total"] None)
      as (H & _). apply H. reflexivity.
  - destruct (choose_columns_interactive_validates ["status"; "total"]
                (Some ["total"])) as (_ & H & _).
    destruct (H ["total"] eq_refl) as [[Hok _] _]. apply Hok.
    intros c Hc. apply list_elem_of_singleton in Hc as ->.
    apply list_elem_of_further, list_elem_of_here.
  - destruct (choose_columns_interactive_validates ["status"; "total"]
                (Some ["price"])) as (_ & H & _).
    destruct (H ["price"] eq_refl) as [_ [Hbad _]]. apply Hbad.
    exists "price". split; [apply list_elem_of_here|].
    apply (bool_decide_unpack _). vm_compute. exact I.
Defined.

Section WizardRuns.
Import Py Db Actualizar.
Context {V : Type}.
Implicit Types (s : session V) (srv : servers V).

Lemma update_only_exits (fuel : nat) srv (schema table : string)
  (pk_cols upd_cols : list string) (b : Z) (w : option string) s code s' :
  update_only fuel srv schema table pk_cols upd_cols b w s = Exits code s' →
  s' = s ∧ code = 1.
Proof.
  unfold update_only. destruct (truthy_list pk_cols); cbn [negb].
  - destruct (truthy_list (non_key pk_cols upd_cols)); cbn [negb];
      [|discriminate].
    destruct (batch_loop_outcome fuel
                (λ fetched, data (reorder (length pk_cols) fetched))
                (upd_sql table pk_cols (non_key pk_cols upd_cols)) b 0
                (sql_execute srv
                   (source_select schema table
                      (pk_cols ++ non_key pk_cols upd_cols) pk_cols w) s))
      as [(t & s1 & ->)| ->]; discriminate.
  - intros H. injection H as <- <-. by split.
Qed.

Lemma upsert_mode_exits (fuel : nat) srv (schema table : string)
  (pk_cols upd_cols : list string) (b : Z) (w : option string) s code s' :
  upsert_mode fuel srv schema table pk_cols upd_cols b w s = Exits code s' →
  s' = s ∧ code = 1.
Proof.
  unfold upsert_mode. destruct (truthy_list pk_cols); cbn [negb].
  - destruct (truthy_list (pk_cols ++ non_key pk_cols upd_cols)); cbn [negb];
      [|discriminate].
    destruct (batch_loop_outcome fuel (λ fetched, fetched)
                (upsert_sql table pk_cols (non_key pk_cols upd_cols)) b 0
                (sql_execute srv
                   (source_select schema table
                      (pk_cols ++ non_key pk_cols upd_cols) pk_cols w) s))
      as [(t & s1 & ->)| ->]; discriminate.
  - intros H. injection H as <- <-. by split.
Qed.

(** X9. Whenever the wizard ends by [sys.exit] (no table, unknown table or
    column, missing key, refusal at the confirmation), it has sent no
    [executemany] and no [commit] to MySQL: an exit never follows a write.
    The exit status is 0 or 1. *)
Theorem main_exits_before_writes (fuel : nat) srv (a : answers) s
  (code : Z) s' :
  main fuel srv a s = Exits code s' →
  (code = 0 ∨ code = 1)
  ∧ ∃ extra, calls s' = calls s ++ extra
             ∧ Forall (λ c, is_mysql_write c = false) extra.
Proof.
  unfold main. cbn [fetch_tables_sqlserver].
  set (tables := sql_tables srv (schema a)).
  destruct (truthy_list tables); cbn [negb].
  2:{ intros H. injection H as <- <-. split; [by left|].
      eexists. split; [reflexivity|]. repeat constructor. }
  set (src := source_table a tables).
  destruct (negb (truthy_str src) || negb (bool_decide (src ∈ tables))).
  { intros H. injection H as <- <-. split; [by right|].
    eexists. split; [reflexivity|]. repeat constructor. }
  cbn [fetch_columns_sqlserver fetch_primary_key_sqlserver].
  destruct (choose_columns_interactive _ _) as [upd|].
  2:{ intros H. injection H as <- <-. split; [by right|].
      eexists. split; [cbn [calls]; rewrite <- !app_assoc; reflexivity|].
      repeat constructor. }
  cbn [fetch_mysql_pk_columns]. unfold mysql_execute, log. cbn [calls pending].
  assert (Hreads : ∀ c0 s0,
    s0 = {| pending := [];
            calls := ((((calls s ++ [SqlExecute tables_query [schema a]])
                        ++ [SqlExecute columns_query [schema a; src]])
                       ++ [SqlExecute Migrar.primary_key_query [schema a; src]])
                      ++ [MyExecute mysql_pk_query [mysql_db a; mysql_table a]]) |} →
    (c0 = 0 ∨ c0 = 1) →
    (c0 = 0 ∨ c0 = 1)
    ∧ ∃ extra, calls s0 = calls s ++ extra
               ∧ Forall (λ c, is_mysql_write c = false) extra).
  { intros c0 s0 -> Hc. split; [exact Hc|]. eexists.
    split; [cbn [calls]; rewrite <- !app_assoc; reflexivity|].
    repeat constructor. }
  destruct (String.prefix "UPSERT" (mode a)
            && negb (truthy_list (mysql_primary_key srv (mysql_db a)
                                    (mysql_table a)))).
  { intros H. injection H as <- <-. apply Hreads; [reflexivity|by right]. }
  destruct (continue_confirmed a); cbn [negb].
  2:{ intros H. injection H as <- <-. apply Hreads; [reflexivity|by left]. }
  destruct (String.prefix "UPDATE" (mode a)).
  - destruct (truthy_list (sql_primary_key srv (schema a) src)); cbn [negb].
    + destruct (update_only _ _ _ _ _ _ _ _ _) as [r s1|e s1|c1 s1|] eqn:Hu;
        try discriminate.
      intros H. injection H as <- <-.
      apply update_only_exits in Hu as [-> ->].
      apply Hreads; [reflexivity|by right].
    + intros H. injection H as <- <-. apply Hreads; [reflexivity|by right].
  - destruct (truthy_list (mysql_primary_key srv (mysql_db a) (mysql_table a)));
      cbn [negb].
    + destruct (upsert_mode _ _ _ _ _ _ _ _ _) as [r s1|e s1|c1 s1|] eqn:Hu;
        try discriminate.
      intros H. injection H as <- <-.
      apply upsert_mode_exits in Hu as [-> ->].
      apply Hreads; [reflexivity|by right].
    + intros H. injection H as <- <-. apply Hreads; [reflexivity|by right].
Qed.

End WizardRuns.

Lemma main_exits_before_writes_witness :
  ∃ extra,
    [Db.SqlExecute Actualizar.tables_query ["dbo"];
     Db.SqlExecute Actualizar.columns_query ["dbo"; "orders"];
     Db.SqlExecute Migrar.primary_key_query ["dbo"; "orders"];
     Db.MyExecute Actualizar.mysql_pk_query ["shop_copy"; "orders"]]
    = [] ++ extra
    ∧ Forall (λ c : Db.call Z, Db.is_mysql_write c = false) extra.
Proof.
  destruct (main_exits_before_writes 1
              (Examples.orders_servers [] Examples.three_rows)
              Examples.update_answers (Examples.fresh_cursor []) 1
              {| Db.pending := [];
                 Db.calls :=
                   [Db.SqlExecute Actualizar.tables_query ["dbo"];
                    Db.SqlExecute Actualizar.columns_query ["dbo"; "orders"];
                    Db.SqlExecute Migrar.primary_key_query ["dbo"; "orders"];
                    Db.MyExecute Actualizar.mysql_pk_query
                      ["shop_copy"; "orders"]] |})
    as [_ H].
  - vm_compute. reflexivity.
  - exact H.
Defined.

Section WizardDataPhase.
Import Py Db Actualizar.
Context {V : Type}.
Implicit Types (s : session V) (srv : servers V).

Lemma prefix_upsert_not_update (m : string) :
  String.prefix "UPSERT" m = true → String.prefix "UPDATE" m = false.
Proof.
  intros H. destruct m as [|c1 m]; [discriminate H|].
  rewrite prefix_cons in *.
  destruct (ascii_dec "U" c1); [|reflexivity].
  destruct m as [|c2 m]; [discriminate H|]. rewrite prefix_cons in *.
  destruct (ascii_dec "P" c2); [|reflexivity].
  destruct m as [|c3 m]; [discriminate H|]. rewrite prefix_cons in *.
  destruct (ascii_dec "S" c3) as [<-|]; [reflexivity|discriminate H].
Qed.

Lemma elem_of_safe_columns (meta : list ColumnInfo) (c : string) :
  c ∈ safe_columns meta
  ↔ ∃ col, col ∈ meta ∧ col_name col = c ∧ col_is_identity col = false
           ∧ col_type col ≠ "timestamp" ∧ col_type col ≠ "rowversion".
Proof.
  unfold safe_columns. rewrite list_elem_of_fmap. split.
  - intros (col & -> & Hcol). apply list_elem_of_filter in Hcol as [[Hid Hty] Hin].
    exists col. rewrite !elem_of_cons, elem_of_nil in Hty. tauto.
  - intros (col & Hin & <- & Hid & Ht1 & Ht2). exists col. split; [reflexivity|].
    apply list_elem_of_filter. split; [|exact Hin]. split; [exact Hid|].
    rewrite !elem_of_cons, elem_of_nil. tauto.
Qed.

(** X10. A confirmed run of the wizard in UPDATE mode on a source table
    with a key, with a valid selection that leaves a column to update,
    returns after the whole transfer. It sends the three catalog reads to
    SQL Server and one to MySQL, then the SELECT over the key columns and
    the columns to update in batches of 10,000. The UPDATE statement names
    the table by the name of the source table; the name given for the
    MySQL table only serves the catalog read. Every column of the SET
    clause is a source column that is neither an identity column nor of
    type timestamp or rowversion, and no key column. *)
Theorem main_update_runs (fuel : nat) srv (a : answers) s
  (upd_cols : list string) :
  String.prefix "UPDATE" (mode a) = true →
  let tables := sql_tables srv (schema a) in
  let src := source_table a tables in
  let meta := (fetch_columns_sqlserver srv (schema a) src s).1 in
  let pk_sql := sql_primary_key srv (schema a) src in
  truthy_str src = true → src ∈ tables →
  choose_columns_interactive (safe_columns meta) (columns_typed a)
  = Some upd_cols →
  continue_confirmed a = true →
  pk_sql ≠ [] → non_key pk_sql upd_cols ≠ [] →
  let sel := source_select (schema a) src (pk_sql ++ non_key pk_sql upd_cols)
               pk_sql (or_none (where_typed a)) in
  (length (select srv sel) < fuel)%nat →
  main fuel srv a s
  = Returns tt
      {| pending := [];
         calls := calls s
                  ++ [SqlExecute tables_query [schema a];
                      SqlExecute columns_query [schema a; src];
                      SqlExecute Migrar.primary_key_query [schema a; src];
                      MyExecute mysql_pk_query [mysql_db a; mysql_table a];
                      SqlExecute sel []]
                  ++ Spec.loop_calls (map (bind_row (length pk_sql)))
                       (upd_sql src pk_sql (non_key pk_sql upd_cols)) 10000
                       (Spec.batches 10000 (select srv sel)) |}
  ∧ (∀ c, c ∈ non_key pk_sql upd_cols →
       (c ∉ pk_sql)
       ∧ ∃ col, col ∈ meta ∧ col_name col = c ∧ col_is_identity col = false
                ∧ col_type col ≠ "timestamp" ∧ col_type col ≠ "rowversion").
Proof.
  intros Hmode tables src meta pk_sql Hsrc Hin Hcols Hgo Hpk Hupd sel Hfuel.
  pose proof (prefix_update_not_upsert _ Hmode) as Hups. split.
  - unfold main. cbn [fetch_tables_sqlserver]. fold tables.
    rewrite truthy_list_true by (intros Hnil; rewrite Hnil in Hin;
                                 by apply elem_of_nil in Hin).
    cbn [negb]. fold src. rewrite Hsrc, (bool_decide_eq_true_2 _ Hin).
    cbn [negb orb].
    cbn [fetch_columns_sqlserver fetch_primary_key_sqlserver fst] in *.
    fold meta. rewrite Hcols.
    cbn [fetch_mysql_pk_columns]. rewrite Hups, Hmode, Hgo.
    fold pk_sql. rewrite (truthy_list_true _ Hpk).
    cbn [andb negb]. rewrite update_only_runs; try assumption; [|lia].
    fold sel. unfold mysql_execute, log. cbn [calls pending].
    rewrite <- !app_assoc. reflexivity.
  - intros c Hc. apply elem_of_non_key in Hc as [Hc Hn]. split; [exact Hn|].
    apply elem_of_safe_columns.
    by apply (choose_columns_interactive_known _ _ _ Hcols).
Qed.

(** X11. A confirmed run of the wizard in UPSERT mode, when the MySQL
    table has a primary key and the selection is valid, returns after the
    whole transfer. The key columns are those of the SQL Server table, or
    those of the MySQL table when the source has none. The SELECT lists
    the key columns followed by the other selected columns, duplicates
    removed, and the rows are written as fetched, in batches of 10,000,
    with an INSERT that names the table by the name of the source table. *)
Theorem main_upsert_runs (fuel : nat) srv (a : answers) s
  (upd_cols : list string) :
  String.prefix "UPSERT" (mode a) = true →
  let tables := sql_tables srv (schema a) in
  let src := source_table a tables in
  let meta := (fetch_columns_sqlserver srv (schema a) src s).1 in
  let pk_sql := sql_primary_key srv (schema a) src in
  let pk_mysql := mysql_primary_key srv (mysql_db a) (mysql_table a) in
  truthy_str src = true → src ∈ tables →
  choose_columns_interactive (safe_columns meta) (columns_typed a)
  = Some upd_cols →
  continue_confirmed a = true →
  pk_mysql ≠ [] →
  let pk_for_upsert := match pk_sql with [] => pk_mysql | _ :: _ => pk_sql end in
  let need_cols := fromkeys [] (pk_for_upsert ++ upd_cols) in
  let sel := source_select (schema a) src
               (pk_for_upsert ++ non_key pk_for_upsert need_cols)
               pk_for_upsert (or_none (where_typed a)) in
  (length (select srv sel) < fuel)%nat →
  main fuel srv a s
  = Returns tt
      {| pending := [];
         calls := calls s
                  ++ [SqlExecute tables_query [schema a];
                      SqlExecute columns_query [schema a; src];
                      SqlExecute Migrar.primary_key_query [schema a; src];
                      MyExecute mysql_pk_query [mysql_db a; mysql_table a];
                      SqlExecute sel []]
                  ++ Spec.loop_calls (λ fetched, fetched)
                       (upsert_sql src pk_for_upsert
                          (non_key pk_for_upsert need_cols)) 10000
                       (Spec.batches 10000 (select srv sel)) |}.
Proof.
  intros Hmode tables src meta pk_sql pk_mysql Hsrc Hin Hcols Hgo Hpk
    pk_for_upsert need_cols sel Hfuel.
  pose proof (prefix_upsert_not_update _ Hmode) as Hupd.
  assert (Hfor : pk_for_upsert ≠ []).
  { unfold pk_for_upsert. destruct pk_sql; [exact Hpk|discriminate]. }
  unfold main. cbn [fetch_tables_sqlserver]. fold tables.
  rewrite truthy_list_true by (intros Hnil; rewrite Hnil in Hin;
                               by apply elem_of_nil in Hin).
  cbn [negb]. fold src. rewrite Hsrc, (bool_decide_eq_true_2 _ Hin).
  cbn [negb orb].
  cbn [fetch_columns_sqlserver fetch_primary_key_sqlserver fst] in *.
  fold meta. rewrite Hcols.
  cbn [fetch_mysql_pk_columns]. rewrite Hupd, Hmode, Hgo.
  fold pk_mysql pk_sql. rewrite (truthy_list_true _ Hpk). cbn [andb negb].
  replace (if truthy_list pk_sql then pk_sql else pk_mysql)
    with pk_for_upsert by (unfold pk_for_upsert; by destruct pk_sql).
  fold need_cols.
  rewrite upsert_mode_runs; try assumption; [|lia].
  fold sel. unfold mysql_execute, log. cbn [calls pending].
  rewrite <- !app_assoc. reflexivity.
Qed.

End WizardDataPhase.

Lemma main_update_runs_witness :
  ∃ s',
    Actualizar.main 4 (Examples.orders_servers ["id"] Examples.three_rows)
      Examples.update_answers (Examples.fresh_cursor [])
    = Db.Returns tt s'.
Proof.
  pose proof (main_update_runs 4
                (Examples.orders_servers ["id"] Examples.three_rows)
                Examples.update_answers (Examples.fresh_cursor []) ["status"])
    as H.
  cbv zeta in H. destruct H as [Hrun _].
  - reflexivity.
  - reflexivity.
  - apply (bool_decide_unpack _). vm_compute. exact I.
  - vm_compute. reflexivity.
  - reflexivity.
  - discriminate.
  - vm_compute. discriminate.
  - vm_compute. lia.
  - eexists. exact Hrun.
Defined.

Lemma main_upsert_runs_witness :
  ∃ s',
    Actualizar.main 4 (Examples.orders_servers [] Examples.three_rows)
      Examples.upsert_answers (Examples.fresh_cursor [])
    = Db.Returns tt s'
    ∧ Db.SqlExecute
        "SELECT [id], [status], [total] FROM [dbo].[orders] WHERE total > 0  ORDER BY [id];"
        []
      ∈ Db.calls s'.
Proof.
  pose proof (main_upsert_runs 4
                (Examples.orders_servers [] Examples.three_rows)
                Examples.upsert_answers (Examples.fresh_cursor [])
                ["status"; "total"; "status"])
    as H.
  cbv zeta in H. eexists. split.
  - apply H.
    + reflexivity.
    + reflexivity.
    + apply (bool_decide_unpack _). vm_compute. exact I.
    + vm_compute. reflexivity.
    + reflexivity.
    + discriminate.
    + vm_compute. lia.
  - cbn [Db.calls]. apply elem_of_app. right. apply elem_of_app. left.
    do 4 apply list_elem_of_further. apply list_elem_of_here.
Defined.

(* ================================================================== *)
(** * The connection strings *)
(* ================================================================== *)

Section ConnectionStrings.
Import Py.

Lemma count_char_append (c : ascii) (a b : string) :
  Spec.count_char c (a +:+ b)
  = (Spec.count_char c a + Spec.count_char c b)%nat.
Proof.
  induction a as [|x a IH]; [reflexivity|].
  rewrite append_cons. simpl. rewrite IH. lia.
Qed.

Lemma count_char_absent (c : ascii) (s : string) :
  mem_char c s = false → Spec.count_char c s = 0%nat.
Proof.
  induction s as [|d s IH]; simpl; [reflexivity|].
  intros H. apply orb_false_iff in H as [Hd Hs].
  rewrite Ascii.eqb_sym, Hd, (IH Hs). reflexivity.
Qed.

Lemma prefix_two_braces (s : string) :
  String.prefix "}})" s = true → (2 ≤ Spec.count_char "}" s)%nat.
Proof.
  destruct s as [|c1 s]; [discriminate|]. rewrite prefix_cons.
  destruct (ascii_dec "}" c1) as [<-|]; [|discriminate].
  destruct s as [|c2 s]; [discriminate|]. rewrite prefix_cons.
  destruct (ascii_dec "}" c2) as [<-|]; [|discriminate].
  intros _. simpl. lia.
Qed.

(** Replacing [}})] changes nothing in a string with at most one closing
    brace. *)
Lemma replace_braces_id (s : string) :
  (Spec.count_char "}" s ≤ 1)%nat → replace "}})" "}};" s = s.
Proof.
  unfold replace. induction s as [|c s IH]; intros Hcount; [reflexivity|].
  cbn [replace_from].
  destruct (String.prefix "}})" (String c s)) eqn:Hp.
  - apply prefix_two_braces in Hp. lia.
  - f_equal. apply IH. simpl in Hcount. lia.
Qed.

(** X12. Without DSN, and when neither the driver name nor the server, the
    database, the user or the password holds a closing brace, the
    connection string of actualizar.py keeps the closing parenthesis
    written after the driver name: it is [DRIVER={driver});SERVER=...].
    The [replace] meant to repair it looks for [}})], which does not occur,
    and changes nothing. The string differs from the one of
    migrar_sqlserver_a_mysql.py, [DRIVER={driver};SERVER=...], by that
    parenthesis only. *)
Theorem connect_sqlserver_keeps_parenthesis (dsn server : option string)
  (database : string) (user password : option string) (driver : string) :
  truthy_opt_str dsn = false →
  mem_char "}" driver = false →
  mem_char "}" (fmt_opt_str server) = false →
  mem_char "}" database = false →
  mem_char "}" (fmt_opt_str user) = false →
  mem_char "}" (fmt_opt_str password) = false →
  ∃ rest,
    Actualizar.connect_sqlserver dsn server database user password driver
    = "DRIVER={" +:+ driver +:+ "})" +:+ rest
    ∧ Migrar.connect_sqlserver dsn server database user password driver
      = "DRIVER={" +:+ driver +:+ "}" +:+ rest
    ∧ rest
      = ";SERVER=" +:+ fmt_opt_str server +:+ ";DATABASE=" +:+ database
        +:+ ";"
        +:+ (if truthy_opt_str user
             then "UID=" +:+ fmt_opt_str user +:+ ";PWD="
                  +:+ fmt_opt_str password +:+ ";"
             else "Trusted_Connection=Yes;")
        +:+ "Encrypt=No;TrustServerCertificate=Yes;".
Proof.
  intros Hdsn Hd Hs Hb Hu Hp.
  apply count_char_absent in Hd, Hs, Hb, Hu, Hp.
  eexists. split; [|split; [|reflexivity]].
  - unfold Actualizar.connect_sqlserver. rewrite Hdsn. cbv zeta.
    rewrite replace_braces_id.
    + repeat rewrite append_assoc. reflexivity.
    + destruct (truthy_opt_str user);
        repeat rewrite count_char_append; rewrite ?Hd, ?Hs, ?Hb, ?Hu, ?Hp;
        simpl; lia.
  - unfold Migrar.connect_sqlserver. rewrite Hdsn. cbv zeta.
    repeat rewrite append_assoc. reflexivity.
Qed.

End ConnectionStrings.

Lemma connect_sqlserver_keeps_parenthesis_witness :
  Actualizar.connect_sqlserver None (Some "localhost") "shop" None None
    "ODBC Driver 17 for SQL Server"
  = "DRIVER={ODBC Driver 17 for SQL Server});SERVER=localhost;DATABASE=shop;Trusted_Connection=Yes;Encrypt=No;TrustServerCertificate=Yes;".
Proof.
  destruct (connect_sqlserver_keeps_parenthesis None (Some "localhost") "shop"
              None None "ODBC Driver 17 for SQL Server")
    as (rest & Hact & _ & Hrest).
  - reflexivity.
  - reflexivity.
  - reflexivity.
  - reflexivity.
  - reflexivity.
  - reflexivity.
  - rewrite Hact, Hrest. vm_compute. reflexivity.
Defined.

(* ================================================================== *)
(** * The wizard of migrar_sqlserver_a_mysql.py *)
(* ================================================================== *)

Section MigrationWizard.
Import Py Db Migrar.
Context {V : Type}.
Implicit Types (s : session V) (srv : servers V).

Lemma copy_table_returns (fuel : nat) srv (schema table : string) (b : Z)
  (only_cols : option (list string)) s :
  0 < b →
  (length (select srv (Spec.copy_select srv schema table only_cols)) < fuel)%nat →
  copy_table fuel srv schema table b only_cols s
  = Returns (Z.of_nat (length (select srv
                                 (Spec.copy_select srv schema table only_cols))))
      {| pending := [];
         calls := calls s ++ Spec.copy_calls srv schema table b only_cols |}.
Proof.
  intros Hb Hfuel.
  destruct (copy_table_runs fuel srv schema table b only_cols s Hb Hfuel)
    as (create_sql & Hddl & Hrun).
  rewrite Hrun. unfold Spec.copy_calls. cbv zeta. rewrite Hddl. reflexivity.
Qed.

Lemma copy_table_outcome (fuel : nat) srv (schema table : string) (b : Z)
  (only_cols : option (list string)) s :
  (∃ t s', copy_table fuel srv schema table b only_cols s = Returns t s')
  ∨ copy_table fuel srv schema table b only_cols s = OutOfFuel.
Proof.
  unfold copy_table.
  cbn [Migrar.fetch_columns_sqlserver Migrar.fetch_primary_key_sqlserver].
  destruct (selected_columns _ _ _) as [cols pk].
  destruct (build_create_table_mysql_ok table cols pk) as (parts & _ & ->).
  apply batch_loop_outcome.
Qed.

Lemma copy_tables_outcome (fuel : nat) srv (schema : string)
  (tables : list string) s :
  (∃ s', copy_tables fuel srv schema tables s = Returns tt s')
  ∨ copy_tables fuel srv schema tables s = OutOfFuel.
Proof.
  revert s. induction tables as [|t tables IH]; intros s; simpl.
  - left. eauto.
  - destruct (copy_table_outcome fuel srv schema t 10000 None s)
      as [(n & s1 & ->)| ->]; [apply IH|by right].
Qed.

Lemma copy_tables_returns (fuel : nat) srv (schema : string)
  (tables : list string) s :
  (∀ t, t ∈ tables →
     (length (select srv (Spec.copy_select srv schema t None)) < fuel)%nat) →
  copy_tables fuel srv schema tables s
  = Returns tt
      {| pending := if truthy_list tables then [] else pending s;
         calls := calls s
                  ++ flat_map (λ t, Spec.copy_calls srv schema t 10000 None)
                       tables |}.
Proof.
  revert s. induction tables as [|t tables IH]; intros s Hfuel; simpl.
  - rewrite app_nil_r. by destruct s.
  - rewrite copy_table_returns;
      [|lia|apply Hfuel, list_elem_of_here].
    rewrite IH by (intros t' Ht'; by apply Hfuel, list_elem_of_further).
    cbn [calls pending]. rewrite <- app_assoc.
    by destruct tables.
Qed.

(** X13. In a run in which no database call fails, when the operator
    asks for the whole database, or for all the tables, and confirms, the
    calls of the wizard on the two servers are, from its first one:
    CREATE DATABASE IF NOT EXISTS for the target database, a commit and
    the selection of that database on MySQL; the read of the list of
    tables; then the tables one after the other in the order of that
    list, each copied completely (catalog reads, creation, commit,
    SELECT, all its batches of 10,000 with all its columns, up to the
    fetch that returns no row) before the calls of the next table start.
    No other call is made. *)
Theorem main_copies_tables_in_order (fuel : nat) srv (a : answers) s :
  migra_db_completa a = true ∨ choice a = "Todas las tablas" →
  confirm_all a = true →
  let tables := sql_tables srv (answered_schema a) in
  tables ≠ [] →
  (∀ t, t ∈ tables →
     (length (select srv (Spec.copy_select srv (answered_schema a) t None))
      < fuel)%nat) →
  main fuel srv a s
  = Returns tt
      {| pending := [];
         calls := calls s
                  ++ [MyExecute
                        ("CREATE DATABASE IF NOT EXISTS `" +:+ mysql_db a
                         +:+ "` DEFAULT CHARSET utf8mb4;") [];
                      MyCommit;
                      MySelectDb (mysql_db a);
                      SqlExecute tables_query [answered_schema a]]
                  ++ flat_map
                       (λ t, Spec.copy_calls srv (answered_schema a) t
                               10000 None)
                       tables |}.
Proof.
  intros Hmode Hgo tables Hne Hfuel.
  assert (Hall : ∀ s0, migrate_all fuel srv a s0
                 = Returns tt
                     {| pending := [];
                        calls := calls s0
                                 ++ SqlExecute tables_query [answered_schema a]
                                    :: flat_map
                                         (λ t, Spec.copy_calls srv
                                                 (answered_schema a) t 10000
                                                 None)
                                         tables |}).
  { intros s0. unfold migrate_all. cbn [fetch_tables_sqlserver].
    fold tables. rewrite (truthy_list_true _ Hne), Hgo. cbn [negb].
    rewrite copy_tables_returns by exact Hfuel.
    rewrite (truthy_list_true _ Hne). cbn [calls].
    rewrite <- app_assoc. reflexivity. }
  assert (Hlog : calls (prepare_mysql a s)
                 = calls s
                   ++ [MyExecute (create_database_sql (mysql_db a)) [];
                       MyCommit; MySelectDb (mysql_db a)]).
  { unfold prepare_mysql, commit, mysql_execute, log. cbn [calls].
    rewrite <- !app_assoc. reflexivity. }
  assert (Hend : ∀ l : list (call V),
            calls (prepare_mysql a s) ++ SqlExecute tables_query [answered_schema a] :: l
            = calls s
              ++ [MyExecute
                    ("CREATE DATABASE IF NOT EXISTS `" +:+ mysql_db a
                     +:+ "` DEFAULT CHARSET utf8mb4;") [];
                  MyCommit; MySelectDb (mysql_db a);
                  SqlExecute tables_query [answered_schema a]] ++ l).
  { intros l. rewrite Hlog, <- app_assoc. reflexivity. }
  unfold main. cbv zeta. destruct Hmode as [->| ->].
  - rewrite Hall, Hend. reflexivity.
  - destruct (migra_db_completa a); rewrite Hall, Hend; reflexivity.
Qed.

(** X14. Whenever the wizard of the migration ends by [sys.exit] (no
    table, refusal at a confirmation, unknown column), what MySQL has
    received from it is the preparation of the target database and
    nothing more: CREATE DATABASE IF NOT EXISTS, a commit and the
    selection of the database. No table has been created and no row
    written; every later call of the run is a read of the SQL Server
    catalog. The exit status is 0 or 1. *)
Theorem main_exits_leave_mysql_untouched (fuel : nat) srv (a : answers) s
  (code : Z) s' :
  main fuel srv a s = Exits code s' →
  (code = 0 ∨ code = 1)
  ∧ ∃ extra,
      calls s'
      = calls s
        ++ [MyExecute
              ("CREATE DATABASE IF NOT EXISTS `" +:+ mysql_db a
               +:+ "` DEFAULT CHARSET utf8mb4;") [];
            MyCommit;
            MySelectDb (mysql_db a)]
        ++ extra
      ∧ Forall (λ c, ∃ sql params, c = SqlExecute sql params) extra.
Proof.
  assert (Hall : ∀ s code s', migrate_all fuel srv a s = Exits code s' →
            (code = 0 ∨ code = 1)
            ∧ ∃ extra, calls s' = calls s ++ extra
                       ∧ Forall (λ c, ∃ sql params, c = SqlExecute sql params)
                           extra).
  { clear s code s'. intros s code s'. unfold migrate_all.
    cbn [fetch_tables_sqlserver].
    destruct (truthy_list _); cbn [negb].
    - destruct (confirm_all a); cbn [negb].
      + destruct (copy_tables_outcome fuel srv (answered_schema a)
                    (sql_tables srv (answered_schema a))
                    {| pending := [];
                       calls := calls s
                                ++ [SqlExecute tables_query
                                      [answered_schema a]] |})
          as [(s1 & ->)| ->]; discriminate.
      + intros H. injection H as <- <-. split; [by left|].
        eexists. split; [reflexivity|]. repeat econstructor.
    - intros H. injection H as <- <-. split; [by left|].
      eexists. split; [reflexivity|]. repeat econstructor. }
  assert (Hone : ∀ s code s', migrate_one fuel srv a s = Exits code s' →
            (code = 0 ∨ code = 1)
            ∧ ∃ extra, calls s' = calls s ++ extra
                       ∧ Forall (λ c, ∃ sql params, c = SqlExecute sql params)
                           extra).
  { clear s code s'. intros s code s'. unfold migrate_one. cbv zeta.
    cbn [fetch_tables_sqlserver].
    destruct (truthy_list _); cbn [negb].
    2:{ intros H. injection H as <- <-. split; [by left|].
        eexists. split; [reflexivity|]. repeat econstructor. }
    destruct (ask_table _ _) as [table|]; [|discriminate].
    destruct (String.eqb (col_choice a) "Todas las columnas").
    { destruct (copy_table_outcome fuel srv (answered_schema a) table 10000
                  None
                  {| pending := [];
                     calls := calls s
                              ++ [SqlExecute tables_query
                                    [answered_schema a]] |})
        as [(n & s1 & ->)| ->]; discriminate. }
    cbn [Migrar.fetch_columns_sqlserver].
    destruct (choose_columns_interactive _ _) as [only_cols|].
    2:{ intros H. injection H as <- <-. split; [by right|].
        eexists. split; [cbn [calls]; rewrite <- !app_assoc; reflexivity|].
        repeat econstructor. }
    destruct (risky_columns _ _) as [risky|e]; [|discriminate].
    destruct (truthy_list risky && negb (risky_confirmed a)).
    { intros H. injection H as <- <-. split; [by left|].
      eexists. split; [cbn [calls]; rewrite <- !app_assoc; reflexivity|].
      repeat econstructor. }
    match goal with
    | |- context [copy_table ?f ?sv ?sc ?t ?b ?o ?s0] =>
        destruct (copy_table_outcome f sv sc t b o s0)
          as [(n & s1 & ->)| ->]; discriminate
    end. }
  assert (Hlog : calls (prepare_mysql a s)
                 = calls s
                   ++ [MyExecute
                         ("CREATE DATABASE IF NOT EXISTS `" +:+ mysql_db a
                          +:+ "` DEFAULT CHARSET utf8mb4;") [];
                       MyCommit; MySelectDb (mysql_db a)]).
  { unfold prepare_mysql, commit, mysql_execute, log. cbn [calls].
    rewrite <- !app_assoc. reflexivity. }
  assert (Hflow : ∀ flow : outcome V unit,
            (∀ code s', flow = Exits code s' →
               (code = 0 ∨ code = 1)
               ∧ ∃ extra, calls s' = calls (prepare_mysql a s) ++ extra
                          ∧ Forall (λ c, ∃ sql params, c = SqlExecute sql params)
                              extra) →
            match flow with
            | Raises e s => Returns tt (log MyRollback s)
            | r => r
            end = Exits code s' →
            (code = 0 ∨ code = 1)
            ∧ ∃ extra,
                calls s'
                = calls s
                  ++ [MyExecute
                        ("CREATE DATABASE IF NOT EXISTS `" +:+ mysql_db a
                         +:+ "` DEFAULT CHARSET utf8mb4;") [];
                      MyCommit; MySelectDb (mysql_db a)]
                  ++ extra
                ∧ Forall (λ c, ∃ sql params, c = SqlExecute sql params) extra).
  { intros flow Hex H. destruct flow; try discriminate.
    injection H as -> ->.
    destruct (Hex code s' eq_refl) as (Hcode & extra & Hcalls & Hextra).
    split; [exact Hcode|]. exists extra. split; [|exact Hextra].
    rewrite Hcalls, Hlog, <- app_assoc. reflexivity. }
  unfold main. cbv zeta.
  destruct (migra_db_completa a).
  - apply Hflow, Hall.
  - destruct (String.eqb (choice a) "Todas las tablas").
    + apply Hflow, Hall.
    + apply Hflow, Hone.
Qed.

End MigrationWizard.

Lemma main_copies_tables_in_order_witness :
  ∃ s',
    Migrar.main 4 (Examples.orders_servers ["id"] Examples.three_rows)
      (Examples.whole_database true) (Examples.fresh_cursor [])
    = Db.Returns tt s'
    ∧ take 4 (Db.calls s')
      = [Db.MyExecute
           "CREATE DATABASE IF NOT EXISTS `shop_copy` DEFAULT CHARSET utf8mb4;"
           [];
         Db.MyCommit;
         Db.MySelectDb "shop_copy";
         Db.SqlExecute Migrar.tables_query ["dbo"]].
Proof.
  eexists. split.
  - apply (main_copies_tables_in_order 4
             (Examples.orders_servers ["id"] Examples.three_rows)
             (Examples.whole_database true) (Examples.fresh_cursor [])).
    + left. reflexivity.
    + reflexivity.
    + discriminate.
    + intros t _. vm_compute. lia.
  - reflexivity.
Defined.

Lemma main_exits_leave_mysql_untouched_witness :
  ∃ extra,
    [Db.MyExecute
       "CREATE DATABASE IF NOT EXISTS `shop_copy` DEFAULT CHARSET utf8mb4;" [];
     Db.MyCommit;
     Db.MySelectDb "shop_copy";
     Db.SqlExecute Migrar.tables_query ["dbo"]]
    = [] ++ [Db.MyExecute
               "CREATE DATABASE IF NOT EXISTS `shop_copy` DEFAULT CHARSET utf8mb4;"
               [];
             Db.MyCommit;
             Db.MySelectDb "shop_copy"] ++ extra
    ∧ Forall (λ c : Db.call Z, ∃ sql params, c = Db.SqlExecute sql params)
        extra.
Proof.
  destruct (main_exits_leave_mysql_untouched 4
              (Examples.orders_servers ["id"] Examples.three_rows)
              (Examples.whole_database false) (Examples.fresh_cursor []) 0
              {| Db.pending := [];
                 Db.calls :=
                   [Db.MyExecute
                      "CREATE DATABASE IF NOT EXISTS `shop_copy` DEFAULT CHARSET utf8mb4;"
                      [];
                    Db.MyCommit;
                    Db.MySelectDb "shop_copy";
                    Db.SqlExecute Migrar.tables_query ["dbo"]] |})
    as [_ H].
  - reflexivity.
  - exact H.
Defined.

Section RiskyColumns.
Import Py Db Migrar.

Lemma lookup_foldl_insert_other (acc : gmap string Column)
  (meta : list Column) (c : string) :
  c ∉ map name meta →
  foldl (λ d m, <[name m := m]> d) acc meta !! c = acc !! c.
Proof.
  revert acc. induction meta as [|x meta IH]; intros acc Hc; simpl;
    [reflexivity|].
  simpl in Hc. apply not_elem_of_cons in Hc as [Hx Hc].
  rewrite IH by exact Hc. by rewrite lookup_insert_ne.
Qed.

Lemma lookup_foldl_insert_member (acc : gmap string Column)
  (meta : list Column) (m : Column) :
  NoDup (map name meta) → m ∈ meta →
  foldl (λ d m, <[name m := m]> d) acc meta !! name m = Some m.
Proof.
  revert acc. induction meta as [|x meta IH]; intros acc Hnd Hm; simpl.
  - by apply elem_of_nil in Hm.
  - simpl in Hnd. apply NoDup_cons in Hnd as [Hx Hnd].
    apply elem_of_cons in Hm as [->|Hm].
    + rewrite lookup_foldl_insert_other by exact Hx.
      apply lookup_insert_eq.
    + by apply IH.
Qed.

Lemma lookup_meta_by_name (meta : list Column) (c : string) (m : Column) :
  NoDup (map name meta) →
  meta_by_name meta !! c = Some m ↔ m ∈ meta ∧ name m = c.
Proof.
  intros Hnd. unfold meta_by_name. split.
  - intros Hm. destruct (decide (c ∈ map name meta)) as [Hc|Hc].
    + apply list_elem_of_fmap in Hc as (m' & -> & Hm').
      rewrite (lookup_foldl_insert_member ∅ meta m' Hnd Hm') in Hm.
      injection Hm as <-. by split.
    + rewrite lookup_foldl_insert_other in Hm by exact Hc.
      by rewrite lookup_empty in Hm.
  - intros [Hm <-]. by apply lookup_foldl_insert_member.
Qed.

(** X15. When the column names of the catalog are distinct and every
    excluded name is one of them, the computation of the warning about
    excluded columns raises no [KeyError], and the columns it lists are
    exactly the excluded columns that are NOT NULL and whose default is
    [None]. *)
Theorem risky_columns_listed (meta : list Column) (excluded : list string) :
  NoDup (map name meta) →
  (∀ c, c ∈ excluded → c ∈ map name meta) →
  ∃ risky,
    risky_columns (meta_by_name meta) excluded = Ok risky
    ∧ ∀ c, c ∈ risky
           ↔ c ∈ excluded
             ∧ ∃ m, m ∈ meta ∧ name m = c ∧ nullable m = false
                    ∧ default m = None.
Proof.
  intros Hnd. induction excluded as [|x excluded IH]; intros Hknown.
  - exists []. split; [reflexivity|]. intros c.
    rewrite !elem_of_nil. tauto.
  - destruct IH as (risky & Hrisky & Hspec).
    { intros c Hc. by apply Hknown, list_elem_of_further. }
    assert (Hx : x ∈ map name meta) by apply Hknown, list_elem_of_here.
    apply list_elem_of_fmap in Hx as (m & -> & Hm).
    assert (Hlook : meta_by_name meta !! name m = Some m)
      by (by apply lookup_meta_by_name).
    cbn [risky_columns]. rewrite Hlook, Hrisky.
    eexists. split; [reflexivity|]. intros c.
    assert (Huniq : ∀ m', m' ∈ meta → name m' = name m → m' = m).
    { intros m' Hm' Heq.
      assert (Hl : meta_by_name meta !! name m = Some m')
        by (apply lookup_meta_by_name; [exact Hnd|by split]).
      rewrite Hlook in Hl. by injection Hl. }
    destruct (nullable m) eqn:Hnull; cbn [negb andb];
      [|destruct (default m) as [d|] eqn:Hdef].
    + rewrite Hspec, elem_of_cons. split.
      * intros [Hc Hm']. split; [by right|exact Hm'].
      * intros [[->|Hc] (m' & Hm' & Hname & Hn & Hd)]; [|by eauto 10].
        apply Huniq in Hname as ->; [|exact Hm']. congruence.
    + rewrite Hspec, elem_of_cons. split.
      * intros [Hc Hm']. split; [by right|exact Hm'].
      * intros [[->|Hc] (m' & Hm' & Hname & Hn & Hd)]; [|by eauto 10].
        apply Huniq in Hname as ->; [|exact Hm']. congruence.
    + rewrite !elem_of_cons, Hspec. split.
      * intros [->|[Hc Hm']]; [|by split; [right|]].
        split; [by left|]. by exists m.
      * intros [[->|Hc] Hm']; [by left|]. right. by split.
Qed.

End RiskyColumns.

Lemma risky_columns_listed_witness :
  Migrar.risky_columns
    (Migrar.meta_by_name
       [Examples.orders_id; Examples.customer_id; Examples.orders_status])
    ["customer_id"; "status"]
  = Py.Ok ["customer_id"].
Proof.
  destruct (risky_columns_listed
              [Examples.orders_id; Examples.customer_id; Examples.orders_status]
              ["customer_id"; "status"]) as (risky & Hrisky & _).
  - apply (bool_decide_unpack _). vm_compute. exact I.
  - intros c Hc. apply elem_of_cons in Hc as [->|Hc].
    + apply (bool_decide_unpack _). vm_compute. exact I.
    + apply list_elem_of_singleton in Hc as ->.
      apply (bool_decide_unpack _). vm_compute. exact I.
  - rewrite Hrisky. vm_compute in Hrisky. injection Hrisky as <-. reflexivity.
Defined.

(* ================================================================== *)
(** * Literal defaults *)
(* ================================================================== *)

Section LiteralDefaults.
Import Py Db Migrar.

Lemma lstrip_where_append_stop (p : ascii → bool) (a : string) (c : ascii)
  (r : string) :
  p c = false →
  lstrip_where p (a +:+ String c r) = lstrip_where p a +:+ String c r.
Proof.
  intros Hc. induction a as [|x a IH].
  - change ("" +:+ String c r) with (String c r). simpl. by rewrite Hc.
  - rewrite append_cons. simpl. destruct (p x); [exact IH|].
    by rewrite append_cons.
Qed.

Lemma rev_snoc (s : string) (c : ascii) :
  String.rev (s +:+ String c "") = String c (String.rev s).
Proof. rewrite rev_append. reflexivity. Qed.

(** [strip] leaves a string alone when neither its first nor its last
    character is to be stripped. *)
Lemma strip_where_fixed (p : ascii → bool) (a z : ascii) (m : string) :
  p a = false → p z = false →
  strip_where p (String a (m +:+ String z ""))
  = String a (m +:+ String z "").
Proof.
  intros Ha Hz. unfold strip_where, rstrip_where. simpl lstrip_where.
  rewrite Ha. rewrite <- append_cons, rev_snoc. simpl lstrip_where.
  rewrite Hz. rewrite <- rev_snoc. apply rev_involutive.
Qed.

(** [strip] removes one stripped character at each end when the next ones
    are kept. *)
Lemma strip_where_peel (p : ascii → bool) (a z b y : ascii) (m : string) :
  p a = true → p z = true → p b = false → p y = false →
  strip_where p (String a (String b (m +:+ String y "") +:+ String z ""))
  = String b (m +:+ String y "").
Proof.
  intros Ha Hz Hb Hy. unfold strip_where, rstrip_where.
  simpl lstrip_where. rewrite Ha, Hb.
  rewrite <- append_cons, rev_snoc. simpl lstrip_where.
  rewrite Hz. rewrite <- append_cons, rev_snoc. simpl lstrip_where.
  rewrite Hy. rewrite <- rev_snoc. apply rev_involutive.
Qed.

Lemma mem_char_append (c : ascii) (a b : string) :
  mem_char c (a +:+ b) = mem_char c a || mem_char c b.
Proof.
  induction a as [|x a IH]; [reflexivity|].
  rewrite append_cons. cbn [mem_char]. rewrite IH. by rewrite orb_assoc.
Qed.

Lemma mem_char_rev (c : ascii) (s : string) :
  mem_char c (String.rev s) = mem_char c s.
Proof.
  induction s as [|x s IH]; [reflexivity|].
  rewrite rev_cons, mem_char_append, IH. cbn [mem_char].
  rewrite orb_false_r. apply orb_comm.
Qed.

Lemma lstrip_char_absent (c : ascii) (s : string) :
  mem_char c s = false →
  lstrip_where (λ x, mem_char x (String c "")) s = s.
Proof.
  destruct s as [|x s]; [reflexivity|]. cbn [mem_char lstrip_where].
  intros H. apply orb_false_iff in H as [Hx _].
  rewrite Ascii.eqb_sym, Hx. reflexivity.
Qed.

(** Stripping the quotes of a quoted text without quotes gives the text. *)
Lemma strip_quotes (t : string) :
  mem_char "'" t = false →
  strip_chars "'" (String "'" (t +:+ "'")) = t.
Proof.
  intros Ht. unfold strip_chars, strip_where, rstrip_where.
  set (p := λ c : ascii, mem_char c "'").
  assert (Hq : p "'"%char = true) by reflexivity.
  assert (Hp : ∀ s, mem_char "'" s = false → lstrip_where p s = s)
    by (intros s0 Hs0; by apply lstrip_char_absent).
  assert (Hcons : ∀ c s, lstrip_where p (String c s)
                         = if p c then lstrip_where p s else String c s)
    by reflexivity.
  rewrite Hcons, Hq.
  destruct t as [|x t].
  - change ("" +:+ "'") with (String "'" ""). rewrite Hcons, Hq. reflexivity.
  - rewrite append_cons, Hcons.
    assert (Hpx : p x = false).
    { unfold p. cbn [mem_char] in *. apply orb_false_iff in Ht as [Hx _].
      by rewrite Ascii.eqb_sym, Hx. }
    rewrite Hpx. rewrite <- append_cons, rev_snoc, Hcons, Hq.
    rewrite Hp by (by rewrite mem_char_rev).
    apply rev_involutive.
Qed.

Lemma replace_char_absent (c : ascii) (new t : string) :
  mem_char c t = false → replace_char c new t = t.
Proof.
  induction t as [|x t IH]; [reflexivity|].
  cbn [mem_char replace_char]. intros H.
  apply orb_false_iff in H as [Hx Ht].
  rewrite Ascii.eqb_sym, Hx, (IH Ht). reflexivity.
Qed.

Lemma replace_char_append (c : ascii) (new a b : string) :
  replace_char c new (a +:+ b)
  = replace_char c new a +:+ replace_char c new b.
Proof.
  induction a as [|x a IH]; [reflexivity|].
  rewrite append_cons. cbn [replace_char]. destruct (Ascii.eqb x c).
  - by rewrite IH, append_assoc.
  - by rewrite append_cons, IH.
Qed.

Lemma lower_head (c : ascii) (s : string) :
  lower (String c s) = String (lower_char c) (lower s).
Proof. reflexivity. Qed.

(** A text that starts with a quote, or with [N] and a quote, and ends
    with a quote is no number for [float]. *)
Lemma float_parses_quoted (national : bool) (t : string) :
  float_parses ((if national then "N" else "") +:+ String "'" (t +:+ "'"))
  = false.
Proof.
  unfold float_parses. apply andb_false_iff. right.
  destruct national.
  - change ("N" +:+ String "'" (t +:+ "'"))
      with (String "N" (String "'" (t +:+ "'"))).
    change (replace_char "_" "" (String "N" (String "'" (t +:+ "'"))))
      with (String "N" (String "'" (replace_char "_" "" (t +:+ "'")))).
    rewrite replace_char_append.
    change (replace_char "_" "" "'") with "'".
    rewrite <- append_cons.
    rewrite (strip_where_fixed float_space "N" "'") by reflexivity.
    apply orb_false_iff. split.
    + unfold decimal_ok, count_digits, skip_digits. cbn [drop_sign].
      simpl lstrip_where. rewrite Nat.sub_diag. reflexivity.
    + unfold inf_nan_ok. apply str_in_false. cbn [drop_sign].
      rewrite append_cons.
      change (ascii_lower (String "N" (String "'" (replace_char "_" "" t +:+ "'"))))
        with (String "n" (String "'" (ascii_lower (replace_char "_" "" t +:+ "'")))).
      rewrite !elem_of_cons, elem_of_nil.
      intros [H|[H|[H|[]]]]; discriminate H.
  - change ("" +:+ String "'" (t +:+ "'")) with (String "'" (t +:+ "'")).
    change (replace_char "_" "" (String "'" (t +:+ "'")))
      with (String "'" (replace_char "_" "" (t +:+ "'"))).
    rewrite replace_char_append.
    change (replace_char "_" "" "'") with "'".
    rewrite (strip_where_fixed float_space "'" "'") by reflexivity.
    apply orb_false_iff. split.
    + unfold decimal_ok, count_digits, skip_digits. cbn [drop_sign].
      simpl lstrip_where. rewrite Nat.sub_diag. reflexivity.
    + unfold inf_nan_ok. apply str_in_false. cbn [drop_sign].
      change (ascii_lower (String "'" (replace_char "_" "" t +:+ "'")))
        with (String "'" (ascii_lower (replace_char "_" "" t +:+ "'"))).
      rewrite !elem_of_cons, elem_of_nil.
      intros [H|[H|[H|[]]]]; discriminate H.
Qed.

(** X16. A default that the catalog reports as a quoted string between
    parentheses, with or without the [N] prefix, and whose text holds
    neither a quote nor a backslash is carried over as it is:
    [('text')] and [(N'text')] both give [DEFAULT 'text'], also when the
    text itself starts with [N] or looks like a number. *)
Theorem quoted_default_carried_over (national : bool) (t : string) :
  mem_char "'" t = false →
  mem_char "\" t = false →
  default_clause ("(" +:+ (if national then "N" else "") +:+ "'" +:+ t +:+ "')")
  = " DEFAULT '" +:+ t +:+ "'".
Proof.
  intros Hq Hb.
  set (d := (if national then "N" else "") +:+ String "'" (t +:+ "'")).
  assert (Hraw : "(" +:+ (if national then "N" else "") +:+ "'" +:+ t +:+ "')"
                 = String "(" (d +:+ ")")).
  { unfold d. destruct national.
    - change ("'" +:+ t +:+ "')") with (String "'" (t +:+ "')")).
      change "')" with ("'" +:+ ")"). rewrite <- (append_assoc t).
      reflexivity.
    - change ("'" +:+ t +:+ "')") with (String "'" (t +:+ "')")).
      change "')" with ("'" +:+ ")"). rewrite <- (append_assoc t).
      reflexivity. }
  assert (Htext : default_text (String "(" (d +:+ ")")) = d).
  { unfold default_text, strip, strip_chars, d. destruct national.
    - change ("N" +:+ String "'" (t +:+ "'"))
        with (String "N" (String "'" t +:+ "'")).
      rewrite (strip_where_fixed isspace "(" ")") by reflexivity.
      apply (strip_where_peel _ "(" ")" "N" "'"); reflexivity.
    - change ("" +:+ String "'" (t +:+ "'")) with (String "'" (t +:+ "'")).
      rewrite (strip_where_fixed isspace "(" ")") by reflexivity.
      apply (strip_where_peel _ "(" ")" "'" "'"); reflexivity. }
  rewrite Hraw.
  rewrite default_clause_quoted; rewrite ?Htext.
  - f_equal. f_equal. unfold default_literal, d.
    assert (Hn : lstrip_chars "N"
                   ((if national then "N" else "") +:+ String "'" (t +:+ "'"))
                 = String "'" (t +:+ "'")) by (by destruct national).
    rewrite Hn, strip_quotes by exact Hq.
    rewrite (replace_char_absent "\") by exact Hb.
    by apply replace_char_absent.
  - apply str_in_false. unfold d, timestamp_spellings.
    destruct national.
    + change (lower ("N" +:+ String "'" (t +:+ "'")))
        with (String "n" (String "'" (lower (t +:+ "'")))).
      rewrite !elem_of_cons, elem_of_nil.
      intros [H|[H|[H|[H|[]]]]]; discriminate H.
    + change (lower ("" +:+ String "'" (t +:+ "'")))
        with (String "'" (lower (t +:+ "'"))).
      rewrite !elem_of_cons, elem_of_nil.
      intros [H|[H|[H|[H|[]]]]]; discriminate H.
  - apply str_in_false. unfold d, newid_spellings.
    destruct national.
    + change (lower ("N" +:+ String "'" (t +:+ "'")))
        with (String "n" (String "'" (lower (t +:+ "'")))).
      rewrite !elem_of_cons, elem_of_nil.
      intros [H|[H|[]]]; discriminate H.
    + change (lower ("" +:+ String "'" (t +:+ "'")))
        with (String "'" (lower (t +:+ "'"))).
      rewrite !elem_of_cons, elem_of_nil.
      intros [H|[H|[]]]; discriminate H.
  - apply float_parses_quoted.
Qed.

End LiteralDefaults.

Lemma quoted_default_carried_over_witness :
  Migrar.default_clause "('No')" = " DEFAULT 'No'"
  ∧ Migrar.default_clause "(N'pending')" = " DEFAULT 'pending'"
  ∧ Migrar.default_clause "('42')" = " DEFAULT '42'".
Proof.
  split; [|split].
  - apply (quoted_default_carried_over false "No"); reflexivity.
  - apply (quoted_default_carried_over true "pending"); reflexivity.
  - apply (quoted_default_carried_over false "42"); reflexivity.
Defined.

Section NumericDefaults.
Import Py Db Migrar.

Lemma is_digit_inv (c : ascii) :
  is_digit c = true →
  c ∈ ["0"; "1"; "2"; "3"; "4"; "5"; "6"; "7"; "8"; "9"]%char.
Proof.
  destruct c as [[] [] [] [] [] [] [] []]; intros H; vm_compute in H;
    try discriminate H; clear H;
    repeat (first [apply list_elem_of_here | apply list_elem_of_further]).
Qed.

Lemma all_of_append (p : ascii → bool) (a b : string) :
  Spec.all_of p (a +:+ b) = Spec.all_of p a && Spec.all_of p b.
Proof.
  induction a as [|x a IH]; [reflexivity|].
  rewrite append_cons. cbn [Spec.all_of]. by rewrite IH, andb_assoc.
Qed.

Lemma all_of_rev (p : ascii → bool) (s : string) :
  Spec.all_of p (String.rev s) = Spec.all_of p s.
Proof.
  induction s as [|x s IH]; [reflexivity|].
  rewrite rev_cons, all_of_append, IH. cbn [Spec.all_of].
  rewrite andb_true_r. apply andb_comm.
Qed.

Lemma lstrip_where_all (p : ascii → bool) (pre x : string) :
  Spec.all_of p pre = true →
  lstrip_where p (pre +:+ x) = lstrip_where p x.
Proof.
  induction pre as [|c pre IH]; [reflexivity|].
  cbn [Spec.all_of]. intros H. apply andb_true_iff in H as [Hc Hpre].
  rewrite append_cons. cbn [lstrip_where]. rewrite Hc. by apply IH.
Qed.

Lemma lstrip_where_head_kept (p : ascii → bool) (s : string) :
  Spec.head_kept p s = true → lstrip_where p s = s.
Proof.
  destruct s as [|c s]; [reflexivity|]. cbn [Spec.head_kept lstrip_where].
  intros H. apply negb_true_iff in H. by rewrite H.
Qed.

(** [strip] removes a prefix and a suffix of stripped characters around a
    core that neither starts nor ends with one. *)
Lemma strip_where_core (p : ascii → bool) (pre core post : string) :
  Spec.all_of p pre = true → Spec.all_of p post = true →
  Spec.head_kept p core = true → Spec.head_kept p (String.rev core) = true →
  strip_where p (pre +:+ core +:+ post) = core.
Proof.
  intros Hpre Hpost Hhead Hlast. unfold strip_where, rstrip_where.
  rewrite lstrip_where_all by exact Hpre.
  destruct core as [|b m].
  - change ("" +:+ post) with post.
    rewrite <- (append_empty_r post), lstrip_where_all by exact Hpost.
    reflexivity.
  - rewrite append_cons.
    assert (Hb : p b = false) by (by apply negb_true_iff in Hhead).
    cbn [lstrip_where]. rewrite Hb.
    rewrite <- append_cons, rev_append.
    rewrite lstrip_where_all by (by rewrite all_of_rev).
    rewrite lstrip_where_head_kept by exact Hlast.
    apply rev_involutive.
Qed.

Lemma rev_nonempty (s : string) : s ≠ "" → String.rev s ≠ "".
Proof.
  intros Hs Hrev. apply Hs. rewrite <- (rev_involutive s), Hrev. reflexivity.
Qed.

(** The two ends of a non-empty text made of digits are digits. *)
Lemma digits_ends (t : string) :
  t ≠ "" → Spec.all_of is_digit t = true →
  (∃ c r, t = String c r ∧ is_digit c = true)
  ∧ (∃ c r, String.rev t = String c r ∧ is_digit c = true).
Proof.
  intros Hne Hall. split.
  - destruct t as [|c r]; [congruence|]. exists c, r. split; [reflexivity|].
    cbn [Spec.all_of] in Hall. by apply andb_true_iff in Hall as [? _].
  - pose proof (rev_nonempty t Hne) as Hrev.
    rewrite <- all_of_rev in Hall.
    destruct (String.rev t) as [|c r]; [congruence|]. exists c, r.
    split; [reflexivity|].
    cbn [Spec.all_of] in Hall. by apply andb_true_iff in Hall as [? _].
Qed.

Lemma digit_kept (c : ascii) :
  is_digit c = true →
  mem_char c "()" = false ∧ float_space c = false ∧ isspace c = false
  ∧ lower_char c = c ∧ Ascii.eqb c "_" = false
  ∧ drop_sign (String c "") = String c ""
  ∧ c ≠ "g"%char ∧ c ≠ "s"%char ∧ c ≠ "c"%char ∧ c ≠ "n"%char.
Proof.
  intros H. apply is_digit_inv in H.
  repeat (apply elem_of_cons in H as [->|H];
          [vm_compute; repeat split; discriminate|]).
  by apply elem_of_nil in H.
Qed.

Lemma skip_all_digits (t : string) :
  Spec.all_of is_digit t = true → skip_digits t = "".
Proof.
  unfold skip_digits. induction t as [|c t IH]; [reflexivity|].
  cbn [Spec.all_of lstrip_where]. intros H.
  apply andb_true_iff in H as [Hc Ht]. rewrite Hc. by apply IH.
Qed.

Lemma lower_digits (t : string) :
  Spec.all_of is_digit t = true → lower t = t.
Proof.
  induction t as [|c t IH]; [reflexivity|].
  cbn [Spec.all_of lower]. intros H. apply andb_true_iff in H as [Hc Ht].
  destruct (digit_kept c Hc) as (_ & _ & _ & -> & _). by rewrite IH.
Qed.

Lemma replace_underscore_digits (t : string) :
  Spec.all_of is_digit t = true → replace_char "_" "" t = t.
Proof.
  induction t as [|c t IH]; [reflexivity|].
  cbn [Spec.all_of replace_char]. intros H.
  apply andb_true_iff in H as [Hc Ht].
  destruct (digit_kept c Hc) as (_ & _ & _ & _ & -> & _). by rewrite IH.
Qed.

(** Digits hold no underscore, so the check of the underscores passes
    after a digit, a minus sign or at the start. *)
Lemma underscores_ok_digits (prev : option ascii) (t : string) :
  match prev with
  | Some p => is_digit p = true ∨ p = "-"%char
  | None => True
  end →
  Spec.all_of is_digit t = true → underscores_ok prev t = true.
Proof.
  revert prev. induction t as [|c t IH]; intros prev Hprev Hall.
  - destruct prev as [p|]; [|reflexivity].
    destruct Hprev as [Hp| ->]; [|reflexivity].
    apply is_digit_inv in Hp.
    repeat (apply elem_of_cons in Hp as [->|Hp]; [reflexivity|]).
    by apply elem_of_nil in Hp.
  - cbn [Spec.all_of] in Hall. apply andb_true_iff in Hall as [Hc Ht].
    assert (Hnext : underscores_ok (Some c) t = true)
      by (apply IH; [by left|exact Ht]).
    pose proof Hc as Hc'. apply is_digit_inv in Hc'.
    destruct prev as [p|].
    + destruct Hprev as [Hp| ->].
      * apply is_digit_inv in Hp.
        repeat (apply elem_of_cons in Hp as [->|Hp];
                [repeat (apply elem_of_cons in Hc' as [->|Hc'];
                         [exact Hnext|]);
                 by apply elem_of_nil in Hc'|]).
        by apply elem_of_nil in Hp.
      * repeat (apply elem_of_cons in Hc' as [->|Hc']; [exact Hnext|]).
        by apply elem_of_nil in Hc'.
    + repeat (apply elem_of_cons in Hc' as [->|Hc']; [exact Hnext|]).
      by apply elem_of_nil in Hc'.
Qed.

Lemma drop_sign_digit (c : ascii) (r : string) :
  is_digit c = true → drop_sign (String c r) = String c r.
Proof.
  intros H. apply is_digit_inv in H.
  repeat (apply elem_of_cons in H as [->|H]; [reflexivity|]).
  by apply elem_of_nil in H.
Qed.

Lemma default_clause_number (raw : string) :
  str_in (lower (default_text raw)) timestamp_spellings = false →
  str_in (lower (default_text raw)) newid_spellings = false →
  float_parses (default_text raw) = true →
  default_clause raw = " DEFAULT " +:+ default_text raw.
Proof.
  intros Hts Hid Hfl. unfold default_clause, float. cbv zeta.
  rewrite Hts, Hid, Hfl. reflexivity.
Qed.

Lemma strip_where_unchanged (p : ascii → bool) (s : string) :
  Spec.head_kept p s = true → Spec.head_kept p (String.rev s) = true →
  strip_where p s = s.
Proof.
  intros Hhead Hlast.
  pose proof (strip_where_core p "" s "" eq_refl eq_refl Hhead Hlast) as H.
  rewrite append_empty_r in H. exact H.
Qed.

(** X17. A default that the catalog reports as an integer between double
    parentheses, with or without a minus sign, is carried over as it is:
    [((0))] gives [DEFAULT 0] and [((-1))] gives [DEFAULT -1]. *)
Theorem integer_default_carried_over (negative : bool) (t : string) :
  t ≠ "" →
  Spec.all_of is_digit t = true →
  default_clause ("((" +:+ (if negative then "-" else "") +:+ t +:+ "))")
  = " DEFAULT " +:+ (if negative then "-" else "") +:+ t.
Proof.
  intros Hne Hall.
  destruct (digits_ends t Hne Hall)
    as [(c & r & Ht & Hc) (z & rz & Hrev & Hz)].
  destruct (digit_kept c Hc) as (Hcp & Hcf & Hcs & _ & _ & _ & Hg & Hs & Hcc & Hn).
  destruct (digit_kept z Hz) as (Hzp & Hzf & Hzs & _).
  set (sign := if negative then "-" else "").
  set (d := sign +:+ t).
  assert (Hhead : ∀ p, p "-"%char = false → p c = false →
                       Spec.head_kept p d = true).
  { intros p Hm Hpc. unfold d, sign. rewrite Ht. destruct negative.
    - change ("-" +:+ String c r) with (String "-" (String c r)).
      cbn [Spec.head_kept]. by rewrite Hm.
    - change ("" +:+ String c r) with (String c r).
      cbn [Spec.head_kept]. by rewrite Hpc. }
  assert (Hlast : ∀ p, p z = false →
                       Spec.head_kept p (String.rev d) = true).
  { intros p Hpz. unfold d. rewrite rev_append, Hrev, append_cons.
    cbn [Spec.head_kept]. by rewrite Hpz. }
  assert (Hraw : "((" +:+ sign +:+ t +:+ "))" = "((" +:+ d +:+ "))")
    by (unfold d; by rewrite append_assoc).
  assert (Htext : default_text ("((" +:+ d +:+ "))") = d).
  { unfold default_text, strip, strip_chars.
    rewrite (strip_where_unchanged isspace).
    - apply strip_where_core; [reflexivity|reflexivity| |].
      + by apply Hhead.
      + by apply Hlast.
    - reflexivity.
    - rewrite !rev_append. reflexivity. }
  assert (Hlow : lower d = d).
  { unfold d. rewrite lower_append, (lower_digits t Hall).
    unfold sign. by destruct negative. }
  assert (Hd : ∃ h rest, d = String h rest
                         ∧ h ≠ "g"%char ∧ h ≠ "s"%char ∧ h ≠ "c"%char
                         ∧ h ≠ "n"%char).
  { unfold d, sign. rewrite Ht. destruct negative.
    - exists "-"%char, (String c r). repeat split; discriminate.
    - exists c, r. by repeat split. }
  rewrite Hraw. rewrite default_clause_number; rewrite ?Htext, ?Hlow.
  - reflexivity.
  - destruct Hd as (h & rest & -> & Hhg & Hhs & Hhc & Hhn).
    apply str_in_false. unfold timestamp_spellings.
    rewrite !elem_of_cons, elem_of_nil.
    intros [H|[H|[H|[H|[]]]]]; injection H as H _; congruence.
  - destruct Hd as (h & rest & -> & Hhg & Hhs & Hhc & Hhn).
    apply str_in_false. unfold newid_spellings.
    rewrite !elem_of_cons, elem_of_nil.
    intros [H|[H|[]]]; injection H as H _; congruence.
  - unfold float_parses. apply andb_true_iff. split.
    + unfold d, sign. destruct negative.
      * change (underscores_ok None ("-" +:+ t))
          with (underscores_ok (Some "-"%char) t).
        apply underscores_ok_digits; [by right|exact Hall].
      * change ("" +:+ t) with t.
        apply underscores_ok_digits; [exact I|exact Hall].
    + assert (Hrep : replace_char "_" "" d = d).
      { unfold d. rewrite replace_char_append, (replace_underscore_digits t Hall).
        unfold sign. by destruct negative. }
      rewrite Hrep.
      rewrite strip_where_unchanged; [|by apply Hhead|by apply Hlast].
      apply orb_true_iff. left.
      assert (Hdrop : drop_sign d = t).
      { unfold d, sign. destruct negative; [reflexivity|].
        change ("" +:+ t) with t. rewrite Ht. by apply drop_sign_digit. }
      unfold decimal_ok, count_digits. cbv zeta.
      rewrite Hdrop, (skip_all_digits t Hall). rewrite Ht. reflexivity.
Qed.

End NumericDefaults.

Lemma integer_default_carried_over_witness :
  Migrar.default_clause "((0))" = " DEFAULT 0"
  ∧ Migrar.default_clause "((-1))" = " DEFAULT -1".
Proof.
  split.
  - apply (integer_default_carried_over false "0"); [discriminate|reflexivity].
  - apply (integer_default_carried_over true "1"); [discriminate|reflexivity].
Defined.

Lemma default_clause_cases_witness :
  Migrar.default_clause "(GETDATE())" = " DEFAULT CURRENT_TIMESTAMP"
  ∧ Migrar.default_clause "(newid())" = "".
Proof.
  split.
  - destruct (default_clause_cases "(GETDATE())") as (_ & H & _).
    rewrite H. vm_compute. reflexivity.
  - destruct (default_clause_cases "(newid())") as (_ & H & _).
    rewrite H. vm_compute. reflexivity.
Defined.

Lemma build_create_table_mysql_shape_witness :
  ∃ parts,
    Migrar.build_create_table_mysql "orders"
      [Examples.orders_id; Examples.orders_status] ["id"]
    = Py.Ok ("CREATE TABLE IF NOT EXISTS `orders` (" +:+ Migrar.newline +:+ "  "
             +:+ Py.join ("," +:+ Migrar.newline +:+ "  ")
                   (parts ++ ["PRIMARY KEY (`id`)"])
             +:+ Migrar.newline +:+ ") ENGINE=InnoDB DEFAULT CHARSET=utf8mb4;").
Proof.
  destruct (build_create_table_mysql_shape "orders"
              [Examples.orders_id; Examples.orders_status] ["id"])
    as (parts & _ & H).
  exists parts. exact H.
Defined.
